(** * Job control of the shell: a shallow embedding of [jobs.c] and [shell.c]

    The registry of jobs, the SIGCHLD handler, the foreground monitor, the
    job commands and the pipeline builder are written as functions on an
    explicit [world]: the job table, the terminal, the descriptor table, the
    files, and a trace of the calls made to the kernel.  A call that the C
    code makes blocking ([sigsuspend]) consumes one element of a list of
    wake-ups supplied by the environment. *)

From Stdlib Require Import ZArith Lia String.
From stdpp Require Import base option list.

Open Scope Z_scope.

(** ** Outcomes

    [Fault]: an [assert] fails, a wrapper of the C library terminates the
    process, or the C code has no defined behaviour (an index outside its
    array).  [Starved]: the call blocks in [sigsuspend] and the environment
    has no further wake-up. *)

Inductive outcome (A : Type) : Type :=
| Done (a : A)
| Fault
| Starved.
Arguments Done {A} a.
Arguments Fault {A}.
Arguments Starved {A}.

#[global] Instance outcome_ret : MRet outcome := @Done.
#[global] Instance outcome_bind : MBind outcome := fun A B f m =>
  match m with
  | Done a => f a
  | Fault => Fault
  | Starved => Starved
  end.

Definition assert (b : bool) : outcome unit :=
  if b then Done tt else Fault.

Definition of_option {A} (o : option A) : outcome A :=
  match o with
  | Some a => Done a
  | None => Fault
  end.

(** ** What [shell.h] and the system headers declare *)

(** Modelled from the spec: [token_t] and its markers are declared in
    [shell.h], which is not among the sources; section 6 has the tokenizer
    produce "an ordered token sequence with distinguished
    redirection-input, redirection-output, pipe-separator, and
    background-marker tokens".  [token_t] is [char *], so a token is the
    null pointer, a marker or a C string. *)
Inductive token : Type :=
| NULL
| T_PIPE
| T_BGJOB
| T_OUTPUT
| T_INPUT
| Word (s : string).

Definition token_eqb (a b : token) : bool :=
  match a, b with
  | NULL, NULL | T_PIPE, T_PIPE | T_BGJOB, T_BGJOB
  | T_OUTPUT, T_OUTPUT | T_INPUT, T_INPUT => true
  | Word s, Word t => String.eqb s t
  | _, _ => false
  end.

(** [!t] on a token. *)
Definition is_null (t : token) : bool := token_eqb t NULL.

(** The constants of [shell.h] whose values the sources do not show, and
    [struct termios], which the code only copies, clears and hands to
    [tcgetattr] / [tcsetattr]. *)
Class shell_h : Type := ShellH {
  termios : Type;
  termios_zero : termios;   (* the value [memset (.., 0, ..)] leaves *)
  FINISHED : Z;
  RUNNING : Z;
  STOPPED : Z;
  T_NULL : token;
}.

(** The three states label the cases of one [switch], so they differ. *)
Definition states_distinct `{shell_h} : Prop :=
  FINISHED <> STOPPED /\ FINISHED <> RUNNING /\ STOPPED <> RUNNING.

(** Modelled from the spec: [shell.h] is not among the sources; section 3
    has "Slot 0 is reserved for the foreground job; all other slots are
    background jobs". *)
Definition FG : Z := 0.
Definition BG : Z := 1.

Inductive signal : Type := SIGTERM | SIGCONT.

(** [<fcntl.h>] and [<sys/stat.h>] on Linux. *)
Definition O_RDONLY : Z := 0.
Definition O_WRONLY : Z := 1.
Definition O_CREAT : Z := 64.     (* 0100 *)
Definition O_TRUNC : Z := 512.    (* 01000 *)
Definition O_APPEND : Z := 1024.  (* 02000 *)
Definition O_ACCMODE : Z := 3.
Definition S_IRUSR : Z := 256.    (* 0400 *)
Definition S_IWUSR : Z := 128.    (* 0200 *)
Definition S_IRGRP : Z := 32.     (* 040 *)
Definition S_IWGRP : Z := 16.     (* 020 *)
Definition S_IROTH : Z := 4.      (* 04 *)

(** [<sys/wait.h>] of glibc, on the [int] that [waitpid] stores. *)
Definition WTERMSIG (status : Z) : Z := Z.land status 127.
Definition WEXITSTATUS (status : Z) : Z := Z.shiftr (Z.land status 65280) 8.
Definition WIFEXITED (status : Z) : bool := WTERMSIG status =? 0.
(** [((signed char) ((status & 0x7f) + 1) >> 1) > 0] *)
Definition signed_char (x : Z) : Z :=
  let b := x mod 256 in if b <? 128 then b else b - 256.
Definition WIFSIGNALED (status : Z) : bool :=
  0 <? Z.shiftr (signed_char (Z.land status 127 + 1)) 1.
Definition WIFSTOPPED (status : Z) : bool := Z.land status 255 =? 127.
Definition WIFCONTINUED (status : Z) : bool := status =? 65535.

(** ** The data of [jobs.c] *)

Module proc.
Record t : Type := mk {
  pid : Z;       (* process identifier *)
  state : Z;     (* RUNNING or STOPPED or FINISHED *)
  exitcode : Z;  (* -1 if exit status not yet received *)
}.
End proc.

Module job.
(** [proc] holds the [nproc] entries of the C array. *)
Record t `{shell_h} : Type := mk {
  pgid : Z;                   (* 0 if slot is free *)
  proc : list proc.t;
  tmodes : termios;           (* saved terminal modes *)
  state : Z;                  (* changes when live processes have same state *)
  command : option string;    (* [None] is the NULL pointer *)
}.
Definition nproc `{shell_h} (j : t) : Z := Z.of_nat (length (proc j)).
(** A slot after [memset (.., 0, sizeof (job_t))] or [calloc]. *)
Definition zero `{shell_h} : t := mk _ 0 [] termios_zero 0 None.
End job.

(** What the shell prints with [msg]. *)
Inductive message : Type :=
| No_task_control
| Continue (j : Z) (cmd : option string)
| Suspended (j : Z) (cmd : option string)
| Running_bg (j : Z) (cmd : option string).

(** What a descriptor refers to: a regular file with the flags it was
    opened with and its offset, or one end of a pipe. *)
Inductive fdesc : Type :=
| FD_file (path : string) (flags offset : Z)
| FD_pipe_rd
| FD_pipe_wr.

(** Calls that leave the process, in the order they are made. *)
Inductive event : Type :=
| EKill (target : Z) (sig : signal)
| EMsg (m : message)
| EOpen (path : string) (flags mode fd : Z)
| EClose (fd : Z)
| EPipe (rd wr : Z)
| EFork (child pgid input output : Z) (argv : list token)
| ESetpgid (p pg : Z).

Record world `{shell_h} : Type := World {
  jobs : list job.t;                 (* [njobmax] is its length *)
  shell_tmodes : termios;            (* saved shell terminal modes *)
  tty_pgrp : Z;                      (* foreground group of the terminal *)
  tty_tmodes : termios;              (* attributes of the terminal *)
  pgrp : Z;                          (* [getpgrp ()] of the shell *)
  fdt : list (Z * fdesc);              (* open descriptors *)
  files : list (string * list Z);    (* regular files and their bytes *)
  trace : list event;
}.

Section Jobs.
Context `{H : shell_h}.

Definition njobmax (w : world) : Z := Z.of_nat (length (jobs w)).

Definition set_jobs (js : list job.t) (w : world) : world :=
  World _ js (shell_tmodes w) (tty_pgrp w) (tty_tmodes w) (pgrp w)
    (fdt w) (files w) (trace w).
Definition set_tty_pgrp (g : Z) (w : world) : world :=
  World _ (jobs w) (shell_tmodes w) g (tty_tmodes w) (pgrp w)
    (fdt w) (files w) (trace w).
Definition set_tty_tmodes (m : termios) (w : world) : world :=
  World _ (jobs w) (shell_tmodes w) (tty_pgrp w) m (pgrp w)
    (fdt w) (files w) (trace w).
Definition set_shell_tmodes (m : termios) (w : world) : world :=
  World _ (jobs w) m (tty_pgrp w) (tty_tmodes w) (pgrp w)
    (fdt w) (files w) (trace w).
Definition set_fdt (t : list (Z * fdesc)) (w : world) : world :=
  World _ (jobs w) (shell_tmodes w) (tty_pgrp w) (tty_tmodes w) (pgrp w)
    t (files w) (trace w).
Definition set_files (f : list (string * list Z)) (w : world) : world :=
  World _ (jobs w) (shell_tmodes w) (tty_pgrp w) (tty_tmodes w) (pgrp w)
    (fdt w) f (trace w).
Definition emit (e : event) (w : world) : world :=
  World _ (jobs w) (shell_tmodes w) (tty_pgrp w) (tty_tmodes w) (pgrp w)
    (fdt w) (files w) (trace w ++ [e]).

(** [jobs[j]] for an [int j]: defined inside the array only. *)
Definition job_at (j : Z) (w : world) : outcome job.t :=
  if (0 <=? j) then of_option (jobs w !! Z.to_nat j) else Fault.

Definition put_job (j : Z) (b : job.t) (w : world) : world :=
  set_jobs (<[Z.to_nat j := b]> (jobs w)) w.

(** ** [sigchld_handler] *)

(** Lines 44-56: the entry takes the state that the wait status encodes. *)
Definition reap (status : Z) (p : proc.t) : proc.t :=
  if WIFSTOPPED status then proc.mk (proc.pid p) STOPPED status
  else if WIFEXITED status then proc.mk (proc.pid p) FINISHED status
  else if WIFSIGNALED status then proc.mk (proc.pid p) FINISHED status
  else if WIFCONTINUED status then proc.mk (proc.pid p) RUNNING status
  else p.

(** The inner [for] of lines 37-58, with the flag [done]. *)
Fixpoint scan_procs (pid status : Z) (done : bool) (ps : list proc.t)
  : bool * list proc.t :=
  match ps with
  | [] => (done, [])
  | p :: ps' =>
      if done then (done, ps)
      else if proc.pid p =? pid then
        let '(d, r) := scan_procs pid status true ps' in (d, reap status p :: r)
      else
        let '(d, r) := scan_procs pid status done ps' in (d, p :: r)
  end.

Definition set_proc (ps : list proc.t) (b : job.t) : job.t :=
  job.mk _ (job.pgid b) ps (job.tmodes b) (job.state b) (job.command b).
Definition set_state (s : Z) (b : job.t) : job.t :=
  job.mk _ (job.pgid b) (job.proc b) (job.tmodes b) s (job.command b).
Definition set_tmodes (m : termios) (b : job.t) : job.t :=
  job.mk _ (job.pgid b) (job.proc b) m (job.state b) (job.command b).

(** The outer [for] of lines 33-59 from slot [i] on; it returns [numbJob]
    and the slots. *)
Fixpoint scan_jobs (pid status : Z) (i : Z) (done : bool) (numbJob : Z)
  (js : list job.t) : Z * list job.t :=
  match js with
  | [] => (numbJob, [])
  | b :: js' =>
      if done then (numbJob, js)
      else
        let '(d, ps) := scan_procs pid status false (job.proc b) in
        let '(n, r) :=
          scan_jobs pid status (i + 1) d (if d then i else numbJob) js' in
        (n, set_proc ps b :: r)
  end.

(** Lines 60-77. *)
Definition mask_of (ps : list proc.t) : Z :=
  fold_left (fun mask p =>
    if proc.state p =? FINISHED then Z.lor mask 1
    else if proc.state p =? STOPPED then Z.lor mask 2
    else if proc.state p =? RUNNING then Z.lor mask 4
    else mask) ps 0.

(** Lines 78-94. *)
Definition recompute (b : job.t) : job.t :=
  let mask := mask_of (job.proc b) in
  if mask =? 1 then set_state FINISHED b
  else if mask =? 2 then set_state STOPPED b
  else if mask =? 4 then set_state RUNNING b
  else b.

(** One round of the [while]: [waitpid] has returned [pid] and [status]. *)
Definition sigchld_step (pid status : Z) (js : list job.t) : list job.t :=
  let '(numbJob, js') := scan_jobs pid status 0 false 0 js in
  alter recompute (Z.to_nat numbJob) js'.

(** The handler, given what the successive [waitpid] calls return before
    one returns no child. *)
Definition sigchld_handler (reaped : list (Z * Z)) (w : world) : world :=
  set_jobs
    (fold_left (fun js r => sigchld_step (fst r) (snd r) js) reaped (jobs w)) w.

(** ** The registry *)

(** [job->proc[job->nproc - 1].exitcode] *)
Definition exitcode (b : job.t) : outcome Z :=
  of_option (proc.exitcode <$> last (job.proc b)).

(** The [for] of [allocjob] over the slots [js], the first of which has
    index [j]. *)
Fixpoint find_free (j : Z) (js : list job.t) : option Z :=
  match js with
  | [] => None
  | b :: js' => if job.pgid b =? 0 then Some j else find_free (j + 1) js'
  end.

Definition allocjob (w : world) : Z * world :=
  match find_free BG (drop (Z.to_nat BG) (jobs w)) with
  | Some j => (j, w)
  | None => (njobmax w, set_jobs (jobs w ++ [job.zero]) w)
  end.

Definition addjob (pgid : Z) (bg : bool) (w : world) : Z * world :=
  let '(j, w) := if bg then allocjob w else (FG, w) in
  (j, put_job j (job.mk _ pgid [] (shell_tmodes w) RUNNING None) w).

Definition deljob (b : job.t) : outcome job.t :=
  _ ← assert (job.state b =? FINISHED);
  Done (job.mk _ 0 [] (job.tmodes b) (job.state b) None).

Definition movejob (from to : Z) (w : world) : outcome world :=
  t ← job_at to w;
  _ ← assert (job.pgid t =? 0);
  f ← job_at from w;
  Done (put_job from job.zero (put_job to f w)).

(** Modelled from the spec: [strapp] is not among the sources; section
    4.2 has [add_process] append the label "to [command_text] (joined with
    a pipe separator if not first)", so [strapp (dstp, src)] appends [src]
    to the string at [*dstp].  [argv] is the token array from the pointer
    on; only C strings can be appended. *)
Fixpoint mkcommand_rest (argv : list token) (cmd : string) : outcome string :=
  match argv with
  | NULL :: _ => Done cmd
  | Word s :: argv' => mkcommand_rest argv' (cmd ++ " " ++ s)%string
  | _ => Fault
  end.

Definition mkcommand (cmd : option string) (argv : list token)
  : outcome string :=
  let cmd := match cmd with
             | Some c => (c ++ " | ")%string
             | None => EmptyString
             end in
  match argv with
  | Word s :: argv' => mkcommand_rest argv' (cmd ++ s)%string
  | _ => Fault
  end.

Definition addproc (j pid : Z) (argv : list token) (w : world)
  : outcome world :=
  _ ← assert (j <? njobmax w);
  b ← job_at j w;
  cmd ← mkcommand (job.command b) argv;
  Done (put_job j
          (job.mk _ (job.pgid b) (job.proc b ++ [proc.mk pid RUNNING (-1)])
             (job.tmodes b) (job.state b) (Some cmd)) w).

(** [jobstate (j, statusp)]: the state, [*statusp] afterwards, the world. *)
Definition jobstate (j : Z) (status : Z) (w : world)
  : outcome (Z * Z * world) :=
  _ ← assert (j <? njobmax w);
  b ← job_at j w;
  let state := job.state b in
  if state =? FINISHED then
    code ← exitcode b;
    b' ← deljob b;
    Done (state, code, put_job j b' w)
  else Done (state, status, w).

Definition jobcmd (j : Z) (w : world) : outcome (option string) :=
  _ ← assert (j <? njobmax w);
  b ← job_at j w;
  Done (job.command b).

(** ** Blocking in [sigsuspend]

    A wake-up is one return of [sigsuspend (mask)] with SIGCHLD unblocked in
    [mask]: the handler has run on the children that [waitpid] reported, and
    the job that owned the terminal may have set its attributes meanwhile. *)
Record wakeup : Type := Wakeup {
  reaped : list (Z * Z);
  tty_set : option termios;
}.

Definition sigsuspend (e : wakeup) (w : world) : world :=
  sigchld_handler (reaped e)
    (match tty_set e with
     | Some m => set_tty_tmodes m w
     | None => w
     end).

(** ** [monitorjob] *)

(** The [while] of line 285; it returns [state], [exitcode], the world and
    the wake-ups not consumed. *)
Fixpoint monitor_wait (evs : list wakeup) (code : Z) (w : world)
  : outcome (Z * Z * world * list wakeup) :=
  match jobstate 0 code w with
  | Done (state, code, w) =>
      if state =? RUNNING then
        match evs with
        | [] => Starved
        | e :: evs' => monitor_wait evs' code (sigsuspend e w)
        end
      else Done (state, code, w, evs)
  | Fault => Fault
  | Starved => Starved
  end.

(** Lines 289-292: the foreground job leaves slot 0. *)
Definition suspend_fg (w : world) : outcome world :=
  fg ← job_at 0 w;
  let w := put_job 0 (set_tmodes (tty_tmodes w) fg) w in
  let '(to, w) := allocjob w in
  w ← movejob 0 to w;
  cmd ← jobcmd to w;
  Done (emit (EMsg (Suspended to cmd)) w).

Definition monitorjob (evs : list wakeup) (w : world)
  : outcome (Z * world * list wakeup) :=
  fg ← job_at 0 w;
  let w := set_tty_pgrp (job.pgid fg) w in
  '(state, code, w, evs) ← monitor_wait evs 0 w;
  w ← (if state =? STOPPED then suspend_fg w else Done w);
  let w := if negb (state =? RUNNING)
           then set_tty_pgrp (pgrp w) (set_tty_tmodes (shell_tmodes w) w)
           else w in
  Done (code, w, evs).

(** ** [resumejob] and [killjob] *)

(** The [for] of line 199 from slot [j] down. *)
Fixpoint resume_scan (js : list job.t) (j : nat) : nat :=
  match j with
  | O => O
  | S j' =>
      match js !! j with
      | Some b => if job.state b =? FINISHED then resume_scan js j' else j
      | None => j
      end
  end.

(** Lines 198-201: the slot resumed when the caller names [j]. *)
Definition resume_target (j : Z) (w : world) : Z :=
  if j <? 0 then Z.of_nat (resume_scan (jobs w) (Z.to_nat (njobmax w - 1)))
  else j.

(** The [while] of line 217. *)
Fixpoint wait_stopped (evs : list wakeup) (w : world)
  : outcome (world * list wakeup) :=
  match job_at 0 w with
  | Done fg =>
      if job.state fg =? STOPPED then
        match evs with
        | [] => Starved
        | e :: evs' => wait_stopped evs' (sigsuspend e w)
        end
      else Done (w, evs)
  | Fault => Fault
  | Starved => Starved
  end.

Definition resumejob (j : Z) (bg : bool) (evs : list wakeup) (w : world)
  : outcome (bool * world * list wakeup) :=
  let j := resume_target j w in
  if njobmax w <=? j then Done (false, w, evs)
  else
    b ← job_at j w;
    if job.state b =? FINISHED then Done (false, w, evs)
    else
      fg ← job_at 0 w;
      if negb (tty_pgrp w =? pgrp w) || negb (job.pgid fg =? 0) then
        Done (false, emit (EMsg No_task_control) w, evs)
      else if negb bg then
        w ← movejob j 0 w;
        fg ← job_at 0 w;
        let w := set_tty_pgrp (job.pgid fg) w in
        let w := set_tty_tmodes (job.tmodes fg) w in
        '(w, evs) ← (if job.state fg =? STOPPED
                     then wait_stopped evs (emit (EKill (- job.pgid fg) SIGCONT) w)
                     else Done (w, evs));
        cmd ← jobcmd 0 w;
        let w := emit (EMsg (Continue j cmd)) w in
        '(_, w, evs) ← monitorjob evs w;
        Done (true, w, evs)
      else if job.state b =? STOPPED then
        let w := emit (EKill (- job.pgid b) SIGCONT) w in
        cmd ← jobcmd j w;
        Done (true, emit (EMsg (Continue j cmd)) w, evs)
      else Done (true, w, evs).

(** [debug] prints nothing: [shell.c] sets [DEBUG] to 0. *)
Definition killjob (j : Z) (w : world) : outcome (bool * world) :=
  if njobmax w <=? j then Done (false, w)
  else
    b ← job_at j w;
    if job.state b =? FINISHED then Done (false, w)
    else
      let w := emit (EKill (- job.pgid b) SIGTERM) w in
      let w := if job.state b =? STOPPED
               then emit (EKill (- job.pgid b) SIGCONT) w else w in
      Done (true, w).

(** ** [initjobs]: one cleared slot, the terminal taken, its modes saved.

    [calloc] gives an array of one slot, and [initjobs] does not assign
    [njobmax], a static that starts at 1 and that only [allocjob] changes.
    The registry of the model has [njobmax] as its length, so the call is
    modelled where [njobmax] is 1, as it is at the one call in [main]: what
    the old array held is not read.  Elsewhere the new array would have
    fewer slots than [njobmax], and every scan up to [njobmax] would read
    outside it. *)
Definition initjobs (w : world) : outcome world :=
  _ ← assert (njobmax w =? 1);
  let w := set_jobs [job.zero] w in
  let w := set_tty_pgrp (pgrp w) w in
  Done (set_shell_tmodes (tty_tmodes w) w).

(** ** Descriptors and files

    Modelled from the spec: the wrappers [Open], [Close], [Pipe], [Fork],
    [Kill], [Setpgid] and [Tc...] are not among the sources; section 7 has
    "redirection/open failures abort only the command being launched", so
    a wrapper returns only when its call has succeeded and is a [Fault]
    otherwise.  The kernel hands out the lowest descriptor that is not
    open. *)

Fixpoint fd_lookup (fd : Z) (t : list (Z * fdesc)) : option fdesc :=
  match t with
  | [] => None
  | (k, d) :: t' => if k =? fd then Some d else fd_lookup fd t'
  end.

Fixpoint fd_remove (fd : Z) (t : list (Z * fdesc)) : list (Z * fdesc) :=
  match t with
  | [] => []
  | (k, d) :: t' =>
      if k =? fd then fd_remove fd t' else (k, d) :: fd_remove fd t'
  end.

Definition fd_is_open (fd : Z) (t : list (Z * fdesc)) : bool :=
  match fd_lookup fd t with
  | Some _ => true
  | None => false
  end.

Fixpoint lowest_free (k : nat) (fd : Z) (t : list (Z * fdesc)) : Z :=
  match k with
  | O => fd
  | S k' => if fd_is_open fd t then lowest_free k' (fd + 1) t else fd
  end.

Definition fresh_fd (t : list (Z * fdesc)) : Z := lowest_free (length t) 0 t.

Fixpoint file_lookup (p : string) (fs : list (string * list Z))
  : option (list Z) :=
  match fs with
  | [] => None
  | (q, c) :: fs' => if String.eqb p q then Some c else file_lookup p fs'
  end.

Fixpoint file_store (p : string) (c : list Z) (fs : list (string * list Z))
  : list (string * list Z) :=
  match fs with
  | [] => [(p, c)]
  | (q, d) :: fs' =>
      if String.eqb p q then (p, c) :: fs' else (q, d) :: file_store p c fs'
  end.

(** [open (path, flags, mode)] on regular files: a missing file is created
    empty under [O_CREAT]; an existing one loses its bytes only under
    [O_TRUNC] with write access; the offset starts at 0. *)
Definition sys_open (p : string) (flags : Z) (fs : list (string * list Z))
  : option (list (string * list Z)) :=
  match file_lookup p fs with
  | Some c =>
      if negb (Z.land flags O_TRUNC =? 0)
         && negb (Z.land flags O_ACCMODE =? O_RDONLY)
      then Some (file_store p [] fs) else Some fs
  | None =>
      if negb (Z.land flags O_CREAT =? 0)
      then Some (file_store p [] fs) else None
  end.

Definition Open (path : token) (flags mode : Z) (w : world)
  : outcome (Z * world) :=
  match path with
  | Word p =>
      fs ← of_option (sys_open p flags (files w));
      let fd := fresh_fd (fdt w) in
      Done (fd, emit (EOpen p flags mode fd)
                  (set_fdt ((fd, FD_file p flags 0) :: fdt w) (set_files fs w)))
  | _ => Fault
  end.

Definition Close (fd : Z) (w : world) : outcome world :=
  _ ← assert (fd_is_open fd (fdt w));
  Done (emit (EClose fd) (set_fdt (fd_remove fd (fdt w)) w)).

(** [write (fd, data)] on a descriptor of a regular file opened for
    writing: under [O_APPEND] the offset first moves to the end; the bytes
    replace those at the offset and the rest of the file stays. *)
Definition sys_write (fd : Z) (data : list Z) (w : world) : option world :=
  match fd_lookup fd (fdt w) with
  | Some (FD_file p flags off) =>
      if Z.land flags O_ACCMODE =? O_RDONLY then None
      else
        c ← file_lookup p (files w);
        let off := if negb (Z.land flags O_APPEND =? 0)
                   then Z.of_nat (length c) else off in
        let n := Z.to_nat off in
        let c' := take n c ++ replicate (n - length c)%nat 0 ++ data
                    ++ drop (n + length data)%nat c in
        Some (set_files (file_store p c' (files w))
                (set_fdt ((fd, FD_file p flags (off + Z.of_nat (length data)))
                            :: fd_remove fd (fdt w)) w))
  | _ => None
  end.

(** ** [shell.c] *)

Definition MaybeClose (fd : Z) (w : world) : outcome (Z * world) :=
  if fd <? 0 then Done (fd, w)
  else w ← Close fd w; Done (-1, w).

(** [token[i]] for a pointer [token] that is [base] entries into the array
    [toks]. *)
Definition tok_read (toks : list token) (i : Z) : outcome token :=
  if 0 <=? i then of_option (toks !! Z.to_nat i) else Fault.

Definition tok_write (toks : list token) (i : Z) (v : token)
  : outcome (list token) :=
  if (0 <=? i) && (i <? Z.of_nat (length toks))
  then Done (<[Z.to_nat i := v]> toks) else Fault.

(** The variables of [do_redir]. *)
Record redir : Type := Redir {
  r_toks : list token;
  r_mode : token;    (* T_INPUT, T_OUTPUT or NULL *)
  r_n : Z;           (* number of tokens after redirections are removed *)
  r_input : Z;       (* [*inputp] *)
  r_output : Z;      (* [*outputp] *)
}.

(** The body of the [for] of [do_redir] at index [i]. *)
Definition redir_body (base i : Z) (r : redir) (w : world)
  : outcome (redir * world) :=
  t ← tok_read (r_toks r) (base + i);
  if token_eqb t T_INPUT then
    let n := if is_null (r_mode r) then i else r_n r in
    '(_, w) ← MaybeClose (r_input r) w;
    path ← tok_read (r_toks r) (base + i + 1);
    '(fd, w) ← Open path O_RDONLY 0 w;
    Done (Redir (r_toks r) t n fd (r_output r), w)
  else if token_eqb t T_OUTPUT then
    let n := if is_null (r_mode r) then i else r_n r in
    '(_, w) ← MaybeClose (r_output r) w;
    path ← tok_read (r_toks r) (base + i + 1);
    '(fd, w) ← Open path (Z.lor O_WRONLY O_CREAT)
                 (Z.lor (Z.lor (Z.lor (Z.lor S_IWUSR S_IRUSR) S_IRGRP) S_IWGRP)
                    S_IROTH) w;
    Done (Redir (r_toks r) t n (r_input r) fd, w)
  else if is_null (r_mode r) then
    Done (Redir (r_toks r) (r_mode r) (r_n r + 1) (r_input r) (r_output r), w)
  else
    toks ← tok_write (r_toks r) (base + i) T_NULL;
    Done (Redir toks (r_mode r) (r_n r) (r_input r) (r_output r), w).

(** [k] more rounds of the [for], the next at index [i]. *)
Fixpoint redir_for (k : nat) (base i : Z) (r : redir) (w : world)
  : outcome (redir * world) :=
  match k with
  | O => Done (r, w)
  | S k' =>
      '(r, w) ← redir_body base i r w;
      redir_for k' base (i + 1) r w
  end.

(** [do_redir (token, ntokens, &input, &output)] with [token] at [base] in
    [toks]: the count returned, the array, the two descriptors. *)
Definition do_redir (toks : list token) (base ntokens input output : Z)
  (w : world) : outcome (Z * list token * Z * Z * world) :=
  '(r, w) ← redir_for (Z.to_nat ntokens) base 0
              (Redir toks NULL 0 input output) w;
  toks ← tok_write (r_toks r) (base + r_n r) NULL;
  Done (r_n r, toks, r_input r, r_output r, w).

(** Modelled from the spec: [app_error] is not among the sources; section
    4.4 has the builder report an error "without spawning further stages",
    so it is a [Fault].  The child of [Fork] is another process: the
    parent's world records what it was given, the group it joins, its two
    descriptors and its arguments. *)
Fixpoint argv_of (toks : list token) : list token :=
  match toks with
  | [] => []
  | NULL :: _ => []
  | t :: toks' => t :: argv_of toks'
  end.

(** [do_stage]: the child's pid, the token array, the pids that [Fork] has
    yet to hand out. *)
Definition do_stage (pgid input output : Z) (toks : list token)
  (base ntokens : Z) (pids : list Z) (w : world)
  : outcome (Z * list token * list Z * world) :=
  '(ntokens, toks, input, output, w) ←
    do_redir toks base ntokens input output w;
  _ ← assert (negb (ntokens =? 0));
  match pids with
  | [] => Fault
  | pid :: pids' =>
      let w := emit (EFork pid (if pgid =? 0 then pid else pgid) input output
                       (argv_of (drop (Z.to_nat base) toks))) w in
      Done (pid, toks, pids', emit (ESetpgid pid pid) w)
  end.

(** [mkpipe]: the read end and the write end. *)
Definition mkpipe (w : world) : outcome (Z * Z * world) :=
  let rd := fresh_fd (fdt w) in
  let t := (rd, FD_pipe_rd) :: fdt w in
  let wr := fresh_fd t in
  Done (rd, wr, emit (EPipe rd wr) (set_fdt ((wr, FD_pipe_wr) :: t) w)).

(** The [for] of lines 169-174, [k] more rounds, the next at index [i]. *)
Fixpoint first_pipe (k : nat) (toks : list token) (i length : Z)
  : outcome Z :=
  match k with
  | O => Done length
  | S k' =>
      t ← tok_read toks i;
      if token_eqb t T_PIPE then Done i
      else first_pipe k' toks (i + 1) length
  end.

(** The [for] of lines 184-191: [length], and whether [mkpipe] is due. *)
Fixpoint next_pipe (k : nat) (toks : list token) (base i ntokens length : Z)
  : outcome (Z * bool) :=
  match k with
  | O => Done (length, false)
  | S k' =>
      t ← tok_read toks (base + i);
      if token_eqb t T_PIPE then Done (i, true)
      else next_pipe k' toks base (i + 1) ntokens ntokens
  end.

(** The variables of [do_pipeline] that its [while] changes; [token] is
    [p_base] entries into [p_toks]. *)
Record pipeline : Type := Pipeline {
  p_toks : list token;
  p_base : Z;
  p_ntokens : Z;
  p_length : Z;
  p_input : Z;
  p_output : Z;
  p_next_input : Z;
  p_pids : list Z;
}.

(** Lines 184-197. *)
Definition pipeline_body (pgid job : Z) (p : pipeline) (w : world)
  : outcome (pipeline * world) :=
  '(length, found) ←
    next_pipe (Z.to_nat (p_ntokens p)) (p_toks p) (p_base p) 0
      (p_ntokens p) (p_length p);
  '(next_input, output, w) ←
    (if found : bool then mkpipe w
     else Done (p_next_input p, p_output p, w));
  '(pid, toks, pids, w) ←
    do_stage pgid (p_input p) output (p_toks p) (p_base p) length (p_pids p) w;
  '(_, w) ← MaybeClose (p_input p) w;
  '(output, w) ← MaybeClose output w;
  w ← addproc job pid (drop (Z.to_nat (p_base p)) toks) w;
  Done (Pipeline toks (p_base p) (p_ntokens p - (length + 1)) length
          next_input output next_input pids, w).

(** The [while (true)] of line 183; every round takes at least one token,
    so [fuel] above [ntokens] is never used up. *)
Fixpoint pipeline_loop (fuel : nat) (pgid job : Z) (p : pipeline) (w : world)
  : outcome (pipeline * world) :=
  match fuel with
  | O => Starved
  | S fuel' =>
      '(p, w) ← pipeline_body pgid job p w;
      if 0 <? p_ntokens p then
        pipeline_loop fuel' pgid job
          (Pipeline (p_toks p) (p_base p + (p_length p + 1)) (p_ntokens p)
             (p_length p) (p_input p) (p_output p) (p_next_input p) (p_pids p))
          w
      else Done (p, w)
  end.

(** Lines 155-202 of [do_pipeline]: the job's slot, the variables at the
    end of the [while], the world. *)
Definition pipeline_launch (toks : list token) (ntokens : Z) (bg : bool)
  (pids : list Z) (w : world) : outcome (Z * pipeline * world) :=
  '(next_input, output, w) ← mkpipe w;
  length ← first_pipe (Z.to_nat ntokens) toks 0 0;
  '(pid, toks, pids, w) ← do_stage 0 (-1) output toks 0 length pids w;
  '(output, w) ← MaybeClose output w;
  let pgid := pid in
  let '(job, w) := addjob pgid bg w in
  w ← addproc job pid toks w;
  '(p, w) ← pipeline_loop (S (Z.to_nat ntokens)) pgid job
              (Pipeline toks (length + 1) (ntokens - (length + 1)) length
                 next_input output next_input pids) w;
  Done (job, p, w).

Definition do_pipeline (toks : list token) (ntokens : Z) (bg : bool)
  (pids : list Z) (evs : list wakeup) (w : world)
  : outcome (Z * world * list wakeup) :=
  '(job, _, w) ← pipeline_launch toks ntokens bg pids w;
  if negb bg then monitorjob evs w
  else
    cmd ← jobcmd job w;
    Done (0, emit (EMsg (Running_bg job cmd)) w, evs).

End Jobs.

(** ** Notions used to state the properties *)

Section Notions.
Context `{H : shell_h}.

(** The job has an entry for [pid]. *)
Definition owns (b : job.t) (pid : Z) : Prop :=
  Exists (fun p => proc.pid p = pid) (job.proc b).

Definition valid_state (s : Z) : Prop :=
  s = FINISHED \/ s = STOPPED \/ s = RUNNING.

(** Every entry of the job is in state [s]. *)
Definition all_in (s : Z) (b : job.t) : Prop :=
  Forall (fun p => proc.state p = s) (job.proc b).

(** The value of [mask] when the three bits are known. *)
Definition mask_bits (f s r : bool) : Z :=
  (if f then 1 else 0) + (if s then 2 else 0) + (if r then 4 else 0).

Definition in_state (s : Z) (p : proc.t) : bool := proc.state p =? s.

(** A redirection operator. *)
Definition is_redir (t : token) : bool :=
  token_eqb t T_INPUT || token_eqb t T_OUTPUT.

(** The tokens of [seg] that come before its first redirection operator. *)
Fixpoint before_redir (seg : list token) : list token :=
  match seg with
  | [] => []
  | t :: seg' => if is_redir t then [] else t :: before_redir seg'
  end.

(** The file that standard output is redirected to by the tokens at
    [pos], [pos + 1], ..., [pos + k - 1] of [toks], when it was [cur]
    before them: the target of the last output operator. *)
Fixpoint out_target (toks : list token) (pos k : nat) (cur : option string)
  : option string :=
  match k with
  | O => cur
  | S k' =>
      out_target toks (S pos) k'
        (match toks !! pos, toks !! S pos with
         | Some T_OUTPUT, Some (Word p) => Some p
         | _, _ => cur
         end)
  end.

(** The two descriptors handed to [do_redir] are unset or open, and are
    not one and the same. *)
Definition fds_ok (input output : Z) (w : world) : Prop :=
  (input < 0 \/ fd_is_open input (fdt w) = true)
  /\ (output < 0 \/ fd_is_open output (fdt w) = true)
  /\ (input < 0 \/ input <> output).

(** Standard output is the file [cur], opened as [do_redir] opens it. *)
Definition out_is (output : Z) (w : world) (cur : option string) : Prop :=
  match cur with
  | Some p =>
      fd_lookup output (fdt w) = Some (FD_file p (Z.lor O_WRONLY O_CREAT) 0)
  | None => True
  end.

(** The stages of a pipeline with a [T_PIPE] between neighbours. *)
Fixpoint join_stages (stages : list (list token)) : list token :=
  match stages with
  | [] => []
  | [s] => s
  | s :: more => s ++ T_PIPE :: join_stages more
  end.

(** A stage has a token and no [T_PIPE]. *)
Definition stage_ok (s : list token) : Prop := s <> [] /\ T_PIPE ∉ s.

(** The entry that [addproc] makes for [pid]. *)
Definition fresh_proc (pid : Z) : proc.t := proc.mk pid RUNNING (-1).

(** The processes of a job, in the order of their entries. *)
Definition pids_of (b : job.t) : list Z := map proc.pid (job.proc b).

(** What the registry operations leave alone. *)
Definition same_shell (w w' : world) : Prop :=
  pgrp w' = pgrp w /\ shell_tmodes w' = shell_tmodes w.

End Notions.

(** ** A header, for running the definitions

    States numbered so that a cleared slot reads FINISHED, the terminal
    modes as one number, [T_NULL] the null pointer. *)
Definition header : shell_h := ShellH Z 0 0 1 2 NULL.

(** ** Histories of the registry

    What the main flow and the handler do to the registry, in order, and
    the slots that [addjob] has handed out, the latest first. *)
Inductive op : Type :=
| Op_addjob (pgid : Z) (bg : bool)
| Op_addproc (j pid : Z) (argv : list token)
| Op_sigchld (reaped : list (Z * Z))
| Op_jobstate (j : Z).

Section Histories.
Context `{H : shell_h}.

Fixpoint run (ops : list op) (w : world) (log : list Z)
  : outcome (world * list Z) :=
  match ops with
  | [] => Done (w, log)
  | Op_addjob pgid bg :: ops' =>
      let '(j, w) := addjob pgid bg w in run ops' w (j :: log)
  | Op_addproc j pid argv :: ops' =>
      w ← addproc j pid argv w; run ops' w log
  | Op_sigchld reaped :: ops' => run ops' (sigchld_handler reaped w) log
  | Op_jobstate j :: ops' =>
      '(_, _, w) ← jobstate j 0 w; run ops' w log
  end.

(** The slot handed out latest among those whose job is not FINISHED. *)
Definition latest_live (log : list Z) (w : world) : option Z :=
  List.find (fun j =>
    match job_at j w with
    | Done b => negb (job.state b =? FINISHED)
    | _ => false
    end) log.

(** [e1] is in the trace before [e2]. *)
Definition sent_before (e1 e2 : event) (t : list event) : Prop :=
  exists t1 t2 t3, t = t1 ++ e1 :: t2 ++ e2 :: t3.

End Histories.

(** The process before [initjobs]: a terminal in modes 0 that another
    group owns, the shell in process group 1, [njobmax] 1. *)
Definition power_on : world (H := header) :=
  World header [job.zero] 0 0 0 1 [] [] [].

(** The world that [initjobs] makes of it: the shell owns the terminal
    and has saved its modes. *)
Definition boot : world (H := header) :=
  World header [job.zero] 0 1 0 1 [] [] [].

(** Two background jobs, the first of which ends and is reported, then a
    third. *)
Definition three_jobs : list op :=
  [Op_addjob 10 true; Op_addproc 1 10 [Word "a"; NULL];
   Op_addjob 20 true; Op_addproc 2 20 [Word "b"; NULL];
   Op_sigchld [(10, 0)]; Op_jobstate 1;
   Op_addjob 30 true; Op_addproc 1 30 [Word "c"; NULL]].

(** A background job in slot 1, stopped by SIGTSTP after it had put the
    terminal in its own modes (9). *)
Definition vi_job : job.t (H := header) :=
  job.mk header 100 [proc.mk 100 2 5247] 9 2 (Some "vi"%string).

Definition stopped_bg : world (H := header) :=
  World header [job.zero; vi_job] 0 1 0 1 [] [] [].

(** The same registry when another group owns the terminal. *)
Definition no_tty : world (H := header) := set_tty_pgrp 77 stopped_bg.

(** The world in which [resumejob 1] on [stopped_bg] enters [monitorjob],
    once the job has reported that it continues. *)
Definition resumed_fg : world (H := header) :=
  World header
    [job.mk header 100 [proc.mk 100 1 65535] 9 1 (Some "vi"%string);
     job.zero]
    0 100 9 1 [] [] [EKill (-100) SIGCONT; EMsg (Continue 1 (Some "vi"%string))].

(** The child 100 continues; it exits with code 7; it stops on SIGTSTP
    having set the terminal modes to 9. *)
Definition continues : wakeup (H := header) :=
  @Wakeup header [(100, 65535)] None.
Definition exits_7 : wakeup (H := header) := @Wakeup header [(100, 1792)] None.
Definition stops : wakeup (H := header) := @Wakeup header [(100, 5247)] (Some 9).

(** A foreground job that runs. *)
Definition cat_job : job.t (H := header) :=
  job.mk header 100 [proc.mk 100 1 (-1)] 0 1 (Some "cat"%string).

Definition fg_running : world (H := header) :=
  World header [cat_job] 0 1 0 1 [] [] [].

(** A job of two processes that run. *)
Definition pair_job : job.t (H := header) :=
  job.mk header 100 [proc.mk 100 1 (-1); proc.mk 101 1 (-1)] 0 1
    (Some "a | b"%string).

(** A job whose two processes have exited, the last with code 7. *)
Definition done_job : job.t (H := header) :=
  job.mk header 100 [proc.mk 100 0 0; proc.mk 101 0 1792] 0 0
    (Some "a | b"%string).

Definition done_bg : world (H := header) :=
  World header [job.zero; done_job] 0 1 0 1 [] [] [].

(** The tokens of [a | b | c], and of [echo hi > out there]. *)
Definition abc : list (list token) :=
  [[Word "a"]; [Word "b"]; [Word "c"]].

Definition echo_out : list token :=
  [Word "echo"; Word "hi"; T_OUTPUT; Word "out"; Word "there"; NULL].

Definition abc_toks : list token := join_stages abc ++ [NULL].

(** The three children of [a | b | c] exit one after the other, the last
    with code 7. *)
Definition abc_exit : list (wakeup (H := header)) :=
  [@Wakeup header [(10, 0)] None; @Wakeup header [(11, 0)] None;
   @Wakeup header [(12, 1792)] None].

(** A world in which the file [out] holds five bytes. *)
Definition with_out : world (H := header) :=
  World header [job.zero] 0 1 0 1 [] [("out"%string, [1; 2; 3; 4; 5])] [].

(** ** The rest of [jobs.c] and [shell.c]

    [watchjobs], [shutdownjobs], [do_job], [is_pipeline] and [eval].  The
    scope [ALL] of [watchjobs] is a constant of [shell.h]; the commands
    that the shell runs itself are in a file that is not among the
    sources, so [builtin_command] is a parameter: it returns what the C
    function returns and the world it leaves. *)

(** What [watchjobs] prints with [printf], a line for a job. *)
Inductive report : Type :=
| Exited (j : Z) (cmd : string) (code : Z)
| Killed (j : Z) (cmd : string) (sig : Z)
| Suspended_job (j : Z) (cmd : string)
| Running_job (j : Z) (cmd : string).

Section Rest.
Context `{H : shell_h}.
Variable ALL : Z.
Variable builtin_command : list token -> world -> outcome (Z * world).

(** The two [printf] of lines 258-260 and 267-269. *)
Definition report_finished (j : Z) (cmd : string) (status : Z) : report :=
  if WIFEXITED status then Exited j cmd (WEXITSTATUS status)
  else Killed j cmd (WTERMSIG status).

(** The [switch] of lines 255-273: what is printed after [out]. *)
Definition watch_print (which j : Z) (cmd : string) (jobstat status : Z)
  (out : list report) : list report :=
  if which =? ALL then
    if jobstat =? FINISHED then out ++ [report_finished j cmd status]
    else if jobstat =? STOPPED then out ++ [Suspended_job j cmd]
    else out ++ [Running_job j cmd]
  else if which =? FINISHED then
    if jobstat =? FINISHED then out ++ [report_finished j cmd status]
    else out
  else out.

(** The body of the [for] of [watchjobs] for slot [j]; [strdup] needs a
    string, and [status] is read only when [jobstate] has set it. *)
Definition watch_body (which j : Z) (out : list report) (w : world)
  : outcome (list report * world) :=
  b ← job_at j w;
  if job.pgid b =? 0 then Done (out, w)
  else
    c ← jobcmd j w;
    cmd ← of_option c;
    '(jobstat, status, w) ← jobstate j 0 w;
    Done (watch_print which j cmd jobstat status out, w).

(** [k] more rounds of that [for], the next for slot [j]. *)
Fixpoint watch_for (k : nat) (which j : Z) (out : list report) (w : world)
  : outcome (list report * world) :=
  match k with
  | O => Done (out, w)
  | S k' =>
      '(out, w) ← watch_body which j out w;
      watch_for k' which (j + 1) out w
  end.

(** [watchjobs (which)]: the lines printed and the world.  [njobmax] is
    the same in every round, [jobstate] adding and removing no slot. *)
Definition watchjobs (which : Z) (w : world) : outcome (list report * world) :=
  watch_for (Z.to_nat (njobmax w - BG)) which BG [] w.

(** The [while] of line 327. *)
Fixpoint wait_finished (evs : list wakeup) (i : Z) (w : world)
  : outcome (world * list wakeup) :=
  match job_at i w with
  | Done b =>
      if job.state b =? FINISHED then Done (w, evs)
      else
        match evs with
        | [] => Starved
        | e :: evs' => wait_finished evs' i (sigsuspend e w)
        end
  | Fault => Fault
  | Starved => Starved
  end.

(** [k] more rounds of the [for] of line 325, the next for slot [i]. *)
Fixpoint shutdown_for (k : nat) (i : Z) (evs : list wakeup) (w : world)
  : outcome (world * list wakeup) :=
  match k with
  | O => Done (w, evs)
  | S k' =>
      '(killed, w) ← killjob i w;
      '(w, evs) ← (if killed : bool then wait_finished evs i w
                   else Done (w, evs));
      shutdown_for k' (i + 1) evs w
  end.

(** [shutdownjobs] up to [Close (tty_fd)]: the descriptor of the terminal
    is not in the descriptor table of the model. *)
Definition shutdownjobs (evs : list wakeup) (w : world)
  : outcome (list report * world * list wakeup) :=
  '(w, evs) ← shutdown_for (Z.to_nat (njobmax w - 1)) 1 evs w;
  '(out, w) ← watchjobs FINISHED w;
  Done (out, w, evs).

(** [do_job] in the shell: [pids] holds what the calls of [fork] return
    there, the first of them to this call.  The child is another process;
    it calls [setpgrp], so the group it joins is its own. *)
Definition do_job (toks : list token) (ntokens : Z) (bg : bool)
  (pids : list Z) (evs : list wakeup) (w : world)
  : outcome (Z * world * list wakeup) :=
  '(_, toks, input, output, w) ← do_redir toks 0 ntokens (-1) (-1) w;
  '(exitcode, w) ← (if negb bg then builtin_command toks w else Done (0, w));
  if negb bg && (0 <=? exitcode) then Done (exitcode, w, evs)
  else
    match pids with
    | [] => Fault
    | pid :: _ =>
        let w := emit (EFork pid pid input output (argv_of toks)) w in
        let w := emit (ESetpgid pid pid) w in
        '(_, w) ← MaybeClose input w;
        '(_, w) ← MaybeClose output w;
        let '(job, w) := addjob pid bg w in
        w ← addproc job pid toks w;
        if negb bg then monitorjob evs w
        else
          cmd ← jobcmd job w;
          Done (0, emit (EMsg (Running_bg job cmd)) w, evs)
    end.

(** The [for] of [is_pipeline], [k] more rounds, the next at index [i]. *)
Fixpoint is_pipeline_for (k : nat) (toks : list token) (i : Z)
  : outcome bool :=
  match k with
  | O => Done false
  | S k' =>
      t ← tok_read toks i;
      if token_eqb t T_PIPE then Done true
      else is_pipeline_for k' toks (i + 1)
  end.

Definition is_pipeline (toks : list token) (ntokens : Z) : outcome bool :=
  is_pipeline_for (Z.to_nat ntokens) toks 0.

(** [eval] on what [tokenize] returned; [tokenize] is not among the
    sources. *)
Definition eval (toks : list token) (ntokens : Z) (pids : list Z)
  (evs : list wakeup) (w : world) : outcome (world * list wakeup) :=
  '(toks, ntokens, bg) ←
    (if 0 <? ntokens then
       t ← tok_read toks (ntokens - 1);
       if token_eqb t T_BGJOB then
         toks ← tok_write toks (ntokens - 1) NULL;
         Done (toks, ntokens - 1, true)
       else Done (toks, ntokens, false)
     else Done (toks, ntokens, false));
  if 0 <? ntokens then
    pipe ← is_pipeline toks ntokens;
    '(_, w, evs) ← (if pipe : bool then do_pipeline toks ntokens bg pids evs w
                    else do_job toks ntokens bg pids evs w);
    Done (w, evs)
  else Done (w, evs).

End Rest.

(** ** Notions used to state more properties *)

Section MoreNotions.
Context `{H : shell_h}.

(** Every entry of every job is in one of the three states. *)
Definition entries_valid (js : list job.t) : Prop :=
  Forall (fun b => Forall (fun p => valid_state (proc.state p)) (job.proc b))
    js.

(** [b'] is [b] but for the states and exit codes of its entries and for
    its own state. *)
Definition same_but_states (b b' : job.t) : Prop :=
  job.pgid b' = job.pgid b /\ job.tmodes b' = job.tmodes b
  /\ job.command b' = job.command b /\ pids_of b' = pids_of b.

(** A free slot reads as a finished job without entries. *)
Definition free_ok (b : job.t) : Prop :=
  job.pgid b = 0 -> job.state b = FINISHED /\ job.proc b = [].

(** A job that is there and has finished. *)
Definition finished_job (b : job.t) : bool :=
  negb (job.pgid b =? 0) && (job.state b =? FINISHED).

(** What [deljob] leaves of a finished job; other slots as they are. *)
Definition sweep (b : job.t) : job.t :=
  if finished_job b
  then job.mk _ 0 [] (job.tmodes b) (job.state b) None
  else b.

(** The lines for the finished jobs among [js], the first of which is in
    slot [j]. *)
Fixpoint finished_reports (j : Z) (js : list job.t) : list report :=
  match js with
  | [] => []
  | b :: js' =>
      (if finished_job b then
         match job.command b, last (job.proc b) with
         | Some cmd, Some p => [report_finished j cmd (proc.exitcode p)]
         | _, _ => []
         end
       else [])
      ++ finished_reports (j + 1) js'
  end.

(** A slot that [watchjobs] can report: a job that is there has a command
    text, and entries when it has finished. *)
Definition watchable (b : job.t) : Prop :=
  job.pgid b <> 0 ->
  job.command b <> None /\ (job.state b = FINISHED -> job.proc b <> []).

(** A slot that holds a job. *)
Definition occupied (b : job.t) : bool := negb (job.pgid b =? 0).

(** A wait status of a child that has exited or was killed. *)
Definition ended (status : Z) : Prop :=
  WIFSTOPPED status = false
  /\ (WIFEXITED status = true \/ WIFSIGNALED status = true).

(** A wake-up in which every child reported has exited or was killed. *)
Definition ends_only (e : wakeup) : Prop :=
  Forall (fun r => ended (snd r)) (reaped e).

(** The descriptor table [t] is [t0] and, open on top of it, [input] and
    [output] where they are set: the two are open in [t], closed in [t0]
    and not one and the same; every other descriptor is as in [t0]. *)
Definition table_plus (t0 t : list (Z * fdesc)) (input output : Z) : Prop :=
  (forall y, (input < 0 \/ y <> input) -> (output < 0 \/ y <> output) ->
     fd_lookup y t = fd_lookup y t0)
  /\ (input < 0 \/ (fd_is_open input t = true /\ fd_lookup input t0 = None))
  /\ (output < 0
      \/ (fd_is_open output t = true /\ fd_lookup output t0 = None))
  /\ (input < 0 \/ output < 0 \/ input <> output).

(** Words with a blank between neighbours. *)
Fixpoint join_words (ws : list string) : string :=
  match ws with
  | [] => EmptyString
  | [x] => x
  | x :: ws' => (x ++ " " ++ join_words ws')%string
  end.

(** Stages of words with [" | "] between neighbours. *)
Fixpoint render (stages : list (list string)) : string :=
  match stages with
  | [] => EmptyString
  | [s] => join_words s
  | s :: more => (join_words s ++ " | " ++ render more)%string
  end.

End MoreNotions.

(** ** More data for running the definitions *)

(** The scope [ALL] as a number that is no state. *)
Definition scope_all : Z := -1.

(** No command is run by the shell itself; every command is. *)
Definition no_builtin (toks : list token) (w : world (H := header))
  : outcome (Z * world (H := header)) := Done (-1, w).
Definition all_builtin (toks : list token) (w : world (H := header))
  : outcome (Z * world (H := header)) := Done (0, w).

(** A background job that runs, and the wake-up in which SIGTERM has
    killed its process. *)
Definition running_bg : world (H := header) :=
  World header [job.zero; cat_job] 0 1 0 1 [] [] [].
Definition terminated : wakeup (H := header) := @Wakeup header [(100, 15)] None.

(** The words of [a | b | c]. *)
Definition abc_words : list (list string) :=
  [["a"%string]; ["b"%string]; ["c"%string]].

(** * Properties *)

Section Reaper.
Context `{H : shell_h}.
Hypothesis distinct : states_distinct.

Lemma scan_procs_done pid status ps :
  scan_procs pid status true ps = (true, ps).
Proof. destruct ps; reflexivity. Qed.

Lemma scan_procs_miss pid status ps :
  ~ Exists (fun p => proc.pid p = pid) ps ->
  scan_procs pid status false ps = (false, ps).
Proof.
  induction ps as [|p ps IH]; intros Hno; simpl; [reflexivity|].
  destruct (Z.eqb_spec (proc.pid p) pid) as [e|ne].
  - exfalso. apply Hno. now constructor.
  - rewrite IH; [reflexivity|]. intros Hex. apply Hno. now constructor 2.
Qed.

Lemma reap_valid status p :
  valid_state (proc.state p) -> valid_state (proc.state (reap status p)).
Proof.
  intros Hv. unfold reap, valid_state.
  destruct (WIFSTOPPED status); simpl; [tauto|].
  destruct (WIFEXITED status); simpl; [tauto|].
  destruct (WIFSIGNALED status); simpl; [tauto|].
  destruct (WIFCONTINUED status); simpl; [tauto|exact Hv].
Qed.

Lemma scan_procs_hit pid status ps :
  Exists (fun p => proc.pid p = pid) ps ->
  exists ps', scan_procs pid status false ps = (true, ps')
    /\ ps' <> []
    /\ (Forall (fun p => valid_state (proc.state p)) ps ->
        Forall (fun p => valid_state (proc.state p)) ps').
Proof.
  induction ps as [|p ps IH]; intros Hex; [inversion Hex|].
  simpl. destruct (Z.eqb_spec (proc.pid p) pid) as [e|ne].
  - rewrite scan_procs_done. eexists; split; [reflexivity|].
    split; [discriminate|]. intros Hv. inversion Hv; subst.
    constructor; [now apply reap_valid|assumption].
  - inversion Hex as [? ? Hp|? ? Hps]; subst; [contradiction|].
    destruct (IH Hps) as (ps' & -> & _ & Hv').
    eexists; split; [reflexivity|]. split; [discriminate|].
    intros Hv. inversion Hv; subst. constructor; auto.
Qed.

Lemma scan_jobs_done pid status i n js :
  scan_jobs pid status i true n js = (n, js).
Proof. destruct js; reflexivity. Qed.

Lemma set_proc_same (b : job.t) : set_proc (job.proc b) b = b.
Proof. now destruct b. Qed.

(** The scan stops at the first slot that has an entry for [pid]. *)
Lemma scan_jobs_hit pid status (js : list job.t) : forall i0 n0 (k : nat) b,
  js !! k = Some b ->
  owns b pid ->
  (forall (k' : nat) b', (k' < k)%nat -> js !! k' = Some b' -> ~ owns b' pid) ->
  exists ps', scan_procs pid status false (job.proc b) = (true, ps')
    /\ scan_jobs pid status i0 false n0 js
       = (i0 + Z.of_nat k, <[k := set_proc ps' b]> js).
Proof.
  induction js as [|a js IH]; intros i0 n0 k b Hk Hown Hfirst; [done|].
  destruct k as [|k].
  - simpl in Hk. injection Hk as ->.
    destruct (scan_procs_hit pid status _ Hown) as (ps' & Hs & _).
    exists ps'. split; [exact Hs|]. simpl. rewrite Hs, scan_jobs_done.
    f_equal. lia.
  - simpl in Hk.
    assert (Ha : ~ owns a pid) by (apply (Hfirst O); [lia|reflexivity]).
    destruct (IH (i0 + 1) n0 k b Hk Hown) as (ps' & Hs & Hj).
    { intros k' b' Hlt Hl. apply (Hfirst (S k')); [lia|exact Hl]. }
    exists ps'. split; [exact Hs|]. simpl.
    rewrite (scan_procs_miss _ _ _ Ha), Hj, set_proc_same.
    f_equal. lia.
Qed.

Lemma mask_fold ps : forall f s r,
  fold_left (fun mask p =>
    if proc.state p =? FINISHED then Z.lor mask 1
    else if proc.state p =? STOPPED then Z.lor mask 2
    else if proc.state p =? RUNNING then Z.lor mask 4
    else mask) ps (mask_bits f s r)
  = mask_bits (f || existsb (in_state FINISHED) ps)
      (s || existsb (in_state STOPPED) ps)
      (r || existsb (in_state RUNNING) ps).
Proof.
  destruct distinct as (Hfs & Hfr & Hsr).
  induction ps as [|p ps IH]; intros f s r; simpl.
  - now rewrite !orb_false_r.
  - unfold in_state at 1 3 5.
    destruct (Z.eqb_spec (proc.state p) FINISHED) as [e|nf].
    + rewrite e.
      destruct (Z.eqb_spec FINISHED STOPPED); [contradiction|].
      destruct (Z.eqb_spec FINISHED RUNNING); [contradiction|].
      replace (Z.lor (mask_bits f s r) 1) with (mask_bits true s r)
        by (destruct f, s, r; reflexivity).
      rewrite IH. simpl. now rewrite orb_true_r.
    + destruct (Z.eqb_spec (proc.state p) STOPPED) as [e|ns].
      * rewrite e.
        destruct (Z.eqb_spec STOPPED RUNNING); [contradiction|].
        replace (Z.lor (mask_bits f s r) 2) with (mask_bits f true r)
          by (destruct f, s, r; reflexivity).
        rewrite IH. simpl. now rewrite orb_true_r.
      * destruct (Z.eqb_spec (proc.state p) RUNNING) as [e|nr].
        -- replace (Z.lor (mask_bits f s r) 4) with (mask_bits f s true)
             by (destruct f, s, r; reflexivity).
           rewrite IH. simpl. now rewrite orb_true_r.
        -- rewrite IH. reflexivity.
Qed.

Lemma mask_of_bits ps :
  mask_of ps = mask_bits (existsb (in_state FINISHED) ps)
                 (existsb (in_state STOPPED) ps)
                 (existsb (in_state RUNNING) ps).
Proof. unfold mask_of. exact (mask_fold ps false false false). Qed.

Lemma existsb_all s ps :
  ps <> [] -> Forall (fun p => proc.state p = s) ps ->
  existsb (in_state s) ps = true.
Proof.
  destruct ps as [|p ps]; [done|]. intros _ Hall. inversion Hall; subst.
  simpl. unfold in_state at 1. now rewrite Z.eqb_refl.
Qed.

Lemma existsb_none s t ps :
  s <> t -> Forall (fun p => proc.state p = s) ps ->
  existsb (in_state t) ps = false.
Proof.
  intros Hne. induction 1 as [|p ps Hp _ IH]; [reflexivity|].
  simpl. rewrite IH. unfold in_state.
  destruct (Z.eqb_spec (proc.state p) t); [congruence|reflexivity].
Qed.

(** Valid entries none of which is in two of the states are all in the
    third. *)
Lemma only_state s t u ps :
  Forall (fun p => valid_state (proc.state p)) ps ->
  (forall x, valid_state x -> x = s \/ x = t \/ x = u) ->
  existsb (in_state t) ps = false ->
  existsb (in_state u) ps = false ->
  Forall (fun p => proc.state p = s) ps.
Proof.
  intros Hv Hcases. induction Hv as [|p ps Hp _ IH]; intros Ht Hu;
    [constructor|].
  simpl in Ht, Hu. apply orb_false_iff in Ht as [Ht1 Ht2].
  apply orb_false_iff in Hu as [Hu1 Hu2].
  constructor; [|now apply IH].
  unfold in_state in Ht1, Hu1.
  apply Z.eqb_neq in Ht1. apply Z.eqb_neq in Hu1.
  destruct (Hcases _ Hp) as [?|[?|?]]; congruence.
Qed.

(** The three rules of lines 78-94 and their default. *)
Lemma recompute_rule (b : job.t) :
  job.proc b <> [] ->
  job.proc (recompute b) = job.proc b
  /\ (all_in FINISHED b -> job.state (recompute b) = FINISHED)
  /\ (all_in STOPPED b -> job.state (recompute b) = STOPPED)
  /\ (all_in RUNNING b -> job.state (recompute b) = RUNNING)
  /\ (Forall (fun p => valid_state (proc.state p)) (job.proc b) ->
      ~ all_in FINISHED b -> ~ all_in STOPPED b -> ~ all_in RUNNING b ->
      job.state (recompute b) = job.state b).
Proof.
  intros Hne. pose proof distinct as (Hfs & Hfr & Hsr).
  unfold recompute, all_in. rewrite mask_of_bits.
  split; [|split; [|split; [|split]]].
  - repeat match goal with |- context [if ?c then _ else _] =>
      destruct c end; reflexivity.
  - intros Hall. rewrite (existsb_all _ _ Hne Hall).
    rewrite (existsb_none FINISHED STOPPED), (existsb_none FINISHED RUNNING)
      by assumption.
    reflexivity.
  - intros Hall. rewrite (existsb_all _ _ Hne Hall).
    rewrite (existsb_none STOPPED FINISHED), (existsb_none STOPPED RUNNING)
      by (assumption || congruence).
    reflexivity.
  - intros Hall. rewrite (existsb_all _ _ Hne Hall).
    rewrite (existsb_none RUNNING FINISHED), (existsb_none RUNNING STOPPED)
      by (assumption || congruence).
    reflexivity.
  - intros Hv HnF HnS HnR.
    destruct (existsb (in_state FINISHED) (job.proc b)) eqn:EF,
             (existsb (in_state STOPPED) (job.proc b)) eqn:ES,
             (existsb (in_state RUNNING) (job.proc b)) eqn:ER;
      try reflexivity; exfalso.
    + apply HnF. apply (only_state FINISHED STOPPED RUNNING); auto.
    + apply HnS. apply (only_state STOPPED FINISHED RUNNING); auto.
      unfold valid_state; tauto.
    + apply HnR. apply (only_state RUNNING FINISHED STOPPED); auto.
      unfold valid_state; tauto.
Qed.

(** C1. When [waitpid] reports a child that has an entry in job [k] (and
    in no slot before it), the handler recomputes the state of that job
    from the entries as they are after the update: all FINISHED gives
    FINISHED, all STOPPED gives STOPPED, all RUNNING gives RUNNING, and
    every other mix of the three states leaves the state as it was. *)
Theorem sigchld_recomputes_job_state pid status (js : list job.t) (k : nat) b :
  js !! k = Some b ->
  owns b pid ->
  (forall (k' : nat) b', (k' < k)%nat -> js !! k' = Some b' -> ~ owns b' pid) ->
  Forall (fun p => valid_state (proc.state p)) (job.proc b) ->
  exists b', sigchld_step pid status js !! k = Some b'
    /\ (all_in FINISHED b' -> job.state b' = FINISHED)
    /\ (all_in STOPPED b' -> job.state b' = STOPPED)
    /\ (all_in RUNNING b' -> job.state b' = RUNNING)
    /\ (~ all_in FINISHED b' -> ~ all_in STOPPED b' -> ~ all_in RUNNING b' ->
        job.state b' = job.state b).
Proof.
  intros Hk Hown Hfirst Hvalid.
  destruct (scan_jobs_hit pid status js 0 0 k b Hk Hown Hfirst)
    as (ps' & Hs & Hj).
  destruct (scan_procs_hit pid status _ Hown) as (ps'' & Hs' & Hne & Hv).
  rewrite Hs in Hs'. injection Hs' as <-.
  unfold sigchld_step. rewrite Hj.
  replace (Z.to_nat (0 + Z.of_nat k)) with k by lia.
  exists (recompute (set_proc ps' b)). split.
  - rewrite list_lookup_alter_eq, list_lookup_insert_eq; [reflexivity|].
    now apply lookup_lt_Some in Hk.
  - destruct (recompute_rule (set_proc ps' b) Hne) as (Hp & HF & HS & HR & HM).
    unfold all_in in *. rewrite Hp.
    split; [exact HF|]. split; [exact HS|]. split; [exact HR|].
    intros nF nS nR. apply HM; auto.
Qed.

End Reaper.

Section Registry.
Context `{H : shell_h}.

Lemma job_at_lookup (j : Z) (w : world) b :
  0 <= j -> jobs w !! Z.to_nat j = Some b -> job_at j w = Done b.
Proof.
  intros Hj Hl. unfold job_at.
  destruct (Z.leb_spec 0 j); [|lia]. now rewrite Hl.
Qed.

Lemma job_at_none (j : Z) (w : world) :
  0 <= j -> jobs w !! Z.to_nat j = None -> job_at j w = Fault.
Proof.
  intros Hj Hl. unfold job_at.
  destruct (Z.leb_spec 0 j); [|lia]. now rewrite Hl.
Qed.

Lemma lookup_in_range (j : Z) (w : world) b :
  0 <= j -> jobs w !! Z.to_nat j = Some b -> (j <? njobmax w) = true.
Proof.
  intros Hj Hl. apply lookup_lt_Some in Hl. unfold njobmax.
  apply Z.ltb_lt. lia.
Qed.

(** C4. [jobstate] returns the state of the job in slot [j]; when that
    state is FINISHED it stores the exit code of the last entry through
    [statusp] and clears the slot ([pgid] 0, no entries, no command), the
    other slots staying as they are; when it is not, neither the world nor
    [*statusp] changes. *)
Theorem jobstate_reads_and_consumes (j status : Z) (w : world) b :
  0 <= j ->
  jobs w !! Z.to_nat j = Some b ->
  (job.state b = FINISHED -> job.proc b <> []) ->
  exists status' w',
    jobstate j status w = Done (job.state b, status', w')
    /\ (job.state b = FINISHED ->
        (exists p, last (job.proc b) = Some p /\ status' = proc.exitcode p)
        /\ (exists b', jobs w' !! Z.to_nat j = Some b'
              /\ job.pgid b' = 0 /\ job.proc b' = [] /\ job.command b' = None)
        /\ (forall i : nat, i <> Z.to_nat j -> jobs w' !! i = jobs w !! i)
        /\ length (jobs w') = length (jobs w))
    /\ (job.state b <> FINISHED -> w' = w /\ status' = status).
Proof.
  intros Hj Hl Hne. unfold jobstate.
  rewrite (lookup_in_range j w b Hj Hl), (job_at_lookup j w b Hj Hl). simpl.
  destruct (job.state b =? FINISHED) eqn:E;
    [apply Z.eqb_eq in E as e|apply Z.eqb_neq in E as ne].
  - destruct (last (job.proc b)) as [p|] eqn:Hlast.
    + unfold exitcode, deljob. rewrite Hlast, E. simpl.
      eexists _, _. split; [reflexivity|]. split; [|congruence].
      intros _. split; [now exists p|]. split; [|split].
      * exists (job.mk _ 0 [] (job.tmodes b) (job.state b) None).
        split; [|now repeat split].
        simpl. apply list_lookup_insert_eq. now apply lookup_lt_Some in Hl.
      * intros i Hi. simpl. now apply list_lookup_insert_ne.
      * simpl. apply length_insert.
    + apply last_None in Hlast. now destruct (Hne e).
  - eexists _, _. split; [reflexivity|]. split; [contradiction|]. auto.
Qed.

End Registry.

Section Commands.
Context `{H : shell_h}.

(** C5, as the code has it. [killjob] on a job that is not FINISHED sends
    SIGTERM to the process group of the job and then, when the job is
    STOPPED, SIGCONT to the same group, and returns true; nothing else in
    the world changes.  On a FINISHED job, and on an index at or above
    [njobmax], it returns false and sends nothing. *)
Theorem killjob_term_then_cont (j : Z) (w : world) b :
  0 <= j ->
  jobs w !! Z.to_nat j = Some b ->
  (job.state b <> FINISHED ->
     exists w', killjob j w = Done (true, w')
       /\ trace w' = trace w ++ EKill (- job.pgid b) SIGTERM ::
                       (if job.state b =? STOPPED
                        then [EKill (- job.pgid b) SIGCONT] else [])
       /\ jobs w' = jobs w /\ tty_pgrp w' = tty_pgrp w
       /\ tty_tmodes w' = tty_tmodes w)
  /\ (job.state b = FINISHED -> killjob j w = Done (false, w))
  /\ (forall j', njobmax w <= j' -> killjob j' w = Done (false, w)).
Proof.
  intros Hj Hl. split; [|split].
  - intros Hne. unfold killjob.
    pose proof (lookup_in_range j w b Hj Hl) as Hr.
    apply Z.ltb_lt in Hr. destruct (Z.leb_spec (njobmax w) j); [lia|].
    rewrite (job_at_lookup j w b Hj Hl). simpl.
    destruct (Z.eqb_spec (job.state b) FINISHED); [contradiction|].
    eexists. split; [reflexivity|].
    destruct (job.state b =? STOPPED); simpl; repeat split.
    now rewrite <- app_assoc.
  - intros Hf. unfold killjob.
    pose proof (lookup_in_range j w b Hj Hl) as Hr.
    apply Z.ltb_lt in Hr. destruct (Z.leb_spec (njobmax w) j); [lia|].
    rewrite (job_at_lookup j w b Hj Hl). simpl.
    now rewrite Hf, Z.eqb_refl.
  - intros j' Hge. unfold killjob.
    destruct (Z.leb_spec (njobmax w) j'); [reflexivity|lia].
Qed.

Lemma resume_scan_spec (js : list job.t) : forall n : nat,
  (n < length js)%nat ->
  let t := resume_scan js n in
  (t <= n)%nat
  /\ (forall (i : nat) b, (t < i <= n)%nat -> js !! i = Some b ->
        job.state b = FINISHED)
  /\ ((0 < t)%nat -> exists b, js !! t = Some b /\ job.state b <> FINISHED).
Proof.
  induction n as [|n IH]; intros Hn; simpl.
  - repeat split; intros; lia.
  - destruct (js !! S n) as [b|] eqn:Hb.
    + destruct (Z.eqb_spec (job.state b) FINISHED) as [e|ne].
      * destruct IH as (Hle & Hfin & Hlive); [lia|].
        split; [lia|]. split; [|exact Hlive].
        intros i b' Hi Hl. destruct (decide (i = S n)) as [->|Hne].
        -- congruence.
        -- apply (Hfin i); [lia|exact Hl].
      * split; [lia|]. split; [intros; lia|]. intros _. now exists b.
    + apply lookup_ge_None in Hb. lia.
Qed.

(** C6, as the code has it. With no job named ([j < 0]), [resumejob]
    resumes the slot of highest index above 0 whose job is not FINISHED,
    and slot 0 when there is none. *)
Theorem resume_default_is_highest_slot (j : Z) (w : world) :
  j < 0 ->
  jobs w <> [] ->
  let t := resume_target j w in
  0 <= t < njobmax w
  /\ (forall (i : Z) b, t < i -> jobs w !! Z.to_nat i = Some b ->
        job.state b = FINISHED)
  /\ (0 < t -> exists b, jobs w !! Z.to_nat t = Some b
                  /\ job.state b <> FINISHED)
  /\ (forall bg evs, resumejob j bg evs w = resumejob t bg evs w).
Proof.
  intros Hj Hne t.
  assert (Hlen : (0 < length (jobs w))%nat)
    by (destruct (jobs w); [done|simpl; lia]).
  assert (Ht : t = Z.of_nat (resume_scan (jobs w)
                               (Z.to_nat (njobmax w - 1)))).
  { unfold t, resume_target. destruct (Z.ltb_spec j 0); [reflexivity|lia]. }
  destruct (resume_scan_spec (jobs w) (Z.to_nat (njobmax w - 1)))
    as (Hle & Hfin & Hlive); [unfold njobmax; lia|].
  unfold njobmax in *. split; [lia|]. split; [|split].
  - intros i b Hi Hl. apply (Hfin (Z.to_nat i)); [|exact Hl].
    apply lookup_lt_Some in Hl. lia.
  - intros Hpos. destruct Hlive as (b & Hb & Hs); [lia|].
    exists b. rewrite Ht, Nat2Z.id. auto.
  - intros bg evs. unfold resumejob.
    replace (resume_target t w) with t; [reflexivity|].
    unfold resume_target. destruct (Z.ltb_spec t 0); [lia|reflexivity].
Qed.

(** C7, as the code has it. When the slot to resume holds a job that is
    not FINISHED and the shell is not the foreground group of the terminal,
    or slot 0 is taken, [resumejob] returns false and prints the message
    "No task control!"; the registry and the terminal stay as they are.
    When the slot is at or above [njobmax] or its job is FINISHED it
    returns false and nothing at all changes, no message either, whoever
    owns the terminal and whatever slot 0 holds. *)
Theorem resume_without_control (j : Z) (bg : bool) (evs : list wakeup)
  (w : world) :
  let t := resume_target j w in
  (forall fg b,
     jobs w !! O = Some fg ->
     tty_pgrp w <> pgrp w \/ job.pgid fg <> 0 ->
     0 <= t -> jobs w !! Z.to_nat t = Some b ->
     job.state b <> FINISHED ->
     resumejob j bg evs w = Done (false, emit (EMsg No_task_control) w, evs))
  /\ (forall b, 0 <= t -> jobs w !! Z.to_nat t = Some b ->
       job.state b = FINISHED -> resumejob j bg evs w = Done (false, w, evs))
  /\ (njobmax w <= t -> resumejob j bg evs w = Done (false, w, evs)).
Proof.
  intros t. unfold resumejob. fold t.
  split; [|split].
  - intros fg b Hfg Hno Ht Hl Hs.
    pose proof (lookup_in_range t w b Ht Hl) as Hr. apply Z.ltb_lt in Hr.
    destruct (Z.leb_spec (njobmax w) t); [lia|].
    rewrite (job_at_lookup t w b Ht Hl). simpl.
    destruct (Z.eqb_spec (job.state b) FINISHED); [contradiction|].
    rewrite (job_at_lookup 0 w fg); [|lia|exact Hfg]. simpl.
    destruct Hno as [Hno|Hno].
    + destruct (Z.eqb_spec (tty_pgrp w) (pgrp w)); [contradiction|].
      reflexivity.
    + destruct (Z.eqb_spec (job.pgid fg) 0); [contradiction|].
      now rewrite orb_true_r.
  - intros b Ht Hl Hs.
    pose proof (lookup_in_range t w b Ht Hl) as Hr. apply Z.ltb_lt in Hr.
    destruct (Z.leb_spec (njobmax w) t); [lia|].
    rewrite (job_at_lookup t w b Ht Hl). simpl.
    now rewrite Hs, Z.eqb_refl.
  - intros Hge. destruct (Z.leb_spec (njobmax w) t); [reflexivity|lia].
Qed.

End Commands.

Section Monitor.
Context `{H : shell_h}.

Lemma same_shell_refl w : same_shell w w.
Proof. now split. Qed.

Lemma same_shell_trans w1 w2 w3 :
  same_shell w1 w2 -> same_shell w2 w3 -> same_shell w1 w3.
Proof. unfold same_shell. intros [] []. split; congruence. Qed.

Lemma sigsuspend_same e w : same_shell w (sigsuspend e w).
Proof. unfold sigsuspend. destruct (tty_set e); now split. Qed.

Lemma sigsuspend_trace e w : trace (sigsuspend e w) = trace w.
Proof. unfold sigsuspend. now destruct (tty_set e). Qed.

Lemma jobstate_inv (j status : Z) (w : world) state status' w' :
  jobstate j status w = Done (state, status', w') ->
  same_shell w w' /\ trace w' = trace w
  /\ exists b, 0 <= j /\ jobs w !! Z.to_nat j = Some b /\ job.state b = state
       /\ (state <> FINISHED -> w' = w).
Proof.
  unfold jobstate. destruct (j <? njobmax w); [simpl|discriminate].
  unfold job_at. destruct (Z.leb_spec 0 j); [|discriminate].
  destruct (jobs w !! Z.to_nat j) as [b|] eqn:Hb; [simpl|discriminate].
  destruct (Z.eqb_spec (job.state b) FINISHED) as [e|ne].
  - destruct (exitcode b); [simpl|discriminate..].
    destruct (deljob b); [simpl|discriminate..].
    intros [= <- <- <-]. split; [now split|]. split; [reflexivity|].
    exists b. repeat split; auto. congruence.
  - intros [= <- <- <-]. split; [now split|]. split; [reflexivity|].
    exists b. repeat split; auto.
Qed.

(** The wait ends in a state other than RUNNING, which is the state of
    slot 0 at that moment; nothing was printed or signalled meanwhile. *)
Lemma monitor_wait_inv evs : forall code w state code' w1 evs1,
  monitor_wait evs code w = Done (state, code', w1, evs1) ->
  state <> RUNNING /\ same_shell w w1 /\ trace w1 = trace w
  /\ (state <> FINISHED ->
      exists fg, jobs w1 !! O = Some fg /\ job.state fg = state).
Proof.
  induction evs as [|e evs IH]; intros code w state code' w1 evs1; simpl;
    destruct (jobstate 0 code w) as [[[s c] w0]| |] eqn:Hjs; try discriminate;
    destruct (jobstate_inv _ _ _ _ _ _ Hjs) as (Hsame & Htr & b & _ & Hb & Hs & Hw);
    destruct (Z.eqb_spec s RUNNING) as [e1|ne]; try discriminate.
  - intros [= <- <- <- <-]. repeat split; try apply Hsame; auto.
    intros Hnf. rewrite (Hw Hnf). now exists b.
  - intros Hrec. apply IH in Hrec as (Hne & Hsame' & Htr' & Hfg).
    split; [exact Hne|]. split; [|split; [|exact Hfg]].
    + eapply same_shell_trans; [exact Hsame|].
      eapply same_shell_trans; [apply sigsuspend_same|exact Hsame'].
    + now rewrite Htr', sigsuspend_trace.
  - intros [= <- <- <- <-]. repeat split; try apply Hsame; auto.
    intros Hnf. rewrite (Hw Hnf). now exists b.
Qed.

Lemma find_free_spec (js : list job.t) : forall j t,
  find_free j js = Some t ->
  j <= t /\ exists b, js !! Z.to_nat (t - j) = Some b /\ job.pgid b = 0.
Proof.
  induction js as [|a js IH]; intros j t; simpl; [discriminate|].
  destruct (Z.eqb_spec (job.pgid a) 0) as [e|ne].
  - intros [= <-]. split; [lia|]. exists a. now rewrite Z.sub_diag.
  - intros Hf. apply IH in Hf as (Hle & b & Hb & Hp). split; [lia|].
    exists b. split; [|exact Hp].
    replace (Z.to_nat (t - j)) with (S (Z.to_nat (t - (j + 1)))) by lia.
    exact Hb.
Qed.

(** [allocjob] returns a slot above 0 that is free: one already there, or
    a cleared one that it appends. *)
Lemma allocjob_spec (w : world) to w' :
  jobs w <> [] ->
  allocjob w = (to, w') ->
  BG <= to
  /\ same_shell w w' /\ trace w' = trace w
  /\ tty_tmodes w' = tty_tmodes w
  /\ (exists b, jobs w' !! Z.to_nat to = Some b /\ job.pgid b = 0)
  /\ (forall i : nat, (i < length (jobs w))%nat -> jobs w' !! i = jobs w !! i)
  /\ (w' = w \/ (to = njobmax w /\ jobs w' = jobs w ++ [job.zero])).
Proof.
  intros Hne. unfold allocjob, BG.
  destruct (find_free 1 (drop (Z.to_nat 1) (jobs w))) as [t|] eqn:Hf.
  - intros [= <- <-]. apply find_free_spec in Hf as (Hle & b & Hb & Hp).
    rewrite lookup_drop in Hb.
    replace (Z.to_nat 1 + Z.to_nat (t - 1))%nat with (Z.to_nat t) in Hb by lia.
    split; [lia|]. split; [now split|]. repeat split; eauto.
  - intros [= <- <-]. unfold njobmax. simpl.
    assert (0 < length (jobs w))%nat
      by (destruct (jobs w); [done|simpl; lia]).
    split; [lia|]. split; [now split|]. split; [reflexivity|].
    split; [reflexivity|]. split; [|split].
    + exists job.zero. rewrite Nat2Z.id.
      rewrite lookup_app_r, Nat.sub_diag; [done|lia].
    + intros i Hi. now apply lookup_app_l.
    + right. auto.
Qed.

Lemma suspend_fg_spec (w : world) fg :
  jobs w !! O = Some fg ->
  exists (to : nat) w',
    suspend_fg w = Done w'
    /\ (1 <= to)%nat
    /\ ((exists b, jobs w !! to = Some b /\ job.pgid b = 0)
        \/ to = length (jobs w))
    /\ jobs w' !! to = Some (set_tmodes (tty_tmodes w) fg)
    /\ jobs w' !! O = Some job.zero
    /\ (forall i : nat, i <> O -> i <> to -> jobs w' !! i = jobs w !! i)
    /\ trace w' = trace w ++ [EMsg (Suspended (Z.of_nat to) (job.command fg))]
    /\ same_shell w w'
    /\ tty_tmodes w' = tty_tmodes w /\ tty_pgrp w' = tty_pgrp w.
Proof.
  intros Hfg. unfold suspend_fg.
  rewrite (job_at_lookup 0 w fg); [simpl|lia|exact Hfg].
  set (fg' := set_tmodes (tty_tmodes w) fg).
  set (wa := put_job 0 fg' w).
  assert (Hlen0 : (0 < length (jobs w))%nat) by now apply lookup_lt_Some in Hfg.
  assert (Hwa0 : jobs wa !! O = Some fg')
    by (simpl; now apply list_lookup_insert_eq).
  assert (Hwane : jobs wa <> []) by (intros E; now rewrite E in Hwa0).
  destruct (allocjob wa) as [to wb] eqn:Ha.
  destruct (allocjob_spec wa to wb Hwane Ha)
    as (Hbg & Hsame & Htr & Htm & (b & Hb & Hp) & Hold & Hnew).
  unfold BG in Hbg.
  assert (Hlena : length (jobs wa) = length (jobs w))
    by (simpl; apply length_insert).
  assert (Hwb0 : jobs wb !! O = Some fg')
    by (rewrite Hold; [exact Hwa0|lia]).
  assert (Hto : (Z.to_nat to < length (jobs wb))%nat)
    by now apply lookup_lt_Some in Hb.
  unfold movejob.
  rewrite (job_at_lookup to wb b); [simpl|lia|exact Hb].
  rewrite Hp. simpl.
  rewrite (job_at_lookup 0 wb fg'); [simpl|lia|exact Hwb0].
  set (wc := put_job 0 job.zero (put_job to fg' wb)).
  assert (Hwcto : jobs wc !! Z.to_nat to = Some fg').
  { simpl. rewrite list_lookup_insert_ne by lia.
    now apply list_lookup_insert_eq. }
  unfold jobcmd.
  assert (Hr : (to <? njobmax wc) = true).
  { apply Z.ltb_lt. unfold njobmax. simpl. rewrite !length_insert. lia. }
  rewrite Hr. simpl. rewrite (job_at_lookup to wc fg'); [simpl|lia|exact Hwcto].
  exists (Z.to_nat to). eexists. split; [reflexivity|].
  split; [lia|]. split; [|split; [|split; [|split; [|split; [|split]]]]].
  - destruct Hnew as [->|[-> Happ]].
    + left. exists b. split; [|exact Hp].
      simpl in Hb. rewrite list_lookup_insert_ne in Hb by lia. exact Hb.
    + right. unfold njobmax. rewrite Nat2Z.id. exact Hlena.
  - exact Hwcto.
  - simpl. apply list_lookup_insert_eq. rewrite length_insert.
    apply lookup_lt_Some in Hwb0. exact Hwb0.
  - intros i Hi0 Hito. simpl.
    rewrite !list_lookup_insert_ne by (simpl; lia).
    destruct (decide (i < length (jobs wa))%nat) as [Hlt|Hge].
    + rewrite Hold by exact Hlt. simpl. now rewrite list_lookup_insert_ne.
    + destruct Hnew as [->|[Hton Happ]].
      * simpl. now rewrite list_lookup_insert_ne.
      * rewrite Happ. unfold njobmax in Hton.
        rewrite lookup_ge_None_2
          by (rewrite length_app; change (length [job.zero]) with 1%nat; lia).
        symmetry. apply lookup_ge_None_2. lia.
  - simpl. rewrite Htr. simpl. now rewrite Z2Nat.id by lia.
  - destruct Hsame as [Hx Hy]. simpl in Hx, Hy. split; simpl; congruence.
  - simpl in Htm. split; [simpl; now rewrite Htm|].
    simpl. destruct Hnew as [->|[_ Happ]]; [reflexivity|].
    unfold allocjob in Ha.
    destruct (find_free BG (drop (Z.to_nat BG) (jobs wa)));
      injection Ha as <- <-; reflexivity.
Qed.

Lemma suspend_fg_same (w w' : world) :
  suspend_fg w = Done w' -> same_shell w w'.
Proof.
  intros Hs. destruct (jobs w !! O) as [x|] eqn:Hx.
  - destruct (suspend_fg_spec w x Hx)
      as (to & w2 & Hs' & _ & _ & _ & _ & _ & _ & Hsame & _).
    rewrite Hs in Hs'. now injection Hs' as <-.
  - unfold suspend_fg in Hs.
    rewrite (job_at_none 0 w) in Hs; [discriminate|lia|exact Hx].
Qed.

(** C3, as the code has it. When [monitorjob] returns, the foreground
    group of the terminal is the group of the shell and the modes of the
    terminal are [shell_tmodes], the modes that [initjobs] saved. *)
Theorem monitorjob_restores_shell (evs : list wakeup) (w : world)
  code w' evs' :
  monitorjob evs w = Done (code, w', evs') ->
  tty_pgrp w' = pgrp w /\ tty_tmodes w' = shell_tmodes w.
Proof.
  unfold monitorjob.
  destruct (job_at 0 w) as [fg| |]; [simpl|discriminate..].
  destruct (monitor_wait evs 0 (set_tty_pgrp (job.pgid fg) w))
    as [[[[state c] w1] evs1]| |] eqn:Hw; [simpl|discriminate..].
  destruct (monitor_wait_inv _ _ _ _ _ _ _ Hw) as (Hnr & [Hpg Hsm] & _ & Hfg).
  simpl in Hpg, Hsm.
  destruct (Z.eqb_spec state RUNNING); [contradiction|]. simpl.
  destruct (Z.eqb_spec state STOPPED) as [e|ne].
  - destruct (suspend_fg w1) as [w2| |] eqn:Hs; [simpl|discriminate..].
    apply suspend_fg_same in Hs as [Hpg' Hsm'].
    intros [= <- <- <-]. simpl. split; congruence.
  - simpl. intros [= <- <- <-]. simpl. split; congruence.
Qed.

(** C8. When the wait of [monitorjob] ends because the foreground job is
    STOPPED, the modes of the terminal at that moment are stored in the
    job, the whole job goes from slot 0 to slot [to], a background slot
    that was free or is appended, slot 0 is left cleared ([pgid] 0), the
    notice "[to] suspended" is printed, and the terminal is given back to
    the group of the shell with the modes in [shell_tmodes]. *)
Theorem monitorjob_moves_stopped_job (evs : list wakeup) (w : world)
  fg0 code w1 evs1 :
  states_distinct ->
  jobs w !! O = Some fg0 ->
  monitor_wait evs 0 (set_tty_pgrp (job.pgid fg0) w)
    = Done (STOPPED, code, w1, evs1) ->
  exists fg (to : nat) w',
    monitorjob evs w = Done (code, w', evs1)
    /\ jobs w1 !! O = Some fg /\ job.state fg = STOPPED
    /\ (1 <= to)%nat
    /\ ((exists b, jobs w1 !! to = Some b /\ job.pgid b = 0)
        \/ to = length (jobs w1))
    /\ (exists moved,
          jobs w' !! to = Some moved
          /\ job.tmodes moved = tty_tmodes w1
          /\ job.pgid moved = job.pgid fg
          /\ job.proc moved = job.proc fg
          /\ job.state moved = STOPPED
          /\ job.command moved = job.command fg)
    /\ jobs w' !! O = Some job.zero
    /\ (forall i : nat, i <> O -> i <> to -> jobs w' !! i = jobs w1 !! i)
    /\ trace w' = trace w ++ [EMsg (Suspended (Z.of_nat to) (job.command fg))]
    /\ tty_pgrp w' = pgrp w /\ tty_tmodes w' = shell_tmodes w.
Proof.
  intros (Hfs & Hfr & Hsr) Hfg0 Hw.
  destruct (monitor_wait_inv _ _ _ _ _ _ _ Hw)
    as (Hnr & [Hpg Hsm] & Htr & Hfg).
  simpl in Hpg, Hsm, Htr.
  destruct Hfg as (fg & Hfg & Hst); [congruence|].
  destruct (suspend_fg_spec w1 fg Hfg)
    as (to & w' & Hs & Hto & Hfree & Hmoved & Hzero & Hrest & Htr'
        & [Hpg' Hsm'] & Htm & Htp).
  exists fg, to. eexists. split.
  - unfold monitorjob.
    rewrite (job_at_lookup 0 w fg0); [simpl|lia|exact Hfg0].
    rewrite Hw. simpl. rewrite Z.eqb_refl, Hs. simpl.
    destruct (Z.eqb_spec STOPPED RUNNING); [contradiction|]. reflexivity.
  - simpl. split; [exact Hfg|]. split; [exact Hst|].
    split; [exact Hto|]. split; [exact Hfree|]. split.
    { exists (set_tmodes (tty_tmodes w1) fg). split; [exact Hmoved|].
      split; [reflexivity|]. split; [reflexivity|]. split; [reflexivity|].
      split; [exact Hst|reflexivity]. }
    split; [exact Hzero|]. split; [exact Hrest|].
    split; [now rewrite Htr', Htr|]. split; congruence.
Qed.

End Monitor.

Section Redirections.
Context `{H : shell_h}.

Lemma token_eqb_eq a b : token_eqb a b = true <-> a = b.
Proof.
  destruct a, b; simpl; try (split; (discriminate || reflexivity)).
  rewrite String.eqb_eq. split; congruence.
Qed.

Lemma take_S_r_drop {A} (l : list A) (n k : nat) x :
  l !! n = Some x -> take (S k) (drop n l) = x :: take k (drop (S n) l).
Proof. intros Hx. now rewrite (drop_S _ _ _ Hx). Qed.

Lemma tok_read_inv toks i t :
  tok_read toks i = Done t -> 0 <= i /\ toks !! Z.to_nat i = Some t.
Proof.
  unfold tok_read. destruct (Z.leb_spec 0 i); [|discriminate].
  destruct (toks !! Z.to_nat i); [|discriminate]. intros [= <-]. auto.
Qed.

Lemma tok_write_inv toks i v toks' :
  tok_write toks i v = Done toks' ->
  0 <= i < Z.of_nat (length toks) /\ toks' = <[Z.to_nat i := v]> toks.
Proof.
  unfold tok_write. destruct (Z.leb_spec 0 i); [|discriminate].
  destruct (Z.ltb_spec i (Z.of_nat (length toks))); [|discriminate].
  simpl. intros [= <-]. split; [lia|reflexivity].
Qed.

(** The four ways through the body of the [for]. *)
Lemma redir_body_inv base i r (w : world) r1 w1 :
  redir_body base i r w = Done (r1, w1) ->
  0 <= base + i /\ exists t, r_toks r !! Z.to_nat (base + i) = Some t /\
  ((t = T_INPUT /\ exists x wa path fd,
      MaybeClose (r_input r) w = Done (x, wa)
      /\ r_toks r !! Z.to_nat (base + i + 1) = Some path
      /\ Open path O_RDONLY 0 wa = Done (fd, w1)
      /\ r1 = Redir (r_toks r) T_INPUT
                (if is_null (r_mode r) then i else r_n r) fd (r_output r))
   \/ (t = T_OUTPUT /\ exists x wa path fd,
      MaybeClose (r_output r) w = Done (x, wa)
      /\ r_toks r !! Z.to_nat (base + i + 1) = Some path
      /\ Open path (Z.lor O_WRONLY O_CREAT) 436 wa = Done (fd, w1)
      /\ r1 = Redir (r_toks r) T_OUTPUT
                (if is_null (r_mode r) then i else r_n r) (r_input r) fd)
   \/ (is_redir t = false /\ is_null (r_mode r) = true /\ w1 = w
       /\ r1 = Redir (r_toks r) (r_mode r) (r_n r + 1) (r_input r) (r_output r))
   \/ (is_redir t = false /\ is_null (r_mode r) = false /\ w1 = w
       /\ base + i < Z.of_nat (length (r_toks r))
       /\ r1 = Redir (<[Z.to_nat (base + i) := T_NULL]> (r_toks r))
                 (r_mode r) (r_n r) (r_input r) (r_output r))).
Proof.
  unfold redir_body.
  destruct (tok_read (r_toks r) (base + i)) as [t| |] eqn:Ht;
    [simpl|discriminate..].
  apply tok_read_inv in Ht as [Hi Ht]. intros Hb. split; [exact Hi|].
  exists t. split; [exact Ht|].
  destruct (token_eqb t T_INPUT) eqn:Ein.
  { apply token_eqb_eq in Ein. left. split; [exact Ein|].
    destruct (MaybeClose (r_input r) w) as [[x wa]| |] eqn:Hc;
      [simpl in Hb|discriminate..].
    destruct (tok_read (r_toks r) (base + i + 1)) as [path| |] eqn:Hp;
      [simpl in Hb|discriminate..].
    apply tok_read_inv in Hp as [_ Hp].
    destruct (Open path O_RDONLY 0 wa) as [[fd wb]| |] eqn:Ho;
      [simpl in Hb|discriminate..].
    injection Hb as <- <-. subst t. now exists x, wa, path, fd. }
  destruct (token_eqb t T_OUTPUT) eqn:Eout.
  { apply token_eqb_eq in Eout. right. left. split; [exact Eout|].
    destruct (MaybeClose (r_output r) w) as [[x wa]| |] eqn:Hc;
      [simpl in Hb|discriminate..].
    destruct (tok_read (r_toks r) (base + i + 1)) as [path| |] eqn:Hp;
      [simpl in Hb|discriminate..].
    apply tok_read_inv in Hp as [_ Hp].
    change (Z.lor (Z.lor (Z.lor (Z.lor S_IWUSR S_IRUSR) S_IRGRP) S_IWGRP)
              S_IROTH) with 436 in Hb.
    destruct (Open path (Z.lor O_WRONLY O_CREAT) 436 wa) as [[fd wb]| |]
      eqn:Ho; [simpl in Hb|discriminate..].
    injection Hb as <- <-. subst t. now exists x, wa, path, fd. }
  right. right. unfold is_redir. rewrite Ein, Eout. simpl.
  destruct (is_null (r_mode r)) eqn:En.
  - left. injection Hb as <- <-. auto.
  - right.
    destruct (tok_write (r_toks r) (base + i) T_NULL) as [toks'| |] eqn:Hw;
      [simpl in Hb|discriminate..].
    apply tok_write_inv in Hw as [Hr ->]. injection Hb as <- <-.
    repeat split; auto. lia.
Qed.

(** What the [for] does to the array and to [n], from index [i] on. *)
Lemma redir_for_tokens (k : nat) : forall base i r (w : world) r' w',
  0 <= base -> 0 <= i ->
  redir_for k base i r w = Done (r', w') ->
  let pos := Z.to_nat (base + i) in
  length (r_toks r') = length (r_toks r)
  /\ (forall x : nat, (pos + k <= x)%nat -> r_toks r' !! x = r_toks r !! x)
  /\ (forall x : nat, (x < pos)%nat -> r_toks r' !! x = r_toks r !! x)
  /\ (is_null (r_mode r) = false -> r_n r' = r_n r)
  /\ (is_null (r_mode r) = true -> r_n r = i ->
      let pre := before_redir (take k (drop pos (r_toks r))) in
      r_n r' = i + Z.of_nat (length pre)
      /\ take (length pre) (drop pos (r_toks r')) = pre).
Proof.
  induction k as [|k IH]; intros base i r w r' w' Hbase Hi Hrec;
    simpl in Hrec.
  - injection Hrec as <- <-.
    split; [reflexivity|]. split; [auto|]. split; [auto|].
    split; [auto|]. intros _ Hn. simpl. split; [lia|reflexivity].
  - destruct (redir_body base i r w) as [[r1 w1]| |] eqn:Hb;
      [simpl in Hrec|discriminate..].
    apply IH in Hrec as (Hlen & Hsuf & Hpre & Hn2 & Hn1); [|lia..].
    replace (Z.to_nat (base + (i + 1))) with (S (Z.to_nat (base + i)))
      in * by lia.
    set (pos := Z.to_nat (base + i)) in *.
    apply redir_body_inv in Hb as (_ & t & Ht & Hcase).
    fold pos in Ht, Hcase.
    assert (Hother : forall x : nat, x <> pos ->
              r_toks r1 !! x = r_toks r !! x).
    { intros x Hx.
      destruct Hcase as [(_ & ? & ? & ? & ? & _ & _ & _ & ->)
        |[(_ & ? & ? & ? & ? & _ & _ & _ & ->)
        |[(_ & _ & _ & ->)|(_ & _ & _ & _ & ->)]]]; simpl; auto.
      now apply list_lookup_insert_ne. }
    assert (Hlen1 : length (r_toks r1) = length (r_toks r)).
    { destruct Hcase as [(_ & ? & ? & ? & ? & _ & _ & _ & ->)
        |[(_ & ? & ? & ? & ? & _ & _ & _ & ->)
        |[(_ & _ & _ & ->)|(_ & _ & _ & _ & ->)]]]; simpl; auto.
      apply length_insert. }
    split; [congruence|]. split; [|split; [|split]].
    + intros x Hx. rewrite Hsuf by lia. apply Hother. lia.
    + intros x Hx. rewrite Hpre by lia. apply Hother. lia.
    + intros Hm.
      destruct Hcase as [(_ & ? & ? & ? & ? & _ & _ & _ & ->)
        |[(_ & ? & ? & ? & ? & _ & _ & _ & ->)
        |[(_ & Hm' & _ & ->)|(_ & _ & _ & _ & ->)]]]; simpl in *;
        try (rewrite Hm in *); try (now apply Hn2); congruence.
    + intros Hm Hni.
      rewrite (take_S_r_drop _ _ _ _ Ht). cbn [before_redir].
      destruct Hcase as [(-> & ? & ? & ? & ? & _ & _ & _ & ->)
        |[(-> & ? & ? & ? & ? & _ & _ & _ & ->)
        |[(Hnr & _ & _ & ->)|(_ & Hm' & _)]]];
        [| | |congruence]; cbn [r_toks r_mode r_n] in *.
      * change (is_redir T_INPUT) with true. cbn [length].
        split; [|reflexivity]. rewrite Hn2 by reflexivity.
        cbn [r_n]. rewrite Hm. change (Z.of_nat 0) with 0. lia.
      * change (is_redir T_OUTPUT) with true. cbn [length].
        split; [|reflexivity]. rewrite Hn2 by reflexivity.
        cbn [r_n]. rewrite Hm. change (Z.of_nat 0) with 0. lia.
      * rewrite Hnr. destruct Hn1 as [Hn Htk]; [exact Hm|lia|].
        cbn [length]. split; [lia|].
        assert (Ht' : r_toks r' !! pos = Some t)
          by (rewrite Hpre by lia; exact Ht).
        rewrite (drop_S _ _ _ Ht'). cbn [take]. now rewrite Htk.
Qed.

Lemma before_redir_length seg : (length (before_redir seg) <= length seg)%nat.
Proof.
  induction seg as [|t seg IH]; simpl; [lia|].
  destruct (is_redir t); simpl; lia.
Qed.

Lemma argv_of_app pre rest : NULL ∉ pre -> argv_of (pre ++ NULL :: rest) = pre.
Proof.
  induction pre as [|t pre IH]; intros Hn; [reflexivity|].
  simpl.
  destruct t;
    try (rewrite IH; [reflexivity|intros Hx; apply Hn; now constructor]).
  exfalso. apply Hn. constructor.
Qed.

(** What [do_redir] does to the token array. *)
Lemma do_redir_tokens toks base ntokens input output (w : world)
  n toks' input' output' w' :
  0 <= base ->
  do_redir toks base ntokens input output w
    = Done (n, toks', input', output', w') ->
  let b := Z.to_nat base in
  let pre := before_redir (take (Z.to_nat ntokens) (drop b toks)) in
  n = Z.of_nat (length pre)
  /\ length toks' = length toks
  /\ take (length pre) (drop b toks') = pre
  /\ toks' !! (b + length pre)%nat = Some NULL
  /\ (forall x : nat, (x < b)%nat -> toks' !! x = toks !! x)
  /\ (forall x : nat, (b + Z.to_nat ntokens < x)%nat ->
        toks' !! x = toks !! x).
Proof.
  intros Hbase Hd b pre. unfold do_redir in Hd.
  destruct (redir_for (Z.to_nat ntokens) base 0
              (Redir toks NULL 0 input output) w) as [[r w1]| |] eqn:Hf;
    [simpl in Hd|discriminate..].
  destruct (tok_write (r_toks r) (base + r_n r) NULL) as [toks1| |] eqn:Hw;
    [simpl in Hd|discriminate..].
  injection Hd as <- <- <- <- <-.
  apply redir_for_tokens in Hf as (Hlen & Hsuf & Hpre & _ & Hn); [|lia..].
  replace (Z.to_nat (base + 0)) with b in * by (unfold b; lia).
  cbn [r_toks r_mode r_n] in *.
  destruct Hn as [Hn Htk]; [reflexivity..|]. fold pre in Hn, Htk.
  apply tok_write_inv in Hw as [Hr ->].
  pose proof (before_redir_length (take (Z.to_nat ntokens) (drop b toks)))
    as Hle. fold pre in Hle. rewrite length_take in Hle.
  replace (Z.to_nat (base + r_n r)) with (b + length pre)%nat
    by (unfold b; lia).
  split; [lia|]. split; [now rewrite length_insert|].
  split; [|split; [|split]].
  - rewrite drop_insert_ge by lia. rewrite take_insert_ge by lia. exact Htk.
  - apply list_lookup_insert_eq. unfold b. lia.
  - intros x Hx. rewrite list_lookup_insert_ne by lia. now apply Hpre.
  - intros x Hx. rewrite list_lookup_insert_ne by lia. apply Hsuf. lia.
Qed.

(** C9. The command that [do_redir] leaves at [token] is made of the
    tokens that came before the first redirection operator: their number
    is returned and a NULL is stored right after them, so every token
    behind the first operator is dropped from the arguments. *)
Theorem do_redir_keeps_prefix toks base ntokens input output (w : world)
  n toks' input' output' w' :
  0 <= base ->
  do_redir toks base ntokens input output w
    = Done (n, toks', input', output', w') ->
  let seg := take (Z.to_nat ntokens) (drop (Z.to_nat base) toks) in
  n = Z.of_nat (length (before_redir seg))
  /\ take (Z.to_nat n) (drop (Z.to_nat base) toks') = before_redir seg
  /\ toks' !! Z.to_nat (base + n) = Some NULL
  /\ (NULL ∉ before_redir seg ->
      argv_of (drop (Z.to_nat base) toks') = before_redir seg).
Proof.
  intros Hbase Hd seg.
  destruct (do_redir_tokens _ _ _ _ _ _ _ _ _ _ _ Hbase Hd)
    as (Hn & Hlen & Htk & Hnull & _ & _).
  fold seg in Hn, Htk, Hnull. subst n.
  rewrite Nat2Z.id.
  replace (Z.to_nat (base + Z.of_nat (length (before_redir seg))))
    with (Z.to_nat base + length (before_redir seg))%nat by lia.
  split; [reflexivity|]. split; [exact Htk|]. split; [exact Hnull|].
  intros Hnn.
  rewrite <- (take_drop (length (before_redir seg))
                (drop (Z.to_nat base) toks')).
  rewrite Htk, drop_drop.
  rewrite (drop_S _ _ _ Hnull). now apply argv_of_app.
Qed.

End Redirections.

Section Descriptors.
Context `{H : shell_h}.

Lemma fd_lookup_remove_ne fd x t :
  x <> fd -> fd_lookup x (fd_remove fd t) = fd_lookup x t.
Proof.
  intros Hne. induction t as [|[k d] t IH]; simpl; [reflexivity|].
  destruct (Z.eqb_spec k fd) as [->|Hk].
  - destruct (Z.eqb_spec fd x); [congruence|exact IH].
  - simpl. now rewrite IH.
Qed.

Lemma fd_remove_length fd t :
  fd_is_open fd t = true -> (length (fd_remove fd t) < length t)%nat.
Proof.
  unfold fd_is_open. induction t as [|[k d] t IH]; simpl; [discriminate|].
  destruct (Z.eqb_spec k fd) as [->|Hk].
  - intros _. clear IH. induction t as [|[k d'] t IH]; simpl; [lia|].
    destruct (k =? fd); simpl; lia.
  - intros Ho. simpl. apply IH in Ho. lia.
Qed.

(** As many descriptors in a row as are open need as many entries. *)
Lemma open_run_length (k : nat) : forall fd t,
  (forall x, fd <= x < fd + Z.of_nat k -> fd_is_open x t = true) ->
  (k <= length t)%nat.
Proof.
  induction k as [|k IH]; intros fd t Hall; [lia|].
  assert (Ho : fd_is_open (fd + Z.of_nat k) t = true) by (apply Hall; lia).
  apply fd_remove_length in Ho.
  enough (k <= length (fd_remove (fd + Z.of_nat k) t))%nat by lia.
  apply (IH fd). intros x Hx. unfold fd_is_open.
  rewrite fd_lookup_remove_ne by lia. apply Hall. lia.
Qed.

Lemma lowest_free_spec (k : nat) : forall fd t,
  fd <= lowest_free k fd t <= fd + Z.of_nat k
  /\ (forall x, fd <= x < lowest_free k fd t -> fd_is_open x t = true)
  /\ (lowest_free k fd t < fd + Z.of_nat k ->
      fd_is_open (lowest_free k fd t) t = false).
Proof.
  induction k as [|k IH]; intros fd t; simpl.
  - split; [lia|]. split; intros; lia.
  - destruct (fd_is_open fd t) eqn:Ho.
    + destruct (IH (fd + 1) t) as (Hr & Hall & Hfree).
      split; [lia|]. split.
      * intros x Hx. destruct (Z.eq_dec x fd) as [->|]; [exact Ho|].
        apply Hall. lia.
      * intros Hlt. apply Hfree. lia.
    + split; [lia|]. split; [intros; lia|]. intros _. exact Ho.
Qed.

Lemma fresh_fd_free t : fd_is_open (fresh_fd t) t = false.
Proof.
  unfold fresh_fd.
  destruct (lowest_free_spec (length t) 0 t) as (Hr & Hall & Hfree).
  destruct (Z.eq_dec (lowest_free (length t) 0 t) (0 + Z.of_nat (length t)))
    as [e|ne]; [|apply Hfree; lia].
  destruct (fd_is_open (lowest_free (length t) 0 t) t) eqn:Ho; [|reflexivity].
  exfalso.
  assert (S (length t) <= length t)%nat; [|lia].
  apply (open_run_length (S (length t)) 0). intros x Hx.
  destruct (Z.eq_dec x (lowest_free (length t) 0 t)) as [->|];
    [exact Ho|apply Hall; lia].
Qed.

Lemma fresh_fd_nonneg t : 0 <= fresh_fd t.
Proof.
  unfold fresh_fd. destruct (lowest_free_spec (length t) 0 t) as (Hr & _).
  lia.
Qed.

Lemma fresh_fd_ne t x : fd_is_open x t = true -> fresh_fd t <> x.
Proof. intros Ho <-. now rewrite fresh_fd_free in Ho. Qed.

Lemma file_lookup_store q p c fs :
  file_lookup q (file_store p c fs)
  = if String.eqb q p then Some c else file_lookup q fs.
Proof.
  induction fs as [|[r d] fs IH]; simpl.
  - now destruct (String.eqb q p).
  - destruct (String.eqb_spec p r) as [->|Hpr]; simpl.
    + now destruct (String.eqb q r).
    + rewrite IH. destruct (String.eqb_spec q r) as [->|Hqr];
        [|reflexivity].
      destruct (String.eqb_spec r p); [congruence|reflexivity].
Qed.

(** Without [O_TRUNC], [open] leaves every file as it is. *)
Lemma sys_open_keeps p flags fs fs' :
  Z.land flags O_TRUNC = 0 ->
  sys_open p flags fs = Some fs' ->
  forall q c, file_lookup q fs = Some c -> file_lookup q fs' = Some c.
Proof.
  intros Hnt. unfold sys_open. rewrite Hnt. simpl.
  destruct (file_lookup p fs) eqn:Hp.
  - intros [= <-]. auto.
  - destruct (negb (Z.land flags O_CREAT =? 0)); [|discriminate].
    intros [= <-] q c Hq. rewrite file_lookup_store.
    destruct (String.eqb_spec q p); [congruence|exact Hq].
Qed.

Lemma Open_inv path flags mode (wa : world) fd w1 :
  Open path flags mode wa = Done (fd, w1) ->
  exists p fs, path = Word p
    /\ sys_open p flags (files wa) = Some fs
    /\ fd = fresh_fd (fdt wa)
    /\ w1 = emit (EOpen p flags mode fd)
              (set_fdt ((fd, FD_file p flags 0) :: fdt wa) (set_files fs wa)).
Proof.
  unfold Open. destruct path as [| | | | |p]; try discriminate.
  destruct (sys_open p flags (files wa)) as [fs|] eqn:Hs;
    [simpl|discriminate].
  intros [= <- <-]. exists p, fs. auto.
Qed.

Lemma MaybeClose_inv fd (w : world) x wa :
  MaybeClose fd w = Done (x, wa) ->
  (fd < 0 /\ wa = w)
  \/ (0 <= fd /\ fd_is_open fd (fdt w) = true
      /\ wa = emit (EClose fd) (set_fdt (fd_remove fd (fdt w)) w)).
Proof.
  unfold MaybeClose, Close. destruct (Z.ltb_spec fd 0).
  - intros [= <- <-]. now left.
  - destruct (fd_is_open fd (fdt w)); [simpl|discriminate].
    intros [= <- <-]. right. auto.
Qed.

Lemma MaybeClose_frame fd (w : world) x wa :
  MaybeClose fd w = Done (x, wa) ->
  files wa = files w
  /\ (exists l, trace wa = trace w ++ l)
  /\ (forall y, fd < 0 \/ fd <> y ->
        fd_lookup y (fdt wa) = fd_lookup y (fdt w)).
Proof.
  intros Hc. apply MaybeClose_inv in Hc as [[Hneg ->]|(Hpos & _ & ->)].
  - split; [reflexivity|]. split; [exists []; now rewrite app_nil_r|auto].
  - split; [reflexivity|]. split; [now eexists|].
    intros y [Hy|Hy]; [lia|]. simpl. apply fd_lookup_remove_ne. congruence.
Qed.

Lemma Open_frame path flags mode (wa : world) fd w1 :
  Z.land flags O_TRUNC = 0 ->
  Open path flags mode wa = Done (fd, w1) ->
  0 <= fd
  /\ (exists p, path = Word p
        /\ fd_lookup fd (fdt w1) = Some (FD_file p flags 0)
        /\ trace w1 = trace wa ++ [EOpen p flags mode fd])
  /\ (forall q c, file_lookup q (files wa) = Some c ->
        file_lookup q (files w1) = Some c)
  /\ (forall y, fd_is_open y (fdt wa) = true ->
        fd <> y /\ fd_lookup y (fdt w1) = fd_lookup y (fdt wa)).
Proof.
  intros Hnt Ho. apply Open_inv in Ho as (p & fs & -> & Hs & -> & ->).
  split; [apply fresh_fd_nonneg|]. split; [|split].
  - exists p. simpl. now rewrite Z.eqb_refl.
  - simpl. now apply (sys_open_keeps p flags).
  - intros y Hy. pose proof (fresh_fd_ne _ _ Hy) as Hne.
    split; [exact Hne|]. simpl.
    destruct (Z.eqb_spec (fresh_fd (fdt wa)) y); [contradiction|reflexivity].
Qed.

Lemma open_of_lookup (fd : Z) t d :
  fd_lookup fd t = Some d -> fd_is_open fd t = true.
Proof. unfold fd_is_open. now intros ->. Qed.

End Descriptors.

Section RedirectedFiles.
Context `{H : shell_h}.

(** What one round of the [for] of [do_redir] does to the descriptors and
    the files. *)
Lemma redir_body_world base i r (w : world) r1 w1 cur :
  redir_body base i r w = Done (r1, w1) ->
  fds_ok (r_input r) (r_output r) w ->
  out_is (r_output r) w cur ->
  let pos := Z.to_nat (base + i) in
  fds_ok (r_input r1) (r_output r1) w1
  /\ out_is (r_output r1) w1
       (match r_toks r !! pos, r_toks r !! S pos with
        | Some T_OUTPUT, Some (Word p) => Some p
        | _, _ => cur
        end)
  /\ (forall q c, file_lookup q (files w) = Some c ->
        file_lookup q (files w1) = Some c)
  /\ (exists l, trace w1 = trace w ++ l)
  /\ (r_toks r !! pos = Some T_OUTPUT ->
      exists p fd, r_toks r !! S pos = Some (Word p)
        /\ In (EOpen p (Z.lor O_WRONLY O_CREAT) 436 fd) (trace w1)).
Proof.
  intros Hb (I1 & I2 & I3) Hout pos.
  apply redir_body_inv in Hb as (Hpos & t & Ht & Hcase).
  replace (Z.to_nat (base + i + 1)) with (S pos) in Hcase by (unfold pos; lia).
  fold pos in Ht, Hcase. rewrite Ht.
  destruct Hcase as [(-> & x & wa & path & fd & Hc & Hp & Ho & ->)
    |[(-> & x & wa & path & fd & Hc & Hp & Ho & ->)
    |[(Hnr & _ & -> & ->)|(Hnr & _ & -> & _ & ->)]]]; cbn [r_input r_output].
  - (* input *)
    apply MaybeClose_frame in Hc as (Hfc & [lc Htc] & Hkc).
    apply Open_frame in Ho as (Hfd & (p & -> & Hlk & Hto) & Hfo & Hko);
      [|reflexivity].
    assert (Hkeep : forall d, fd_lookup (r_output r) (fdt w) = Some d ->
              fd <> r_output r /\ fd_lookup (r_output r) (fdt w1) = Some d).
    { intros d Hd.
      assert (Hwa : fd_lookup (r_output r) (fdt wa) = Some d)
        by (rewrite Hkc; [exact Hd|exact I3]).
      destruct (Hko (r_output r) (open_of_lookup _ _ _ Hwa)) as [Hne Hsame].
      split; [exact Hne|congruence]. }
    assert (Hout2 : r_output r < 0
                    \/ (fd <> r_output r
                        /\ fd_is_open (r_output r) (fdt w1) = true)).
    { destruct I2 as [I2|I2]; [now left|right]. unfold fd_is_open in I2.
      destruct (fd_lookup (r_output r) (fdt w)) as [d|] eqn:Hd; [|discriminate].
      destruct (Hkeep d eq_refl) as [Hne Hl].
      split; [exact Hne|exact (open_of_lookup _ _ _ Hl)]. }
    split; [|split; [|split; [|split]]].
    + split; [right; exact (open_of_lookup _ _ _ Hlk)|].
      split; [destruct Hout2 as [?|[_ ?]]; auto|].
      right. destruct Hout2 as [?|[? _]]; [lia|assumption].
    + destruct cur as [q|]; [|exact I]. simpl in *.
      now destruct (Hkeep _ Hout).
    + intros q c Hq. apply Hfo. now rewrite Hfc.
    + exists (lc ++ [EOpen p O_RDONLY 0 fd]).
      now rewrite Hto, Htc, app_assoc.
    + discriminate.
  - (* output *)
    apply MaybeClose_frame in Hc as (Hfc & [lc Htc] & Hkc).
    apply Open_frame in Ho as (Hfd & (p & -> & Hlk & Hto) & Hfo & Hko);
      [|reflexivity].
    rewrite Hp.
    assert (Hin : r_input r < 0
                  \/ (fd <> r_input r
                      /\ fd_is_open (r_input r) (fdt w1) = true)).
    { destruct I1 as [I1|I1]; [now left|right]. unfold fd_is_open in I1.
      destruct (fd_lookup (r_input r) (fdt w)) as [d|] eqn:Hd; [|discriminate].
      assert (Hwa : fd_lookup (r_input r) (fdt wa) = Some d).
      { rewrite Hkc; [exact Hd|]. destruct I3 as [I3|I3]; [|right; congruence].
        destruct (Z.ltb_spec (r_output r) 0); [now left|right; lia]. }
      destruct (Hko (r_input r) (open_of_lookup _ _ _ Hwa)) as [Hne Hsame].
      split; [exact Hne|]. apply (open_of_lookup _ _ d). congruence. }
    split; [|split; [|split; [|split]]].
    + split; [destruct Hin as [?|[_ ?]]; auto|].
      split; [right; exact (open_of_lookup _ _ _ Hlk)|].
      destruct Hin as [?|[? _]]; [now left|right; congruence].
    + exact Hlk.
    + intros q c Hq. apply Hfo. now rewrite Hfc.
    + exists (lc ++ [EOpen p (Z.lor O_WRONLY O_CREAT) 436 fd]).
      now rewrite Hto, Htc, app_assoc.
    + intros _. exists p, fd. split; [reflexivity|].
      rewrite Hto. apply in_or_app. right. now left.
  - (* a token that is counted *)
    assert (Hcur : match t, r_toks r !! S pos with
                   | T_OUTPUT, Some (Word p) => Some p
                   | _, _ => cur
                   end = cur) by (destruct t; try reflexivity; discriminate).
    rewrite Hcur. repeat split; auto.
    + exists []. now rewrite app_nil_r.
    + intros [= ->]. discriminate.
  - (* a token that is cleared *)
    assert (Hcur : match t, r_toks r !! S pos with
                   | T_OUTPUT, Some (Word p) => Some p
                   | _, _ => cur
                   end = cur) by (destruct t; try reflexivity; discriminate).
    rewrite Hcur. repeat split; auto.
    + exists []. now rewrite app_nil_r.
    + intros [= ->]. discriminate.
Qed.

Lemma redir_body_toks base i r (w : world) r1 w1 :
  redir_body base i r w = Done (r1, w1) ->
  forall x : nat, x <> Z.to_nat (base + i) -> r_toks r1 !! x = r_toks r !! x.
Proof.
  intros Hb x Hx. apply redir_body_inv in Hb as (_ & t & _ & Hcase).
  destruct Hcase as [(_ & ? & ? & ? & ? & _ & _ & _ & ->)
    |[(_ & ? & ? & ? & ? & _ & _ & _ & ->)
    |[(_ & _ & _ & ->)|(_ & _ & _ & _ & ->)]]]; simpl; auto.
  now apply list_lookup_insert_ne.
Qed.

Lemma out_target_ext (k : nat) : forall toks1 toks pos cur,
  (forall x : nat, (pos <= x)%nat -> toks1 !! x = toks !! x) ->
  out_target toks1 pos k cur = out_target toks pos k cur.
Proof.
  induction k as [|k IH]; intros toks1 toks pos cur Hext; [reflexivity|].
  simpl. rewrite !Hext by lia. apply IH. intros x Hx. apply Hext. lia.
Qed.

(** What the [for] of [do_redir] does to the descriptors and the files. *)
Lemma redir_for_world (k : nat) : forall base i r (w : world) r' w' cur,
  0 <= base -> 0 <= i ->
  redir_for k base i r w = Done (r', w') ->
  fds_ok (r_input r) (r_output r) w ->
  out_is (r_output r) w cur ->
  let pos := Z.to_nat (base + i) in
  fds_ok (r_input r') (r_output r') w'
  /\ out_is (r_output r') w' (out_target (r_toks r) pos k cur)
  /\ (forall q c, file_lookup q (files w) = Some c ->
        file_lookup q (files w') = Some c)
  /\ (exists l, trace w' = trace w ++ l)
  /\ (forall j : nat, (j < k)%nat ->
      r_toks r !! (pos + j)%nat = Some T_OUTPUT ->
      exists p fd, r_toks r !! S (pos + j) = Some (Word p)
        /\ In (EOpen p (Z.lor O_WRONLY O_CREAT) 436 fd) (trace w')).
Proof.
  induction k as [|k IH]; intros base i r w r' w' cur Hbase Hi Hrun Hok Hout;
    simpl in Hrun.
  - injection Hrun as <- <-. intros pos. simpl.
    repeat split; try apply Hok; auto.
    + exists []. now rewrite app_nil_r.
    + intros j Hj. lia.
  - destruct (redir_body base i r w) as [[r1 w1]| |] eqn:Hb;
      [simpl in Hrun|discriminate..].
    intros pos.
    pose proof (redir_body_toks _ _ _ _ _ _ Hb) as Hother. fold pos in Hother.
    destruct (redir_body_world _ _ _ _ _ _ cur Hb Hok Hout)
      as (Hok1 & Hout1 & Hf1 & [l1 Ht1] & He1).
    fold pos in Hout1, He1.
    assert (Hi1 : 0 <= i + 1) by lia.
    destruct (IH base (i + 1) r1 w1 r' w' _ Hbase Hi1 Hrun Hok1 Hout1)
      as (Hok' & Hout' & Hf' & [l' Ht'] & He').
    replace (Z.to_nat (base + (i + 1))) with (S pos) in *
      by (unfold pos; lia).
    split; [exact Hok'|]. split; [|split; [|split]].
    + cbn [out_target].
      rewrite <- (out_target_ext k (r_toks r1) (r_toks r)); [exact Hout'|].
      intros x Hx. apply Hother. lia.
    + auto.
    + exists (l1 ++ l'). now rewrite Ht', Ht1, app_assoc.
    + intros j Hj Htok. destruct j as [|j].
      * rewrite Nat.add_0_r in *. destruct (He1 Htok) as (p & fd & Hp & Hin).
        exists p, fd. split; [exact Hp|]. rewrite Ht'.
        apply in_or_app. now left.
      * destruct (He' j) as (p & fd & Hp & Hin); [lia| |].
        { rewrite Hother by lia. rewrite <- Htok. f_equal. lia. }
        exists p, fd. split; [|exact Hin].
        rewrite Hother in Hp by lia. rewrite <- Hp. f_equal. lia.
Qed.

Lemma sys_write_at_start (fd : Z) p (data c : list Z) (w : world) :
  fd_lookup fd (fdt w) = Some (FD_file p (Z.lor O_WRONLY O_CREAT) 0) ->
  file_lookup p (files w) = Some c ->
  exists w', sys_write fd data w = Some w'
    /\ file_lookup p (files w') = Some (data ++ drop (length data) c).
Proof.
  intros Hfd Hc. unfold sys_write. rewrite Hfd. simpl. rewrite Hc. simpl.
  eexists. split; [reflexivity|]. simpl.
  rewrite file_lookup_store, String.eqb_refl. reflexivity.
Qed.

(** C10. For every output operator among the tokens, [do_redir] opens the
    file named after it with the flags [O_WRONLY | O_CREAT], which hold
    neither [O_TRUNC] nor [O_APPEND], and the mode 0664.  No file that was
    there loses a byte in [do_redir]; the descriptor left as standard
    output is at offset 0 of the last such file, so that a write of [data]
    through it replaces the first bytes of the file and leaves the bytes
    behind them in place. *)
Theorem do_redir_output_not_truncated toks base ntokens input output
  (w : world) n toks' input' output' w' :
  0 <= base ->
  fds_ok input output w ->
  do_redir toks base ntokens input output w
    = Done (n, toks', input', output', w') ->
  let b := Z.to_nat base in
  436 = 6 * 64 + 6 * 8 + 4
  /\ Z.lor O_WRONLY O_CREAT = 65
  /\ Z.land (Z.lor O_WRONLY O_CREAT) O_ACCMODE = O_WRONLY
  /\ Z.land (Z.lor O_WRONLY O_CREAT) O_TRUNC = 0
  /\ Z.land (Z.lor O_WRONLY O_CREAT) O_APPEND = 0
  /\ (forall j : nat, (j < Z.to_nat ntokens)%nat ->
      toks !! (b + j)%nat = Some T_OUTPUT ->
      exists p fd, toks !! S (b + j) = Some (Word p)
        /\ In (EOpen p (Z.lor O_WRONLY O_CREAT) 436 fd) (trace w'))
  /\ (forall q c, file_lookup q (files w) = Some c ->
        file_lookup q (files w') = Some c)
  /\ (forall p, out_target toks b (Z.to_nat ntokens) None = Some p ->
      fd_lookup output' (fdt w') = Some (FD_file p (Z.lor O_WRONLY O_CREAT) 0)
      /\ forall c data, file_lookup p (files w) = Some c ->
           exists w'', sys_write output' data w' = Some w''
             /\ file_lookup p (files w'')
                = Some (data ++ drop (length data) c)).
Proof.
  intros Hbase Hok Hd b. unfold do_redir in Hd.
  destruct (redir_for (Z.to_nat ntokens) base 0
              (Redir toks NULL 0 input output) w) as [[r w1]| |] eqn:Hf;
    [simpl in Hd|discriminate..].
  destruct (tok_write (r_toks r) (base + r_n r) NULL) as [toks1| |];
    [simpl in Hd|discriminate..].
  injection Hd as <- <- <- <- <-.
  destruct (redir_for_world _ _ _ _ _ _ _ None Hbase (Z.le_refl 0) Hf Hok I)
    as (_ & Hout & Hfiles & _ & Hev).
  replace (Z.to_nat (base + 0)) with b in * by (unfold b; lia).
  cbn [r_toks] in *.
  repeat (split; [reflexivity|]).
  split; [exact Hev|]. split; [exact Hfiles|].
  intros p Hp. rewrite Hp in Hout. simpl in Hout.
  split; [exact Hout|]. intros c data Hc.
  apply (sys_write_at_start _ p); [exact Hout|]. now apply Hfiles.
Qed.

End RedirectedFiles.

Section Pipelines.
Context `{H : shell_h}.

Lemma tok_read_lookup toks i t :
  0 <= i -> toks !! Z.to_nat i = Some t -> tok_read toks i = Done t.
Proof.
  intros Hi Ht. unfold tok_read. destruct (Z.leb_spec 0 i); [|lia].
  now rewrite Ht.
Qed.

Lemma lookup_of_drop {A} (l : list A) (n : nat) s x rest :
  drop n l = s ++ x :: rest -> l !! (n + length s)%nat = Some x.
Proof.
  intros Hd. rewrite <- lookup_drop, Hd.
  rewrite lookup_app_r by lia. now rewrite Nat.sub_diag.
Qed.

Lemma drop_tail {A} (l : list A) (n : nat) s rest :
  drop n l = s ++ rest -> drop (n + length s) l = rest.
Proof.
  intros Hd. rewrite <- drop_drop, Hd. apply drop_app_length.
Qed.

Lemma not_pipe t : t <> T_PIPE -> token_eqb t T_PIPE = false.
Proof.
  intros Hne. destruct (token_eqb t T_PIPE) eqn:E; [|reflexivity].
  now apply token_eqb_eq in E.
Qed.

(** The scan of lines 169-174 stops at the first [T_PIPE]. *)
Lemma first_pipe_found s : forall (k : nat) toks i len rest,
  0 <= i ->
  T_PIPE ∉ s ->
  drop (Z.to_nat i) toks = s ++ T_PIPE :: rest ->
  (length s < k)%nat ->
  first_pipe k toks i len = Done (i + Z.of_nat (length s)).
Proof.
  induction s as [|t s IH]; intros k toks i len rest Hi Hno Hd Hk;
    (destruct k as [|k]; [simpl in Hk; lia|]); simpl.
  - rewrite (tok_read_lookup toks i T_PIPE Hi).
    + simpl. f_equal. lia.
    + rewrite <- (Nat.add_0_r (Z.to_nat i)).
      now apply (lookup_of_drop _ _ [] T_PIPE rest).
  - rewrite (tok_read_lookup toks i t Hi).
    + simpl. rewrite not_pipe by (intros ->; apply Hno; constructor).
      rewrite (IH k toks (i + 1) len rest); [f_equal; lia|lia| | |simpl in Hk; lia].
      * intros Hin. apply Hno. now constructor.
      * replace (Z.to_nat (i + 1)) with (Z.to_nat i + length [t])%nat
          by (simpl; lia).
        apply drop_tail. exact Hd.
    + rewrite <- (Nat.add_0_r (Z.to_nat i)).
      now apply (lookup_of_drop _ _ [] t (s ++ T_PIPE :: rest)).
Qed.

(** The scan of lines 184-191 when a [T_PIPE] follows the stage. *)
Lemma next_pipe_found s : forall (k : nat) toks base i ntokens len rest,
  0 <= base + i ->
  T_PIPE ∉ s ->
  drop (Z.to_nat (base + i)) toks = s ++ T_PIPE :: rest ->
  (length s < k)%nat ->
  next_pipe k toks base i ntokens len = Done (i + Z.of_nat (length s), true).
Proof.
  induction s as [|t s IH]; intros k toks base i ntokens len rest Hi Hno Hd Hk;
    (destruct k as [|k]; [simpl in Hk; lia|]); simpl.
  - rewrite (tok_read_lookup toks (base + i) T_PIPE Hi).
    + simpl. do 2 f_equal. lia.
    + rewrite <- (Nat.add_0_r (Z.to_nat (base + i))).
      now apply (lookup_of_drop _ _ [] T_PIPE rest).
  - rewrite (tok_read_lookup toks (base + i) t Hi).
    + simpl. rewrite not_pipe by (intros ->; apply Hno; constructor).
      rewrite (IH k toks base (i + 1) ntokens ntokens rest);
        [do 2 f_equal; lia|lia| | |simpl in Hk; lia].
      * intros Hin. apply Hno. now constructor.
      * replace (Z.to_nat (base + (i + 1)))
          with (Z.to_nat (base + i) + length [t])%nat by (simpl; lia).
        apply drop_tail. exact Hd.
    + rewrite <- (Nat.add_0_r (Z.to_nat (base + i))).
      now apply (lookup_of_drop _ _ [] t (s ++ T_PIPE :: rest)).
Qed.

(** The same scan over a last stage: [length] becomes [ntokens]. *)
Lemma next_pipe_last s : forall toks base i ntokens len rest,
  0 <= base + i ->
  T_PIPE ∉ s ->
  drop (Z.to_nat (base + i)) toks = s ++ rest ->
  next_pipe (length s) toks base i ntokens len
  = Done (match s with [] => len | _ => ntokens end, false).
Proof.
  induction s as [|t s IH]; intros toks base i ntokens len rest Hi Hno Hd;
    simpl; [reflexivity|].
  rewrite (tok_read_lookup toks (base + i) t Hi).
  - simpl. rewrite not_pipe by (intros ->; apply Hno; constructor).
    rewrite (IH toks base (i + 1) ntokens ntokens rest); [|lia| |].
    + now destruct s.
    + intros Hin. apply Hno. now constructor.
    + replace (Z.to_nat (base + (i + 1)))
        with (Z.to_nat (base + i) + length [t])%nat by (simpl; lia).
      apply drop_tail. exact Hd.
  - rewrite <- (Nat.add_0_r (Z.to_nat (base + i))).
    now apply (lookup_of_drop _ _ [] t (s ++ rest)).
Qed.

Lemma MaybeClose_jobs fd (w : world) x wa :
  MaybeClose fd w = Done (x, wa) -> jobs wa = jobs w.
Proof.
  intros Hc. now apply MaybeClose_inv in Hc as [[_ ->]|(_ & _ & ->)].
Qed.

Lemma Open_jobs path flags mode (wa : world) fd w1 :
  Open path flags mode wa = Done (fd, w1) -> jobs w1 = jobs wa.
Proof. intros Ho. now apply Open_inv in Ho as (p & fs & _ & _ & _ & ->). Qed.

Lemma redir_for_jobs (k : nat) : forall base i r (w : world) r' w',
  redir_for k base i r w = Done (r', w') -> jobs w' = jobs w.
Proof.
  induction k as [|k IH]; intros base i r w r' w' Hrun; simpl in Hrun.
  - now injection Hrun as <- <-.
  - destruct (redir_body base i r w) as [[r1 w1]| |] eqn:Hb;
      [simpl in Hrun|discriminate..].
    apply IH in Hrun. rewrite Hrun.
    apply redir_body_inv in Hb as (_ & t & _ & Hcase).
    destruct Hcase as [(_ & x & wa & path & fd & Hc & _ & Ho & _)
      |[(_ & x & wa & path & fd & Hc & _ & Ho & _)
      |[(_ & _ & -> & _)|(_ & _ & -> & _)]]]; try reflexivity.
    + apply MaybeClose_jobs in Hc. apply Open_jobs in Ho. congruence.
    + apply MaybeClose_jobs in Hc. apply Open_jobs in Ho. congruence.
Qed.

(** What [do_stage] hands back to [do_pipeline]. *)
Lemma do_stage_inv pgid input output toks base ntokens pids (w : world)
  pid toks1 pids1 w1 :
  0 <= base ->
  do_stage pgid input output toks base ntokens pids w
    = Done (pid, toks1, pids1, w1) ->
  pids = pid :: pids1
  /\ jobs w1 = jobs w
  /\ length toks1 = length toks
  /\ (forall x : nat, (Z.to_nat base + Z.to_nat ntokens < x)%nat ->
        toks1 !! x = toks !! x).
Proof.
  intros Hbase. unfold do_stage.
  destruct (do_redir toks base ntokens input output w)
    as [[[[[n toks'] input'] output'] w']| |] eqn:Hd;
    [simpl|discriminate..].
  destruct (negb (n =? 0)); [simpl|discriminate].
  destruct pids as [|p pids']; [discriminate|].
  intros [= <- <- <- <-].
  destruct (do_redir_tokens _ _ _ _ _ _ _ _ _ _ _ Hbase Hd)
    as (_ & Hlen & _ & _ & _ & Hsuf).
  split; [reflexivity|]. split; [|split; [exact Hlen|exact Hsuf]].
  simpl. unfold do_redir in Hd.
  destruct (redir_for (Z.to_nat ntokens) base 0
              (Redir toks NULL 0 input output) w) as [[r w2]| |] eqn:Hf;
    [simpl in Hd|discriminate..].
  destruct (tok_write (r_toks r) (base + r_n r) NULL);
    [simpl in Hd|discriminate..].
  injection Hd as <- <- <- <- <-. now apply redir_for_jobs in Hf.
Qed.

Lemma addproc_inv (j pid : Z) argv (w : world) w' :
  addproc j pid argv w = Done w' ->
  0 <= j /\ exists b cmd,
    jobs w !! Z.to_nat j = Some b
    /\ jobs w' = <[Z.to_nat j :=
                    job.mk _ (job.pgid b) (job.proc b ++ [fresh_proc pid])
                      (job.tmodes b) (job.state b) (Some cmd)]> (jobs w).
Proof.
  unfold addproc. destruct (j <? njobmax w); [simpl|discriminate].
  unfold job_at. destruct (Z.leb_spec 0 j); [|discriminate].
  destruct (jobs w !! Z.to_nat j) as [b|] eqn:Hb; [simpl|discriminate].
  destruct (mkcommand (job.command b) argv) as [cmd| |];
    [simpl|discriminate..].
  intros [= <-]. split; [assumption|]. now exists b, cmd.
Qed.

Lemma bind_Done {A B} (m : outcome A) (f : A -> outcome B) b :
  m ≫= f = Done b -> exists a, m = Done a /\ f a = Done b.
Proof. destruct m as [a| |]; [|discriminate..]. intros Hf. now exists a. Qed.

Lemma join_stages_cons s s' more :
  join_stages (s :: s' :: more) = s ++ T_PIPE :: join_stages (s' :: more).
Proof. reflexivity. Qed.

Lemma join_stages_nonempty stages :
  stages <> [] -> Forall stage_ok stages -> join_stages stages <> [].
Proof.
  destruct stages as [|s [|s' more]]; [done| |]; intros _ Hok;
    inversion Hok as [|? ? [Hne _] _]; subst.
  - exact Hne.
  - rewrite join_stages_cons. now destruct s.
Qed.

(** One round of the [while] of [do_pipeline] on a stage [s]: one more
    entry in the job, and the following stages are what is left. *)
Lemma pipeline_body_spec pgid job p (w : world) p1 w1 s more rest b :
  stage_ok s ->
  0 <= p_base p -> 0 <= job ->
  drop (Z.to_nat (p_base p)) (p_toks p) = join_stages (s :: more) ++ rest ->
  p_ntokens p = Z.of_nat (length (join_stages (s :: more))) ->
  jobs w !! Z.to_nat job = Some b ->
  pipeline_body pgid job p w = Done (p1, w1) ->
  exists pid cmd,
    p_pids p = pid :: p_pids p1
    /\ jobs w1 = <[Z.to_nat job :=
                     job.mk _ (job.pgid b) (job.proc b ++ [fresh_proc pid])
                       (job.tmodes b) (job.state b) (Some cmd)]> (jobs w)
    /\ p_base p1 = p_base p
    /\ p_length p1 = Z.of_nat (length s)
    /\ p_ntokens p1 = p_ntokens p - (Z.of_nat (length s) + 1)
    /\ (forall x : nat, (Z.to_nat (p_base p) + length s < x)%nat ->
          p_toks p1 !! x = p_toks p !! x).
Proof.
  intros [Hne Hnp] Hbase Hjob Hd Hn Hb Hbody. unfold pipeline_body in Hbody.
  assert (Hnext : next_pipe (Z.to_nat (p_ntokens p)) (p_toks p) (p_base p) 0
                    (p_ntokens p) (p_length p)
                  = Done (Z.of_nat (length s),
                          match more with [] => false | _ => true end)).
  { destruct more as [|s' more].
    - simpl in Hd, Hn. rewrite Hn, Nat2Z.id.
      rewrite (next_pipe_last s _ _ _ _ _ rest); [|lia|exact Hnp|].
      + destruct s; [done|]. now rewrite <- Hn.
      + now rewrite Z.add_0_r.
    - rewrite join_stages_cons in Hd, Hn. rewrite <- app_assoc in Hd.
      rewrite (next_pipe_found s _ _ _ _ _ _
                 (join_stages (s' :: more) ++ rest)); [reflexivity|lia|exact Hnp| |].
      + now rewrite Z.add_0_r.
      + rewrite Hn, Nat2Z.id, length_app. simpl. lia. }
  rewrite Hnext in Hbody.
  apply bind_Done in Hbody as ([len found] & [= <- <-] & Hbody).
  apply bind_Done in Hbody as ([[next_input output] wm] & Hm & Hbody).
  assert (Hjm : jobs wm = jobs w).
  { destruct more; [now injection Hm as <- <- <-|].
    unfold mkpipe in Hm. now injection Hm as <- <- <-. }
  apply bind_Done in Hbody as ([[[pid toks1] pids1] ws] & Hs & Hbody).
  apply do_stage_inv in Hs as (Hpids & Hjs & _ & Hsuf); [|exact Hbase].
  apply bind_Done in Hbody as ([x1 wc1] & Hc1 & Hbody).
  apply bind_Done in Hbody as ([output' wc2] & Hc2 & Hbody).
  apply bind_Done in Hbody as (wp & Hp & Hbody).
  apply MaybeClose_jobs in Hc1. apply MaybeClose_jobs in Hc2.
  apply addproc_inv in Hp as (_ & b0 & cmd & Hb0 & Hjp).
  assert (Hb0' : b0 = b) by congruence. subst b0.
  injection Hbody as <- <-. cbn [p_pids p_base p_length p_ntokens p_toks].
  exists pid, cmd. split; [exact Hpids|]. split; [congruence|].
  repeat split; auto.
  intros x Hx. apply Hsuf. lia.
Qed.

Lemma drop_agree {A} (l1 l : list A) (n : nat) :
  (forall x : nat, (n <= x)%nat -> l1 !! x = l !! x) -> drop n l1 = drop n l.
Proof.
  intros Hag. apply list_eq. intros i. rewrite !lookup_drop. apply Hag. lia.
Qed.

(** The [while] of [do_pipeline] adds one entry for each stage that is
    left, in their order. *)
Lemma pipeline_loop_spec stages :
  forall (fuel : nat) pgid job p (w : world) p' w' rest b,
  stages <> [] ->
  Forall stage_ok stages ->
  0 <= p_base p -> 0 <= job ->
  drop (Z.to_nat (p_base p)) (p_toks p) = join_stages stages ++ rest ->
  p_ntokens p = Z.of_nat (length (join_stages stages)) ->
  jobs w !! Z.to_nat job = Some b ->
  pipeline_loop fuel pgid job p w = Done (p', w') ->
  exists b',
    jobs w' !! Z.to_nat job = Some b'
    /\ job.proc b'
       = job.proc b ++ map fresh_proc (take (length stages) (p_pids p))
    /\ (length stages <= length (p_pids p))%nat
    /\ job.pgid b' = job.pgid b /\ job.state b' = job.state b.
Proof.
  induction stages as [|s more IH];
    intros fuel pgid job p w p' w' rest b Hne Hok Hbase Hjob Hd Hn Hb Hrun;
    [done|].
  destruct fuel as [|fuel]; [discriminate|]. simpl in Hrun.
  apply bind_Done in Hrun as ([p1 w1] & Hbody & Hrun).
  inversion Hok as [|? ? Hs Hmore]; subst.
  destruct (pipeline_body_spec _ _ _ _ _ _ _ _ _ _ Hs Hbase Hjob Hd Hn Hb Hbody)
    as (pid & cmd & Hpids & Hj1 & Hb1 & Hl1 & Hn1 & Hsuf).
  assert (Hlt : (Z.to_nat job < length (jobs w))%nat)
    by now apply lookup_lt_Some in Hb.
  set (b1 := job.mk _ (job.pgid b) (job.proc b ++ [fresh_proc pid])
               (job.tmodes b) (job.state b) (Some cmd)) in *.
  assert (Hb1' : jobs w1 !! Z.to_nat job = Some b1)
    by (rewrite Hj1; now apply list_lookup_insert_eq).
  destruct more as [|s' more].
  - simpl in Hn. rewrite Hn1, Hn in Hrun.
    destruct (Z.ltb_spec 0 (Z.of_nat (length s) - (Z.of_nat (length s) + 1)));
      [lia|].
    injection Hrun as <- <-. exists b1. split; [exact Hb1'|].
    rewrite Hpids. simpl. repeat split; auto. lia.
  - rewrite join_stages_cons in Hd, Hn.
    assert (Hpos : (0 < length (join_stages (s' :: more)))%nat).
    { pose proof (join_stages_nonempty (s' :: more) ltac:(done) Hmore).
      destruct (join_stages (s' :: more)); [done|simpl; lia]. }
    rewrite length_app in Hn. cbn [length] in Hn.
    destruct (Z.ltb_spec 0 (p_ntokens p1)); [|lia].
    apply (IH _ _ _ _ _ _ _ rest b1) in Hrun;
      cbn [p_base p_toks p_ntokens p_pids]; try done; try lia.
    + destruct Hrun as (b' & Hb' & Hprocs & Hlen & Hpg & Hst).
      exists b'. split; [exact Hb'|]. rewrite Hpids.
      split; [|split; [simpl in *; lia|auto]].
      rewrite Hprocs. unfold b1. cbn [job.proc].
      rewrite <- app_assoc. reflexivity.
    + rewrite Hb1, Hl1.
      replace (Z.to_nat (p_base p + (Z.of_nat (length s) + 1)))
        with (Z.to_nat (p_base p) + length (s ++ [T_PIPE]))%nat
        by (rewrite length_app; simpl; lia).
      rewrite (drop_agree _ (p_toks p)).
      * apply drop_tail. rewrite Hd, <- !app_assoc. reflexivity.
      * intros x Hx. apply Hsuf. rewrite length_app in Hx. simpl in Hx. lia.
Qed.

Lemma scan_procs_pids pid status ps : forall d,
  map proc.pid (snd (scan_procs pid status d ps)) = map proc.pid ps.
Proof.
  induction ps as [|q ps IH]; intros d; simpl; [reflexivity|].
  destruct d; [reflexivity|].
  destruct (proc.pid q =? pid).
  - specialize (IH true). destruct (scan_procs pid status true ps). simpl in *.
    rewrite IH. f_equal. unfold reap.
    repeat match goal with |- context [if ?c then _ else _] =>
      destruct c end; reflexivity.
  - specialize (IH false). destruct (scan_procs pid status false ps).
    simpl in *. now rewrite IH.
Qed.

Lemma scan_jobs_pids pid status (js : list job.t) : forall i d n,
  map pids_of (snd (scan_jobs pid status i d n js)) = map pids_of js.
Proof.
  induction js as [|b js IH]; intros i d n; simpl; [reflexivity|].
  destruct d; [reflexivity|].
  pose proof (scan_procs_pids pid status (job.proc b) false) as Hp.
  destruct (scan_procs pid status false (job.proc b)) as [d' ps]. simpl in Hp.
  specialize (IH (i + 1) d' (if d' then i else n)).
  destruct (scan_jobs pid status (i + 1) d' (if d' then i else n) js).
  simpl in *. rewrite IH. f_equal. exact Hp.
Qed.

Lemma recompute_pids (b : job.t) : pids_of (recompute b) = pids_of b.
Proof.
  unfold recompute.
  repeat match goal with |- context [if ?c then _ else _] =>
    destruct c end; reflexivity.
Qed.

(** The handler changes no pid and moves no entry. *)
Lemma sigchld_handler_pids reaped : forall w : world,
  map pids_of (jobs (sigchld_handler reaped w)) = map pids_of (jobs w).
Proof.
  unfold sigchld_handler. simpl. intros w. generalize (jobs w). clear w.
  induction reaped as [|[pid status] reaped IH]; intros js; [reflexivity|].
  simpl. rewrite IH. unfold sigchld_step.
  pose proof (scan_jobs_pids pid status js 0 false 0) as Hs.
  destruct (scan_jobs pid status 0 false 0 js) as [n js1]. simpl in Hs.
  rewrite <- Hs. etransitivity; [apply (list_fmap_alter pids_of recompute id)|].
  - apply Forall_forall. intros b _. apply recompute_pids.
  - apply list_alter_id. reflexivity.
Qed.

Lemma jobstate_finished_code (j status : Z) (w : world) state code w' :
  jobstate j status w = Done (state, code, w') ->
  state = FINISHED ->
  exists b pl, jobs w !! Z.to_nat j = Some b
    /\ last (job.proc b) = Some pl /\ code = proc.exitcode pl.
Proof.
  unfold jobstate. intros Hj Hs.
  apply bind_Done in Hj as ([] & _ & Hj).
  apply bind_Done in Hj as (b & Hb & Hj).
  unfold job_at in Hb. destruct (0 <=? j); [|discriminate].
  destruct (jobs w !! Z.to_nat j) as [b0|] eqn:Hl; [|discriminate].
  injection Hb as ->.
  destruct (job.state b =? FINISHED) eqn:E.
  - apply bind_Done in Hj as (c & Hc & Hj).
    apply bind_Done in Hj as (b' & _ & Hj). injection Hj as _ <- _.
    unfold exitcode in Hc.
    destruct (last (job.proc b)) as [pl|] eqn:Hlast; [|discriminate].
    injection Hc as <-. now exists b, pl.
  - injection Hj as <- _ _. apply Z.eqb_neq in E. contradiction.
Qed.

Lemma addjob_lookup pgid bg (w : world) j w' b :
  addjob pgid bg w = (j, w') ->
  jobs w' !! Z.to_nat j = Some b ->
  job.pgid b = pgid /\ job.proc b = [] /\ job.state b = RUNNING.
Proof.
  unfold addjob. destruct (if bg then allocjob w else (FG, w)) as [j0 w0].
  intros [= <- <-] Hl. simpl in Hl.
  destruct (decide (Z.to_nat j0 < length (jobs w0))%nat) as [Hlt|Hge].
  - rewrite list_lookup_insert_eq in Hl by exact Hlt. now injection Hl as <-.
  - rewrite list_insert_ge in Hl by lia. apply lookup_lt_Some in Hl. lia.
Qed.

(** C2. A pipeline of N stages that [do_pipeline] launches leaves, in the
    one slot that [addjob] returned, exactly N entries: one for each pid
    that [Fork] returned, in the order of the stages; the group of the job
    is the first pid.  Whatever the handler reaps afterwards, the status
    that [jobstate] reports once the job is FINISHED is the [exitcode] of
    the last entry, the one of stage N. *)
Theorem pipeline_registers_stages stages rest toks ntokens bg pids
  (w : world) job p w' :
  (2 <= length stages)%nat ->
  Forall stage_ok stages ->
  toks = join_stages stages ++ rest ->
  ntokens = Z.of_nat (length (join_stages stages)) ->
  pipeline_launch toks ntokens bg pids w = Done (job, p, w') ->
  let N := length stages in
  exists b,
    0 <= job
    /\ jobs w' !! Z.to_nat job = Some b
    /\ job.proc b = map fresh_proc (take N pids)
    /\ length (job.proc b) = N
    /\ head pids = Some (job.pgid b)
    /\ (forall reaped status (w1 : world) state code w2,
          jobs w1 = jobs (sigchld_handler reaped w') ->
          jobstate job status w1 = Done (state, code, w2) ->
          state = FINISHED ->
          exists b2 pl,
            jobs w1 !! Z.to_nat job = Some b2
            /\ pids_of b2 = take N pids
            /\ last (job.proc b2) = Some pl
            /\ last (take N pids) = Some (proc.pid pl)
            /\ code = proc.exitcode pl).
Proof.
  intros HN Hok -> -> Hrun N.
  destruct stages as [|s1 [|s2 more]]; [simpl in HN; lia..|].
  inversion Hok as [|? ? [Hne1 Hnp1] Hok2]; subst.
  unfold pipeline_launch in Hrun.
  apply bind_Done in Hrun as ([[next_input output] w0] & Hm & Hrun).
  unfold mkpipe in Hm. injection Hm as <- <- <-.
  rewrite join_stages_cons in Hrun. rewrite Nat2Z.id in Hrun.
  rewrite (first_pipe_found s1 _ _ 0 0 (join_stages (s2 :: more) ++ rest))
    in Hrun; [|lia|exact Hnp1|now rewrite <- app_assoc
              |rewrite length_app; simpl; lia].
  apply bind_Done in Hrun as (len & [= <-] & Hrun).
  apply bind_Done in Hrun as ([[[pid toks1] pids1] w1] & Hs & Hrun).
  apply do_stage_inv in Hs as (-> & Hj1 & _ & Hsuf); [|lia].
  apply bind_Done in Hrun as ([output' w2] & Hc & Hrun).
  apply MaybeClose_jobs in Hc.
  destruct (addjob pid bg w2) as [j w3] eqn:Haj.
  apply bind_Done in Hrun as (w4 & Hp & Hrun).
  apply addproc_inv in Hp as (Hj & b0 & cmd & Hb0 & Hj4).
  destruct (addjob_lookup _ _ _ _ _ _ Haj Hb0) as (Hpg0 & Hpr0 & Hst0).
  apply bind_Done in Hrun as ([p' w5] & Hloop & Hrun).
  injection Hrun as <- <- <-.
  set (b4 := job.mk _ (job.pgid b0) (job.proc b0 ++ [fresh_proc pid])
               (job.tmodes b0) (job.state b0) (Some cmd)) in *.
  assert (Hb4 : jobs w4 !! Z.to_nat j = Some b4).
  { rewrite Hj4. apply list_lookup_insert_eq. now apply lookup_lt_Some in Hb0. }
  apply (pipeline_loop_spec (s2 :: more) _ _ _ _ _ _ _ rest b4) in Hloop;
    cbn [p_base p_toks p_ntokens p_pids]; try done; try lia.
  - destruct Hloop as (b' & Hb' & Hprocs & Hlen & Hpg & Hst).
    assert (Hprocs' : job.proc b' = map fresh_proc (take N (pid :: pids1))).
    { rewrite Hprocs. unfold b4. cbn [job.proc]. now rewrite Hpr0. }
    exists b'. split; [exact Hj|]. split; [exact Hb'|].
    split; [exact Hprocs'|]. split; [|split].
    + rewrite Hprocs', length_map, length_take. unfold N.
      cbn [p_pids length] in *. lia.
    + simpl. rewrite Hpg. unfold b4. cbn [job.pgid]. now rewrite Hpg0.
    + intros reaped status wx state code w2' Hjx Hjs Hfin.
      destruct (jobstate_finished_code _ _ _ _ _ _ Hjs Hfin)
        as (b2 & pl & Hb2 & Hlast & Hcode).
      assert (Hpids : pids_of b2 = take N (pid :: pids1)).
      { pose proof (sigchld_handler_pids reaped w5) as Hh.
        rewrite <- Hjx in Hh.
        assert (Hl : (map pids_of (jobs wx)) !! Z.to_nat j
                     = (map pids_of (jobs w5)) !! Z.to_nat j) by now rewrite Hh.
        rewrite !list_lookup_fmap, Hb2, Hb' in Hl. simpl in Hl.
        injection Hl as ->. unfold pids_of. rewrite Hprocs'.
        rewrite <- list_fmap_compose. apply list_fmap_id. }
      exists b2, pl. split; [exact Hb2|]. split; [exact Hpids|].
      split; [exact Hlast|]. split; [|exact Hcode].
      rewrite <- Hpids. unfold pids_of.
      change (map proc.pid (job.proc b2)) with (proc.pid <$> job.proc b2).
      now rewrite fmap_last, Hlast.
  - rewrite (drop_agree _ ((s1 ++ T_PIPE :: join_stages (s2 :: more)) ++ rest)).
    + replace (Z.to_nat (0 + Z.of_nat (length s1) + 1))
        with (0 + length (s1 ++ [T_PIPE]))%nat
        by (rewrite length_app; simpl; lia).
      apply drop_tail. simpl. rewrite <- !app_assoc. reflexivity.
    + intros x Hx. apply Hsuf. lia.
  - rewrite length_app. simpl. lia.
Qed.

End Pipelines.

(** ** The fuel of [pipeline_loop] is enough

    Nothing in [do_pipeline] before [monitorjob] blocks: with the fuel
    that [pipeline_launch] gives its loop, the launch ends, in [Done] or in
    [Fault]. *)

Section Fuel.
Context `{H : shell_h}.

Lemma bind_not_starved {A B} (m : outcome A) (f : A -> outcome B) :
  m <> Starved -> (forall a, m = Done a -> f a <> Starved) ->
  m ≫= f <> Starved.
Proof. destruct m as [a| |]; simpl; [auto|discriminate|done]. Qed.

Ltac no_starve :=
  repeat match goal with
  | |- _ ≫= _ <> Starved => apply bind_not_starved; [|intros ? _]
  | |- Done _ <> Starved => discriminate
  | |- Fault <> Starved => discriminate
  | |- (if ?c then _ else _) <> Starved => destruct c
  | |- (match ?x with _ => _ end) <> Starved => destruct x
  end; auto.

Lemma assert_ns b : assert b <> Starved.
Proof. now destruct b. Qed.

Lemma of_option_ns {A} (o : option A) : of_option o <> Starved.
Proof. now destruct o. Qed.

Lemma tok_read_ns toks i : tok_read toks i <> Starved.
Proof. unfold tok_read. destruct (0 <=? i); [apply of_option_ns|done]. Qed.

Lemma tok_write_ns toks i v : tok_write toks i v <> Starved.
Proof. unfold tok_write. now destruct (_ && _). Qed.

Lemma job_at_ns j (w : world) : job_at j w <> Starved.
Proof. unfold job_at. destruct (0 <=? j); [apply of_option_ns|done]. Qed.

Lemma MaybeClose_ns fd (w : world) : MaybeClose fd w <> Starved.
Proof.
  unfold MaybeClose, Close. destruct (fd <? 0); [done|].
  now destruct (fd_is_open fd (fdt w)).
Qed.

Lemma Open_ns path flags mode (w : world) : Open path flags mode w <> Starved.
Proof.
  unfold Open. destruct path; try done.
  now destruct (sys_open s flags (files w)).
Qed.

Lemma redir_body_ns base i r (w : world) : redir_body base i r w <> Starved.
Proof.
  pose proof tok_read_ns. pose proof tok_write_ns.
  pose proof MaybeClose_ns. pose proof Open_ns.
  unfold redir_body. no_starve.
Qed.

Lemma redir_for_ns (k : nat) : forall base i r (w : world),
  redir_for k base i r w <> Starved.
Proof.
  induction k as [|k IH]; intros base i r w; simpl; [done|].
  pose proof redir_body_ns. no_starve.
Qed.

Lemma do_stage_ns pgid input output toks base ntokens pids (w : world) :
  do_stage pgid input output toks base ntokens pids w <> Starved.
Proof.
  pose proof redir_for_ns. pose proof tok_write_ns. pose proof assert_ns.
  unfold do_stage, do_redir. no_starve.
Qed.

Lemma mkcommand_rest_ns argv : forall cmd, mkcommand_rest argv cmd <> Starved.
Proof.
  induction argv as [|t argv IH]; intros cmd; simpl; [done|].
  destruct t; try done; apply IH.
Qed.

Lemma addproc_ns j pid argv (w : world) : addproc j pid argv w <> Starved.
Proof.
  pose proof assert_ns. pose proof job_at_ns. pose proof mkcommand_rest_ns.
  unfold addproc, mkcommand. no_starve.
Qed.

Lemma first_pipe_ns (k : nat) : forall toks i len,
  0 <= i -> 0 <= len ->
  exists r, first_pipe k toks i len = r /\ r <> Starved
            /\ forall l, r = Done l -> 0 <= l.
Proof.
  induction k as [|k IH]; intros toks i len Hi Hl; simpl.
  - eexists. split; [reflexivity|]. split; [done|]. now intros l [= <-].
  - destruct (tok_read toks i) as [t| |] eqn:Ht; simpl;
      [|eexists; split; [reflexivity|]; split; [done|discriminate]
       |now apply tok_read_ns in Ht].
    destruct (token_eqb t T_PIPE).
    + eexists. split; [reflexivity|]. split; [done|]. now intros l [= <-].
    + apply IH; lia.
Qed.

Lemma next_pipe_ns (k : nat) : forall toks base i ntokens len,
  0 <= i -> 0 <= len -> (k = O \/ 0 <= ntokens) ->
  exists r, next_pipe k toks base i ntokens len = r /\ r <> Starved
            /\ forall l f, r = Done (l, f) -> 0 <= l.
Proof.
  induction k as [|k IH]; intros toks base i ntokens len Hi Hl Hn; simpl.
  - eexists. split; [reflexivity|]. split; [done|]. now intros l f [= <- _].
  - destruct (tok_read toks (base + i)) as [t| |] eqn:Ht; simpl;
      [|eexists; split; [reflexivity|]; split; [done|discriminate]
       |now apply tok_read_ns in Ht].
    destruct (token_eqb t T_PIPE).
    + eexists. split; [reflexivity|]. split; [done|].
      now intros l f [= <- _].
    + destruct Hn as [Hn|Hn]; [discriminate|]. apply IH; auto; lia.
Qed.

(** A round of the [while] ends, and takes at least one token. *)
Lemma pipeline_body_progress pgid job p (w : world) :
  0 <= p_length p ->
  pipeline_body pgid job p w <> Starved
  /\ forall p1 w1, pipeline_body pgid job p w = Done (p1, w1) ->
       0 <= p_length p1 /\ p_ntokens p1 < p_ntokens p.
Proof.
  intros Hl. unfold pipeline_body.
  destruct (next_pipe_ns (Z.to_nat (p_ntokens p)) (p_toks p) (p_base p) 0
              (p_ntokens p) (p_length p)) as (r & Hr & Hns & Hpos);
    [lia|exact Hl|lia|].
  rewrite Hr. destruct r as [[len found]| |]; [|split; done|done].
  specialize (Hpos len found eq_refl). simpl.
  pose proof do_stage_ns. pose proof MaybeClose_ns. pose proof addproc_ns.
  split.
  - unfold mkpipe. no_starve.
  - intros p1 w1 Hb.
    apply bind_Done in Hb as ([[ni out] wm] & _ & Hb).
    apply bind_Done in Hb as ([[[pid toks1] pids1] ws] & _ & Hb).
    apply bind_Done in Hb as ([x1 wc1] & _ & Hb).
    apply bind_Done in Hb as ([out' wc2] & _ & Hb).
    apply bind_Done in Hb as (wp & _ & Hb).
    injection Hb as <- <-. simpl. lia.
Qed.

Lemma pipeline_loop_ns (fuel : nat) : forall pgid job p (w : world),
  0 <= p_length p -> (Z.to_nat (p_ntokens p) < fuel)%nat ->
  pipeline_loop fuel pgid job p w <> Starved.
Proof.
  induction fuel as [|fuel IH]; intros pgid job p w Hl Hn; [lia|].
  simpl. destruct (pipeline_body_progress pgid job p w Hl) as [Hns Hprog].
  destruct (pipeline_body pgid job p w) as [[p1 w1]| |]; [|done..].
  simpl. destruct (Hprog p1 w1 eq_refl) as [Hl1 Hn1].
  destruct (Z.ltb_spec 0 (p_ntokens p1)); [|done]. apply IH; simpl; lia.
Qed.

(** The launch of a pipeline never runs out of fuel. *)
Lemma pipeline_launch_ends toks ntokens bg pids (w : world) :
  pipeline_launch toks ntokens bg pids w <> Starved.
Proof.
  unfold pipeline_launch.
  apply bind_not_starved; [unfold mkpipe; done|]. intros [[ni out] w0] _.
  destruct (first_pipe_ns (Z.to_nat ntokens) toks 0 0) as (r & Hr & Hns & Hpos);
    [lia..|].
  apply bind_not_starved; [now rewrite Hr|]. intros len Hlen.
  rewrite Hr in Hlen. specialize (Hpos len Hlen).
  apply bind_not_starved; [apply do_stage_ns|].
  intros [[[pid toks1] pids1] w1] _.
  apply bind_not_starved; [apply MaybeClose_ns|]. intros [out' w2] _.
  destruct (addjob pid bg w2) as [j w3].
  apply bind_not_starved; [apply addproc_ns|]. intros w4 _.
  apply bind_not_starved; [|intros [p' w5] _; done].
  apply pipeline_loop_ns; cbn [p_length p_ntokens]; lia.
Qed.

End Fuel.

(** * The definitions at work, under [header] *)

Section Runs.
#[local] Existing Instance header.

Lemma header_distinct : states_distinct.
Proof. repeat split; discriminate. Qed.

(** [boot] is what [initjobs] returns at the start of the shell. *)
Lemma initjobs_boot : initjobs power_on = Done boot.
Proof. reflexivity. Qed.

(** [waitpid] reports that 101, the second process of the job in slot 1,
    has exited while the first still runs: the job stays RUNNING. *)
Lemma sigchld_recomputes_job_state_witness :
  exists b', sigchld_step 101 0 [job.zero; pair_job] !! 1%nat = Some b'
    /\ (all_in FINISHED b' -> job.state b' = FINISHED)
    /\ (all_in STOPPED b' -> job.state b' = STOPPED)
    /\ (all_in RUNNING b' -> job.state b' = RUNNING)
    /\ (~ all_in FINISHED b' -> ~ all_in STOPPED b' -> ~ all_in RUNNING b' ->
        job.state b' = job.state pair_job).
Proof.
  apply (sigchld_recomputes_job_state header_distinct 101 0
           [job.zero; pair_job] 1%nat pair_job).
  - reflexivity.
  - apply Exists_cons_tl, Exists_cons_hd. reflexivity.
  - intros k' b' Hlt Hl Hown. destruct k' as [|k']; [|lia].
    injection Hl as <-. inversion Hown.
  - repeat constructor; right; right; reflexivity.
Defined.

(** [jobstate] on the finished job of [done_bg]. *)
Lemma jobstate_reads_and_consumes_witness :
  exists status' w',
    jobstate 1 0 done_bg = Done (job.state done_job, status', w')
    /\ (job.state done_job = FINISHED ->
        (exists p, last (job.proc done_job) = Some p
                   /\ status' = proc.exitcode p)
        /\ (exists b', jobs w' !! Z.to_nat 1 = Some b'
              /\ job.pgid b' = 0 /\ job.proc b' = [] /\ job.command b' = None)
        /\ (forall i : nat, i <> Z.to_nat 1 -> jobs w' !! i = jobs done_bg !! i)
        /\ length (jobs w') = length (jobs done_bg))
    /\ (job.state done_job <> FINISHED -> w' = done_bg /\ status' = 0).
Proof.
  apply (jobstate_reads_and_consumes 1 0 done_bg done_job).
  - lia.
  - reflexivity.
  - intros _. discriminate.
Defined.

(** [killjob] on the stopped job of [stopped_bg]: SIGTERM goes out first,
    SIGCONT after it. *)
Lemma killjob_sends_cont_last :
  exists w', killjob 1 stopped_bg = Done (true, w')
    /\ trace w' = [EKill (-100) SIGTERM; EKill (-100) SIGCONT]
    /\ ~ sent_before (EKill (-100) SIGCONT) (EKill (-100) SIGTERM) (trace w').
Proof.
  eexists. split; [vm_compute; reflexivity|]. split; [reflexivity|].
  intros (t1 & t2 & t3 & E). simpl in E.
  destruct t1 as [|e1 [|e2 [|e3 t1]]]; simpl in E; try discriminate.
  injection E as _ E. destruct t2; discriminate.
Qed.

Lemma killjob_term_then_cont_witness :
  exists w', killjob 1 stopped_bg = Done (true, w')
    /\ trace w' = trace stopped_bg
                  ++ [EKill (-100) SIGTERM; EKill (-100) SIGCONT]
    /\ killjob 2 stopped_bg = Done (false, stopped_bg).
Proof.
  destruct (killjob_term_then_cont 1 stopped_bg vi_job) as (Hlive & _ & Hout);
    [lia|reflexivity|].
  destruct Hlive as (w' & Hk & Ht & _); [discriminate|].
  exists w'. split; [exact Hk|]. split; [exact Ht|].
  apply Hout. unfold njobmax. simpl. lia.
Defined.

(** After [three_jobs] the job handed out latest is in slot 1, and it
    runs; [resumejob] with no job named takes slot 2. *)
Lemma resume_default_skips_latest :
  exists w log, run three_jobs boot [] = Done (w, log)
    /\ log = [1; 2; 1]
    /\ latest_live log w = Some 1
    /\ resume_target (-1) w = 2
    /\ latest_live log w <> Some (resume_target (-1) w).
Proof.
  eexists _, _. split; [vm_compute; reflexivity|].
  split; [reflexivity|]. split; [vm_compute; reflexivity|].
  split; [vm_compute; reflexivity|]. vm_compute. discriminate.
Qed.

Lemma resume_default_is_highest_slot_witness :
  resume_target (-1) stopped_bg = 1
  /\ resumejob (-1) true [] stopped_bg = resumejob 1 true [] stopped_bg.
Proof.
  destruct (resume_default_is_highest_slot (-1) stopped_bg)
    as (_ & _ & _ & Hsame); [lia|discriminate|].
  split; [reflexivity|]. exact (Hsame true []).
Defined.

(** Another group owns the terminal and the job named does not exist:
    [resumejob] returns false and prints nothing. *)
Lemma resume_unknown_job_is_silent :
  tty_pgrp no_tty <> pgrp no_tty
  /\ exists w', resumejob 5 false [] no_tty = Done (false, w', [])
       /\ ~ In (EMsg No_task_control) (trace w').
Proof.
  split; [discriminate|]. eexists. split; [vm_compute; reflexivity|].
  intros [].
Qed.

(** In [no_tty], where another group owns the terminal: the stopped job
    of slot 1 gives the message; a slot that does not exist gives
    nothing, and neither does it in [stopped_bg], where the shell owns
    the terminal and slot 0 is free. *)
Lemma resume_without_control_witness :
  resumejob 1 false [] no_tty
  = Done (false, emit (EMsg No_task_control) no_tty, [])
  /\ resumejob 5 false [] no_tty = Done (false, no_tty, [])
  /\ resumejob 5 false [] stopped_bg = Done (false, stopped_bg, []).
Proof.
  destruct (resume_without_control 1 false [] no_tty) as (Hmsg & _ & _).
  destruct (resume_without_control 5 false [] no_tty) as (_ & _ & Hout).
  destruct (resume_without_control 5 false [] stopped_bg) as (_ & _ & Hout').
  split; [|split].
  - apply (Hmsg job.zero vi_job);
      [reflexivity|left; discriminate|now vm_compute|reflexivity|discriminate].
  - apply Hout. vm_compute. discriminate.
  - apply Hout'. vm_compute. discriminate.
Defined.

(** [resumejob 1] on [stopped_bg] gives the terminal the modes of the job
    and enters [monitorjob] in the world [resumed_fg]. *)
Lemma resumejob_enters_monitor :
  resumejob 1 false [continues; exits_7] stopped_bg
  = '(_, w, evs) ← monitorjob [exits_7] resumed_fg; Done (true, w, evs).
Proof. vm_compute. reflexivity. Qed.

(** That call of [monitorjob] returns with the terminal in other modes
    than it had when the call was made. *)
Lemma monitorjob_leaves_other_modes :
  exists code w',
    monitorjob [exits_7] resumed_fg = Done (code, w', [])
    /\ tty_pgrp w' = pgrp resumed_fg
    /\ tty_tmodes resumed_fg = 9
    /\ tty_tmodes w' = 0
    /\ tty_tmodes w' <> tty_tmodes resumed_fg.
Proof.
  eexists _, _. split; [vm_compute; reflexivity|].
  split; [reflexivity|]. split; [reflexivity|].
  split; [reflexivity|discriminate].
Qed.

Lemma monitorjob_restores_shell_witness :
  exists code w' evs',
    monitorjob [stops] fg_running = Done (code, w', evs')
    /\ tty_pgrp w' = 1 /\ tty_tmodes w' = 0.
Proof.
  eexists _, _, _. split; [vm_compute; reflexivity|].
  apply (monitorjob_restores_shell [stops] fg_running 0 _ []).
  vm_compute. reflexivity.
Defined.

(** The foreground job of [fg_running] stops: it goes to slot 1 with the
    modes 9 that the terminal was in, and slot 0 is cleared. *)
Lemma monitorjob_moves_stopped_job_witness :
  exists w1 w' moved,
    monitor_wait [stops] 0 (set_tty_pgrp 100 fg_running)
      = Done (STOPPED, 0, w1, [])
    /\ tty_tmodes w1 = 9
    /\ monitorjob [stops] fg_running = Done (0, w', [])
    /\ jobs w' = [job.zero; moved]
    /\ job.tmodes moved = 9
    /\ job.pgid moved = 100
    /\ job.proc moved = [proc.mk 100 STOPPED 5247]
    /\ job.state moved = STOPPED
    /\ job.command moved = Some "cat"%string
    /\ trace w' = [EMsg (Suspended 1 (Some "cat"%string))]
    /\ tty_pgrp w' = 1 /\ tty_tmodes w' = 0.
Proof.
  assert (Hw : exists w1,
            monitor_wait [stops] 0 (set_tty_pgrp 100 fg_running)
              = Done (STOPPED, 0, w1, [])
            /\ tty_tmodes w1 = 9
            /\ jobs w1 = [job.mk header 100 [proc.mk 100 STOPPED 5247] 0
                            STOPPED (Some "cat"%string)])
    by (eexists; split; [vm_compute; reflexivity|split; reflexivity]).
  destruct Hw as (w1 & Hw & Hmodes & Hj1).
  destruct (monitorjob_moves_stopped_job [stops] fg_running cat_job 0
              w1 [] header_distinct eq_refl Hw)
    as (fg & to & w' & Hm & Hfg & _ & Hto & Hfree
        & (moved & Hmoved & Htm' & Hpg' & Hpr' & Hst' & Hcmd')
        & Hzero & _ & Htr & Hpg & Htm).
  rewrite Hj1 in Hfg. injection Hfg as <-.
  assert (Hto1 : to = 1%nat).
  { destruct Hfree as [(b & Hb & _)|Hlen].
    - rewrite Hj1 in Hb. destruct to as [|[|to]]; [lia|discriminate..].
    - now rewrite Hj1 in Hlen. }
  subst to.
  assert (Hjobs : jobs w' = [job.zero; moved]).
  { assert (Hr : exists r, monitorjob [stops] fg_running = Done r
                           /\ length (jobs (snd (fst r))) = 2%nat)
      by (eexists; split; [vm_compute; reflexivity|reflexivity]).
    destruct Hr as ([[c w2] e2] & Hr & Hlen). rewrite Hm in Hr.
    injection Hr as <- <- <-. simpl in Hlen.
    destruct (jobs w') as [|a [|b [|? ?]]]; try discriminate Hlen.
    simpl in Hzero, Hmoved. congruence. }
  exists w1, w', moved. rewrite Hmodes in Htm'.
  split; [exact Hw|]. split; [exact Hmodes|]. split; [exact Hm|].
  split; [exact Hjobs|]. split; [exact Htm'|]. split; [exact Hpg'|].
  split; [exact Hpr'|]. split; [exact Hst'|]. split; [exact Hcmd'|].
  split; [exact Htr|]. split; [exact Hpg|exact Htm].
Defined.

Lemma not_in_list {A} (x : A) (l : list A) : ~ In x l -> x ∉ l.
Proof. intros Hn Hin. now apply list_elem_of_In in Hin. Qed.

Lemma word_stage_ok (x : string) : stage_ok [Word x].
Proof.
  split; [discriminate|]. apply not_in_list. intros [E|[]]. discriminate.
Qed.

Lemma abc_ok : Forall stage_ok abc.
Proof.
  unfold abc.
  constructor; [apply word_stage_ok|].
  constructor; [apply word_stage_ok|].
  constructor; [apply word_stage_ok|].
  constructor.
Qed.

(** [a | b | c] in the background, the children being 10, 11 and 12. *)
Lemma pipeline_registers_stages_witness :
  exists job p w' b,
    pipeline_launch abc_toks 5 true [10; 11; 12] boot = Done (job, p, w')
    /\ jobs w' !! Z.to_nat job = Some b
    /\ job.proc b = [fresh_proc 10; fresh_proc 11; fresh_proc 12]
    /\ job.pgid b = 10.
Proof.
  assert (Hl : exists r,
            pipeline_launch abc_toks 5 true [10; 11; 12] boot = Done r)
    by (eexists; vm_compute; reflexivity).
  destruct Hl as [[[job p] w'] Hl].
  destruct (pipeline_registers_stages abc [NULL] abc_toks 5 true [10; 11; 12]
              boot job p w') as (b & _ & Hb & Hprocs & _ & Hpg & _);
    [simpl; lia|exact abc_ok|reflexivity|reflexivity|exact Hl|].
  exists job, p, w', b. split; [exact Hl|]. split; [exact Hb|].
  split; [exact Hprocs|]. simpl in Hpg. now injection Hpg as <-.
Defined.

(** The same pipeline in the foreground: what [do_pipeline] returns is the
    status of [c], whose exit code is 7. *)
Lemma pipeline_exit_code_is_last :
  exists w',
    do_pipeline abc_toks 5 false [10; 11; 12] abc_exit boot
      = Done (1792, w', [])
    /\ WEXITSTATUS 1792 = 7.
Proof. eexists. split; vm_compute; reflexivity. Qed.

(** [echo hi > out there]: the command is [echo hi]. *)
Lemma do_redir_keeps_prefix_witness :
  exists toks' input' output' w',
    do_redir echo_out 0 5 (-1) (-1) with_out
      = Done (2, toks', input', output', w')
    /\ argv_of toks' = [Word "echo"; Word "hi"].
Proof.
  eexists _, _, _, _. split; [vm_compute; reflexivity|].
  destruct (do_redir_keeps_prefix echo_out 0 5 (-1) (-1) with_out 2 _ _ _ _
              (Z.le_refl 0) eq_refl) as (_ & _ & _ & Hargv).
  apply Hargv. apply not_in_list. simpl. intuition discriminate.
Defined.

(** The same tokens: [out] is opened and keeps its five bytes; two bytes
    written through the descriptor replace the first two. *)
Lemma do_redir_output_not_truncated_witness :
  exists n toks' input' output' w' w'',
    do_redir echo_out 0 5 (-1) (-1) with_out
      = Done (n, toks', input', output', w')
    /\ file_lookup "out" (files w') = Some [1; 2; 3; 4; 5]
    /\ sys_write output' [9; 9] w' = Some w''
    /\ file_lookup "out" (files w'') = Some [9; 9; 3; 4; 5].
Proof.
  assert (Hr : exists r, do_redir echo_out 0 5 (-1) (-1) with_out = Done r)
    by (eexists; vm_compute; reflexivity).
  destruct Hr as [[[[[n toks'] input'] output'] w'] Hr].
  destruct (do_redir_output_not_truncated echo_out 0 5 (-1) (-1) with_out
              n toks' input' output' w')
    as (_ & _ & _ & _ & _ & _ & Hfiles & Hout);
    [lia|repeat split; left; lia|exact Hr|].
  destruct (Hout "out"%string eq_refl) as (_ & Hwrite).
  destruct (Hwrite [1; 2; 3; 4; 5] [9; 9] eq_refl) as (w'' & Hw & Hc).
  exists n, toks', input', output', w', w''.
  split; [exact Hr|]. split; [now apply Hfiles|]. split; [exact Hw|exact Hc].
Defined.

End Runs.

(** * More of the registry *)

Section Slots.
Context `{H : shell_h}.

Lemma find_free_lowest (js : list job.t) : forall j,
  match find_free j js with
  | Some t =>
      j <= t
      /\ (exists b, js !! Z.to_nat (t - j) = Some b /\ job.pgid b = 0)
      /\ (forall (i : nat) b, (i < Z.to_nat (t - j))%nat ->
            js !! i = Some b -> job.pgid b <> 0)
  | None => forall (i : nat) b, js !! i = Some b -> job.pgid b <> 0
  end.
Proof.
  induction js as [|a js IH]; intros j; simpl; [intros i b; done|].
  destruct (Z.eqb_spec (job.pgid a) 0) as [e|ne].
  - split; [lia|]. rewrite Z.sub_diag. split; [now exists a|].
    intros i b Hi. simpl in Hi. lia.
  - specialize (IH (j + 1)). destruct (find_free (j + 1) js) as [t|].
    + destruct IH as (Hle & (b & Hb & Hp) & Hlow). split; [lia|].
      replace (Z.to_nat (t - j)) with (S (Z.to_nat (t - (j + 1)))) by lia.
      split; [now exists b|].
      intros [|i] b' Hi Hl; [now injection Hl as <-|].
      apply (Hlow i); [lia|exact Hl].
    + intros [|i] b Hl; [now injection Hl as <-|]. now apply (IH i).
Qed.

(** X1. [allocjob] returns the lowest background slot that is free, and
    changes nothing then; when every background slot is taken it appends
    one cleared slot and returns that.  It never returns slot 0 and never
    removes or changes a slot that is there. *)
Theorem allocjob_lowest_free (w : world) to w' :
  jobs w <> [] ->
  allocjob w = (to, w') ->
  1 <= to
  /\ (forall (i : nat) b, (1 <= i)%nat -> Z.of_nat i < to ->
        jobs w !! i = Some b -> job.pgid b <> 0)
  /\ ((to < njobmax w /\ w' = w
       /\ exists b, jobs w !! Z.to_nat to = Some b /\ job.pgid b = 0)
      \/ (to = njobmax w /\ jobs w' = jobs w ++ [job.zero]))
  /\ (forall (i : nat) b, jobs w !! i = Some b -> jobs w' !! i = Some b).
Proof.
  intros Hne. unfold allocjob, BG.
  assert (Hlen : (0 < length (jobs w))%nat)
    by (destruct (jobs w); [done|simpl; lia]).
  pose proof (find_free_lowest (drop (Z.to_nat 1) (jobs w)) 1) as Hf.
  destruct (find_free 1 (drop (Z.to_nat 1) (jobs w))) as [t|].
  - destruct Hf as (Hle & (b & Hb & Hp) & Hlow). intros [= <- <-].
    rewrite lookup_drop in Hb.
    replace (Z.to_nat 1 + Z.to_nat (t - 1))%nat with (Z.to_nat t) in Hb by lia.
    split; [exact Hle|]. split; [|split; [|auto]].
    + intros i b' Hi Hit Hl. apply (Hlow (i - 1)%nat b'); [lia|].
      rewrite lookup_drop. rewrite <- Hl. f_equal. lia.
    + left. apply lookup_lt_Some in Hb as Hlt. unfold njobmax.
      split; [lia|]. split; [reflexivity|]. now exists b.
  - intros [= <- <-]. unfold njobmax. split; [lia|]. split; [|split].
    + intros i b' Hi _ Hl. apply (Hf (i - 1)%nat b').
      rewrite lookup_drop. rewrite <- Hl. f_equal. lia.
    + right. auto.
    + intros i b Hl. simpl. rewrite lookup_app_l; [exact Hl|].
      now apply lookup_lt_Some in Hl.
Qed.

(** X2. A background slot that [jobstate] has cleared is used again: the
    next background job gets that slot or a lower one, and the registry
    has as many slots as before. *)
Theorem cleared_slot_is_reused (j status pgid : Z) (w : world) b :
  1 <= j ->
  jobs w !! Z.to_nat j = Some b ->
  job.state b = FINISHED ->
  job.proc b <> [] ->
  exists code w1 to w2 b2,
    jobstate j status w = Done (FINISHED, code, w1)
    /\ addjob pgid true w1 = (to, w2)
    /\ 1 <= to <= j
    /\ length (jobs w2) = length (jobs w)
    /\ jobs w2 !! Z.to_nat to = Some b2
    /\ job.pgid b2 = pgid /\ job.proc b2 = [] /\ job.state b2 = RUNNING.
Proof.
  intros Hj Hl Hs Hne.
  assert (Hlt : (Z.to_nat j < length (jobs w))%nat)
    by now apply lookup_lt_Some in Hl.
  set (cleared := job.mk _ 0 [] (job.tmodes b) (job.state b) None).
  set (w1 := put_job j cleared w).
  destruct (last (job.proc b)) as [p|] eqn:Hlast;
    [|apply last_None in Hlast; contradiction].
  assert (Hjs : jobstate j status w = Done (FINISHED, proc.exitcode p, w1)).
  { unfold jobstate.
    rewrite (lookup_in_range j w b ltac:(lia) Hl),
      (job_at_lookup j w b ltac:(lia) Hl). simpl.
    unfold exitcode, deljob. rewrite Hlast.
    replace (job.state b =? FINISHED) with true
      by (symmetry; now apply Z.eqb_eq).
    simpl. unfold w1, cleared. now rewrite Hs. }
  assert (Hw1 : jobs w1 !! Z.to_nat j = Some cleared)
    by (simpl; now apply list_lookup_insert_eq).
  assert (Hlen1 : length (jobs w1) = length (jobs w))
    by (simpl; apply length_insert).
  exists (proc.exitcode p), w1.
  unfold addjob, allocjob, BG.
  pose proof (find_free_lowest (drop (Z.to_nat 1) (jobs w1)) 1) as Hf.
  destruct (find_free 1 (drop (Z.to_nat 1) (jobs w1))) as [t|].
  - destruct Hf as (Hle & (b' & Hb' & Hp') & Hlow).
    rewrite lookup_drop in Hb'.
    replace (Z.to_nat 1 + Z.to_nat (t - 1))%nat with (Z.to_nat t) in Hb' by lia.
    assert (Htj : t <= j).
    { destruct (Z.le_gt_cases t j) as [|Hgt]; [assumption|exfalso].
      apply (Hlow (Z.to_nat (j - 1)) cleared); [lia| |reflexivity].
      rewrite lookup_drop. rewrite <- Hw1. f_equal. lia. }
    apply lookup_lt_Some in Hb' as Hlt'.
    eexists _, _, _. split; [exact Hjs|]. split; [reflexivity|].
    split; [lia|]. split; [simpl; now rewrite !length_insert|].
    split; [cbn [jobs put_job set_jobs]; apply list_lookup_insert_eq;
            exact Hlt'|].
    now repeat split.
  - exfalso. apply (Hf (Z.to_nat (j - 1)) cleared); [|reflexivity].
    rewrite lookup_drop. rewrite <- Hw1. f_equal. lia.
Qed.

(** X3. [movejob] refuses a target slot that is taken.  Into a free slot
    it moves the whole job and clears the slot it came from, and moving it
    back puts the job where it was. *)
Theorem movejob_there_and_back (from to : Z) (w : world) f t :
  0 <= from -> 0 <= to -> from <> to ->
  jobs w !! Z.to_nat from = Some f ->
  jobs w !! Z.to_nat to = Some t ->
  (job.pgid t <> 0 -> movejob from to w = Fault)
  /\ (job.pgid t = 0 ->
      exists w1 w2,
        movejob from to w = Done w1
        /\ jobs w1 !! Z.to_nat to = Some f
        /\ jobs w1 !! Z.to_nat from = Some job.zero
        /\ (forall i : nat, i <> Z.to_nat from -> i <> Z.to_nat to ->
              jobs w1 !! i = jobs w !! i)
        /\ movejob to from w1 = Done w2
        /\ jobs w2 !! Z.to_nat from = Some f
        /\ jobs w2 !! Z.to_nat to = Some job.zero
        /\ length (jobs w2) = length (jobs w)).
Proof.
  intros Hf0 Ht0 Hne Hf Ht.
  assert (Hlf : (Z.to_nat from < length (jobs w))%nat)
    by now apply lookup_lt_Some in Hf.
  assert (Hlt : (Z.to_nat to < length (jobs w))%nat)
    by now apply lookup_lt_Some in Ht.
  assert (Hnn : Z.to_nat from <> Z.to_nat to) by lia.
  split.
  - intros Hp. unfold movejob. rewrite (job_at_lookup to w t Ht0 Ht). simpl.
    now destruct (Z.eqb_spec (job.pgid t) 0).
  - intros Hp. unfold movejob at 1.
    rewrite (job_at_lookup to w t Ht0 Ht). simpl. rewrite Hp. simpl.
    rewrite (job_at_lookup from w f Hf0 Hf). simpl.
    set (w1 := put_job from job.zero (put_job to f w)).
    assert (H1t : jobs w1 !! Z.to_nat to = Some f).
    { simpl. rewrite list_lookup_insert_ne by lia.
      now apply list_lookup_insert_eq. }
    assert (H1f : jobs w1 !! Z.to_nat from = Some job.zero).
    { simpl. apply list_lookup_insert_eq. now rewrite length_insert. }
    exists w1. eexists. split; [reflexivity|]. split; [exact H1t|].
    split; [exact H1f|]. split.
    { intros i Hi1 Hi2. simpl. now rewrite !list_lookup_insert_ne by lia. }
    unfold movejob. rewrite (job_at_lookup from w1 job.zero Hf0 H1f). simpl.
    rewrite (job_at_lookup to w1 f Ht0 H1t). simpl.
    split; [reflexivity|].
    assert (Hl1 : length (jobs w1) = length (jobs w))
      by (simpl; now rewrite !length_insert).
    cbn [jobs put_job set_jobs]. split; [|split].
    + rewrite list_lookup_insert_ne by lia.
      apply list_lookup_insert_eq. lia.
    + apply list_lookup_insert_eq. rewrite length_insert. lia.
    + rewrite !length_insert. exact Hl1.
Qed.

End Slots.

Section Reaping.
Context `{H : shell_h}.

(** A relation between a job before and after that holds across the two
    things the handler does to a job holds across the handler. *)
Section Across.
Variable R : job.t -> job.t -> Prop.
Hypothesis R_refl : forall b, R b b.
Hypothesis R_trans : forall a b c, R a b -> R b c -> R a c.
Hypothesis R_scan : forall pid status d b,
  R b (set_proc (snd (scan_procs pid status d (job.proc b))) b).
Hypothesis R_recompute : forall b, R b (recompute b).

Lemma Forall2_refl_R (js : list job.t) : Forall2 R js js.
Proof. induction js; constructor; auto. Qed.

Lemma Forall2_trans_R (l1 l2 l3 : list job.t) :
  Forall2 R l1 l2 -> Forall2 R l2 l3 -> Forall2 R l1 l3.
Proof.
  intros H12. revert l3.
  induction H12 as [|a b l1 l2 Hab _ IH]; intros l3 H23;
    inversion H23 as [|? c ? l3' Hbc H23']; subst; constructor; eauto.
Qed.

Lemma scan_jobs_across pid status (js : list job.t) : forall i d n,
  Forall2 R js (snd (scan_jobs pid status i d n js)).
Proof.
  induction js as [|b js IH]; intros i d n; simpl; [constructor|].
  destruct d; [apply Forall2_refl_R|].
  pose proof (R_scan pid status false b) as Hb.
  destruct (scan_procs pid status false (job.proc b)) as [d' ps].
  specialize (IH (i + 1) d' (if d' then i else n)).
  destruct (scan_jobs pid status (i + 1) d' (if d' then i else n) js).
  simpl in *. now constructor.
Qed.

Lemma alter_across (js1 js : list job.t) : forall k : nat,
  Forall2 R js js1 -> Forall2 R js (alter recompute k js1).
Proof.
  intros k Hf. revert k.
  induction Hf as [|b b1 js js1 Hb Hjs IH]; intros k; [constructor|].
  destruct k as [|k]; simpl; constructor; eauto.
Qed.

Lemma sigchld_step_across pid status (js : list job.t) :
  Forall2 R js (sigchld_step pid status js).
Proof.
  unfold sigchld_step. pose proof (scan_jobs_across pid status js 0 false 0).
  destruct (scan_jobs pid status 0 false 0 js) as [n js1].
  now apply alter_across.
Qed.

Lemma handler_across reaped : forall js : list job.t,
  Forall2 R js
    (fold_left (fun js r => sigchld_step (fst r) (snd r) js) reaped js).
Proof.
  induction reaped as [|r reaped IH]; intros js; simpl.
  - apply Forall2_refl_R.
  - eapply Forall2_trans_R; [apply sigchld_step_across|apply IH].
Qed.

End Across.

Lemma recompute_proc (b : job.t) : job.proc (recompute b) = job.proc b.
Proof.
  unfold recompute.
  repeat match goal with |- context [if ?c then _ else _] =>
    destruct c end; reflexivity.
Qed.

Lemma handler_jobs_frame reaped (js : list job.t) :
  Forall2 same_but_states js
    (fold_left (fun js r => sigchld_step (fst r) (snd r) js) reaped js).
Proof.
  apply handler_across.
  - intros b. now repeat split.
  - intros a b c (? & ? & ? & ?) (? & ? & ? & ?). repeat split; congruence.
  - intros pid status d b. repeat split; try reflexivity.
    unfold pids_of. simpl. apply scan_procs_pids.
  - intros b. repeat split; try (unfold recompute;
      repeat match goal with |- context [if ?c then _ else _] =>
        destruct c end; reflexivity).
Qed.

(** X4. Whatever it reaps, the handler adds and removes no slot and no
    entry, and it changes no pid, no group, no saved terminal mode and no
    command: states and exit codes are all it writes.  The terminal, the
    descriptors, the files and the trace stay as they are. *)
Theorem sigchld_handler_writes_states_only reaped (w : world) :
  let w' := sigchld_handler reaped w in
  Forall2 same_but_states (jobs w) (jobs w')
  /\ length (jobs w') = length (jobs w)
  /\ tty_pgrp w' = tty_pgrp w /\ tty_tmodes w' = tty_tmodes w
  /\ shell_tmodes w' = shell_tmodes w /\ pgrp w' = pgrp w
  /\ fdt w' = fdt w /\ files w' = files w /\ trace w' = trace w.
Proof.
  intros w'. pose proof (handler_jobs_frame reaped (jobs w)) as Hf.
  split; [exact Hf|]. split; [|now repeat split].
  symmetry. exact (Forall2_length _ _ _ Hf).
Qed.

Lemma scan_jobs_miss pid status (js : list job.t) : forall i n,
  Forall (fun b => ~ owns b pid) js ->
  scan_jobs pid status i false n js = (n, js).
Proof.
  induction js as [|b js IH]; intros i n Hno; simpl; [reflexivity|].
  inversion Hno as [|? ? Hb Hjs]; subst.
  rewrite (scan_procs_miss _ _ _ Hb), (IH (i + 1) n Hjs), set_proc_same.
  reflexivity.
Qed.

(** X5. A child that no job has an entry for changes no entry: the
    handler only recomputes the state of slot 0 from the entries it has,
    and every other slot stays as it is. *)
Theorem sigchld_unknown_pid pid status (js : list job.t) :
  Forall (fun b => ~ owns b pid) js ->
  sigchld_step pid status js = alter recompute O js
  /\ forall (i : nat) b, js !! i = Some b ->
       exists b', sigchld_step pid status js !! i = Some b'
         /\ job.proc b' = job.proc b
         /\ (i <> O -> b' = b).
Proof.
  intros Hno. unfold sigchld_step. rewrite (scan_jobs_miss _ _ _ _ _ Hno).
  change (Z.to_nat 0) with O.
  split; [reflexivity|]. intros i b Hb.
  destruct i as [|i].
  - rewrite list_lookup_alter_eq, Hb. simpl. eexists. split; [reflexivity|].
    split; [|done]. unfold recompute.
    repeat match goal with |- context [if ?c then _ else _] =>
      destruct c end; reflexivity.
  - rewrite list_lookup_alter_ne by lia. now exists b.
Qed.

End Reaping.

Section Invariants.
Context `{H : shell_h}.

Lemma addjob_jobs pgid bg (w : world) j w' :
  addjob pgid bg w = (j, w') ->
  exists js0, (js0 = jobs w \/ js0 = jobs w ++ [job.zero])
    /\ jobs w' = <[Z.to_nat j :=
                    job.mk _ pgid [] (shell_tmodes w) RUNNING None]> js0.
Proof.
  unfold addjob, allocjob. destruct bg.
  - destruct (find_free BG (drop (Z.to_nat BG) (jobs w))); intros [= <- <-];
      eexists; (split; [|reflexivity]); auto.
  - intros [= <- <-]. eexists. split; [|reflexivity]. auto.
Qed.

Lemma jobstate_jobs (j status : Z) (w : world) state code w' :
  jobstate j status w = Done (state, code, w') ->
  jobs w' = jobs w
  \/ exists b, jobs w !! Z.to_nat j = Some b /\ job.state b = FINISHED
       /\ jobs w' = <[Z.to_nat j :=
                       job.mk _ 0 [] (job.tmodes b) (job.state b) None]>
                     (jobs w).
Proof.
  unfold jobstate. intros Hj.
  apply bind_Done in Hj as ([] & _ & Hj).
  apply bind_Done in Hj as (b & Hb & Hj).
  unfold job_at in Hb. destruct (0 <=? j); [|discriminate].
  destruct (jobs w !! Z.to_nat j) as [b0|] eqn:Hl; [|discriminate].
  injection Hb as ->.
  destruct (Z.eqb_spec (job.state b) FINISHED) as [e|ne].
  - apply bind_Done in Hj as (c & _ & Hj).
    apply bind_Done in Hj as (b' & Hd & Hj). injection Hj as _ _ <-.
    unfold deljob in Hd. apply bind_Done in Hd as ([] & _ & Hd).
    injection Hd as <-. right. now exists b.
  - injection Hj as _ _ <-. now left.
Qed.

Lemma movejob_jobs (from to : Z) (w : world) w' :
  movejob from to w = Done w' ->
  exists f, jobs w !! Z.to_nat from = Some f
    /\ jobs w' = <[Z.to_nat from := job.zero]>
                   (<[Z.to_nat to := f]> (jobs w)).
Proof.
  unfold movejob. intros Hm.
  apply bind_Done in Hm as (t & _ & Hm).
  apply bind_Done in Hm as ([] & _ & Hm).
  apply bind_Done in Hm as (f & Hf & Hm). injection Hm as <-.
  unfold job_at in Hf. destruct (0 <=? from); [|discriminate].
  destruct (jobs w !! Z.to_nat from) as [f0|] eqn:Hl; [|discriminate].
  injection Hf as ->. now exists f.
Qed.

Lemma handler_length reaped (w : world) :
  length (jobs (sigchld_handler reaped w)) = length (jobs w).
Proof.
  symmetry. exact (Forall2_length _ _ _ (handler_jobs_frame reaped (jobs w))).
Qed.

(** X6. Along every history of the registry, whatever [addjob],
    [addproc], the handler and [jobstate] do in whatever order, the
    number of slots never goes down. *)
Theorem run_never_shrinks ops : forall (w : world) log w' log',
  run ops w log = Done (w', log') ->
  (length (jobs w) <= length (jobs w'))%nat.
Proof.
  induction ops as [|o ops IH]; intros w log w' log' Hrun; simpl in Hrun.
  - injection Hrun as <- <-. lia.
  - destruct o as [pgid bg|j pid argv|reaped|j].
    + destruct (addjob pgid bg w) as [j w1] eqn:Ha.
      apply addjob_jobs in Ha as (js0 & Hjs0 & Hj1).
      apply IH in Hrun. rewrite Hj1, length_insert in Hrun.
      destruct Hjs0 as [->| ->]; [lia|]. rewrite length_app in Hrun.
      simpl in Hrun. lia.
    + apply bind_Done in Hrun as (w1 & Hp & Hrun).
      apply addproc_inv in Hp as (_ & b & cmd & _ & Hj1).
      apply IH in Hrun. now rewrite Hj1, length_insert in Hrun.
    + apply IH in Hrun. now rewrite handler_length in Hrun.
    + apply bind_Done in Hrun as ([[st c] w1] & Hj & Hrun).
      apply IH in Hrun.
      apply jobstate_jobs in Hj as [Hj|(b & _ & _ & Hj)]; rewrite Hj in Hrun;
        [lia|]. now rewrite length_insert in Hrun.
Qed.

Lemma scan_procs_valid pid status ps : forall d,
  Forall (fun p => valid_state (proc.state p)) ps ->
  Forall (fun p => valid_state (proc.state p))
    (snd (scan_procs pid status d ps)).
Proof.
  induction ps as [|q ps IH]; intros d Hv; simpl; [constructor|].
  destruct d; [exact Hv|]. inversion Hv as [|? ? Hq Hps]; subst.
  destruct (proc.pid q =? pid).
  - specialize (IH true Hps). destruct (scan_procs pid status true ps).
    simpl in *. constructor; [|exact IH].
    unfold reap, valid_state.
    repeat match goal with |- context [if ?c then _ else _] =>
      destruct c end; simpl; tauto.
  - specialize (IH false Hps). destruct (scan_procs pid status false ps).
    simpl in *. now constructor.
Qed.

Lemma handler_valid reaped (js : list job.t) :
  entries_valid js ->
  entries_valid
    (fold_left (fun js r => sigchld_step (fst r) (snd r) js) reaped js).
Proof.
  intros Hv.
  assert (Hf : Forall2 (fun b b' =>
            Forall (fun p => valid_state (proc.state p)) (job.proc b) ->
            Forall (fun p => valid_state (proc.state p)) (job.proc b')) js
            (fold_left (fun js r => sigchld_step (fst r) (snd r) js) reaped js)).
  { apply (handler_across (fun b b' =>
            Forall (fun p => valid_state (proc.state p)) (job.proc b) ->
            Forall (fun p => valid_state (proc.state p)) (job.proc b'))).
    - auto.
    - auto.
    - intros pid status d b Hb. simpl. now apply scan_procs_valid.
    - intros b Hb. now rewrite recompute_proc. }
  unfold entries_valid in *.
  induction Hf as [|b b' l l' Hb _ IH]; [constructor|].
  inversion Hv; subst. constructor; auto.
Qed.

(** X7. Along every history of the registry every entry stays in one of
    the three states RUNNING, STOPPED and FINISHED. *)
Theorem run_keeps_entries_valid ops : forall (w : world) log w' log',
  entries_valid (jobs w) ->
  run ops w log = Done (w', log') ->
  entries_valid (jobs w').
Proof.
  induction ops as [|o ops IH]; intros w log w' log' Hv Hrun; simpl in Hrun.
  - now injection Hrun as <- <-.
  - destruct o as [pgid bg|j pid argv|reaped|j].
    + destruct (addjob pgid bg w) as [j w1] eqn:Ha.
      apply addjob_jobs in Ha as (js0 & Hjs0 & Hj1).
      apply IH in Hrun; [exact Hrun|]. rewrite Hj1.
      apply Forall_insert; [|constructor].
      destruct Hjs0 as [->| ->]; [exact Hv|].
      apply Forall_app. split; [exact Hv|]. constructor; constructor.
    + apply bind_Done in Hrun as (w1 & Hp & Hrun).
      apply addproc_inv in Hp as (_ & b & cmd & Hb & Hj1).
      apply IH in Hrun; [exact Hrun|]. rewrite Hj1.
      apply Forall_insert; [exact Hv|]. simpl.
      apply Forall_app. split.
      * unfold entries_valid in Hv. rewrite Forall_lookup in Hv.
        exact (Hv _ _ Hb).
      * constructor; [|constructor]. right. right. reflexivity.
    + apply IH in Hrun; [exact Hrun|]. now apply handler_valid.
    + apply bind_Done in Hrun as ([[st c] w1] & Hj & Hrun).
      apply IH in Hrun; [exact Hrun|].
      apply jobstate_jobs in Hj as [Hj|(b & _ & _ & Hj)]; rewrite Hj;
        [exact Hv|]. apply Forall_insert; [exact Hv|constructor].
Qed.

Lemma handler_free_ok reaped (js : list job.t) :
  Forall free_ok js ->
  Forall free_ok
    (fold_left (fun js r => sigchld_step (fst r) (snd r) js) reaped js).
Proof.
  intros Hv.
  assert (Hf : Forall2 (fun b b' => job.proc b = [] -> b' = b) js
            (fold_left (fun js r => sigchld_step (fst r) (snd r) js) reaped js)).
  { apply (handler_across (fun b b' => job.proc b = [] -> b' = b)).
    - auto.
    - intros a b c Hab Hbc Ha. specialize (Hab Ha). subst b. now apply Hbc.
    - intros pid status d b Hb. rewrite Hb. simpl. rewrite <- Hb.
      now destruct b.
    - intros b Hb. unfold recompute. rewrite Hb. reflexivity. }
  pose proof (handler_jobs_frame reaped js) as Hfr.
  revert Hfr Hv. induction Hf as [|b b' l l' Hb _ IH]; intros Hfr Hv;
    [constructor|].
  inversion Hv as [|? ? Hbok Hl]; subst.
  inversion Hfr as [|? ? ? ? (Hpg & _) Hfr']; subst.
  constructor; [|now apply IH].
  intros Hp. rewrite Hpg in Hp. destruct (Hbok Hp) as [Hs Hpr].
  rewrite (Hb Hpr). auto.
Qed.

(** X8. Where FINISHED is 0, the state that a cleared slot reads, every
    free slot reads as a finished job without entries, and stays so: a
    call of [initjobs] that returns leaves it so, and [addjob] for a
    group other than 0, [addproc] on a slot that is taken, the handler,
    [jobstate] and [movejob] keep it. *)
Theorem free_slots_read_finished (w : world) :
  FINISHED = 0 ->
  Forall free_ok (jobs w) ->
  (forall w0 w1 : world, initjobs w0 = Done w1 ->
     njobmax w1 = njobmax w0 /\ Forall free_ok (jobs w1))
  /\ (forall pgid bg, pgid <> 0 ->
        Forall free_ok (jobs (snd (addjob pgid bg w))))
  /\ (forall j pid argv b w', jobs w !! Z.to_nat j = Some b ->
        job.pgid b <> 0 -> addproc j pid argv w = Done w' ->
        Forall free_ok (jobs w'))
  /\ (forall reaped, Forall free_ok (jobs (sigchld_handler reaped w)))
  /\ (forall j status state code w',
        jobstate j status w = Done (state, code, w') ->
        Forall free_ok (jobs w'))
  /\ (forall from to w', movejob from to w = Done w' ->
        Forall free_ok (jobs w')).
Proof.
  intros Hz Hv.
  assert (Hzero : free_ok job.zero) by (intros _; simpl; auto).
  split.
  { intros w0 w1. unfold initjobs.
    destruct (Z.eqb_spec (njobmax w0) 1) as [e|ne]; [|discriminate].
    cbn [assert mbind outcome_bind]. intros [= <-]. split.
    - rewrite e. reflexivity.
    - constructor; [exact Hzero|constructor]. }
  split; [|split; [|split; [|split]]].
  - intros pgid bg Hpg. destruct (addjob pgid bg w) as [j w1] eqn:Ha.
    apply addjob_jobs in Ha as (js0 & Hjs0 & Hj1). simpl. rewrite Hj1.
    apply Forall_insert; [|intros Hp; simpl in Hp; contradiction].
    destruct Hjs0 as [->| ->]; [exact Hv|].
    apply Forall_app. split; [exact Hv|]. constructor; [exact Hzero|constructor].
  - intros j pid argv b w' Hb Hpg Hp.
    apply addproc_inv in Hp as (_ & b0 & cmd & Hb0 & Hj1).
    assert (b0 = b) by congruence. subst b0. rewrite Hj1.
    apply Forall_insert; [exact Hv|]. intros Hp. simpl in Hp. contradiction.
  - intros reaped. simpl. now apply handler_free_ok.
  - intros j status state code w' Hj.
    apply jobstate_jobs in Hj as [Hj|(b & _ & Hs & Hj)]; rewrite Hj;
      [exact Hv|]. apply Forall_insert; [exact Hv|].
    intros _. simpl. auto.
  - intros from to w' Hm. apply movejob_jobs in Hm as (f & Hf & ->).
    apply Forall_insert; [|exact Hzero].
    destruct (decide (Z.to_nat to < length (jobs w))%nat) as [Hlt|Hge].
    + apply Forall_insert; [exact Hv|].
      rewrite Forall_lookup in Hv. exact (Hv _ _ Hf).
    + now rewrite list_insert_ge by lia.
Qed.

(** X9. In a registry whose free slots read as finished, [killjob] sends
    no signal to process group 0, which would be the group of the shell
    itself: every signal it sends goes to the group of a job that is
    there. *)
Theorem killjob_never_signals_group_0 (j : Z) (w : world) r w' :
  Forall free_ok (jobs w) ->
  killjob j w = Done (r, w') ->
  exists l, trace w' = trace w ++ l
    /\ forall target sig, In (EKill target sig) l -> target <> 0.
Proof.
  intros Hv. unfold killjob.
  destruct (njobmax w <=? j).
  { intros [= <- <-]. exists []. split; [now rewrite app_nil_r|]. intros ? ? []. }
  destruct (job_at j w) as [b| |] eqn:Hb; [simpl|discriminate..].
  unfold job_at in Hb. destruct (0 <=? j); [|discriminate].
  destruct (jobs w !! Z.to_nat j) as [b0|] eqn:Hl; [|discriminate].
  injection Hb as ->.
  destruct (Z.eqb_spec (job.state b) FINISHED) as [e|ne].
  { intros [= <- <-]. exists []. split; [now rewrite app_nil_r|]. intros ? ? []. }
  assert (Hpg : job.pgid b <> 0).
  { intros Hp. rewrite Forall_lookup in Hv. now destruct (Hv _ _ Hl Hp). }
  intros [= <- <-].
  exists (EKill (- job.pgid b) SIGTERM ::
          (if job.state b =? STOPPED
           then [EKill (- job.pgid b) SIGCONT] else [])).
  split.
  - destruct (job.state b =? STOPPED); simpl; [|reflexivity].
    now rewrite <- app_assoc.
  - intros target sig Hin.
    destruct (job.state b =? STOPPED); simpl in Hin;
      repeat destruct Hin as [Hin|Hin]; try injection Hin as <- _;
      try lia; try contradiction.
Qed.

End Invariants.

Section Watching.
Context `{H : shell_h}.
Variable ALL : Z.

Lemma set_jobs_same (w : world) : set_jobs (jobs w) w = w.
Proof. now destruct w. Qed.

Lemma set_jobs_twice js js' (w : world) :
  set_jobs js (set_jobs js' w) = set_jobs js w.
Proof. reflexivity. Qed.

Lemma sweep_not_finished (b : job.t) : finished_job (sweep b) = false.
Proof.
  unfold sweep. destruct (finished_job b) eqn:E; [|exact E].
  unfold finished_job. simpl. reflexivity.
Qed.

Lemma sweep_sweep (b : job.t) : sweep (sweep b) = sweep b.
Proof.
  unfold sweep at 1. now rewrite sweep_not_finished.
Qed.

Lemma sweep_watchable (b : job.t) : watchable b -> watchable (sweep b).
Proof.
  unfold sweep. destruct (finished_job b); [|auto].
  intros _ Hp. simpl in Hp. contradiction.
Qed.

(** One round of the [for] of [watchjobs] on the slot after [pre]. *)
Lemma watch_body_spec which (pre suf : list job.t) b out (w : world) :
  jobs w = pre ++ b :: suf ->
  watchable b ->
  exists line,
    watch_body ALL which (Z.of_nat (length pre)) out w
    = Done (out ++ line, set_jobs (pre ++ sweep b :: suf) w)
    /\ (which = ALL -> length line = if occupied b then 1%nat else O)
    /\ (which <> ALL -> which = FINISHED ->
          line = finished_reports (Z.of_nat (length pre)) [b])
    /\ (which <> ALL -> which <> FINISHED -> line = []).
Proof.
  intros Hjs Hb. set (j := Z.of_nat (length pre)).
  assert (Hl : jobs w !! Z.to_nat j = Some b).
  { unfold j. rewrite Nat2Z.id, Hjs. apply list_lookup_middle. reflexivity. }
  assert (Hj : 0 <= j) by (unfold j; lia).
  unfold watch_body. rewrite (job_at_lookup _ _ _ Hj Hl). simpl.
  unfold finished_reports, sweep, finished_job, occupied.
  destruct (Z.eqb_spec (job.pgid b) 0) as [e|ne]; simpl.
  { exists []. rewrite app_nil_r, <- Hjs, set_jobs_same. auto. }
  destruct (Hb ne) as [Hc Hp].
  unfold jobcmd, jobstate.
  rewrite (lookup_in_range _ _ _ Hj Hl), (job_at_lookup _ _ _ Hj Hl). simpl.
  destruct (job.command b) as [cmd|] eqn:Ecmd; [simpl|contradiction].
  destruct (Z.eqb_spec (job.state b) FINISHED) as [e|ne'].
  - unfold exitcode, deljob.
    destruct (last (job.proc b)) as [p|] eqn:El.
    2:{ apply last_None in El. now destruct (Hp e). }
    simpl. rewrite e, Z.eqb_refl. simpl.
    exists (watch_print ALL which j cmd FINISHED (proc.exitcode p) []).
    split; [|split; [|split]].
    + f_equal. f_equal.
      * unfold watch_print.
        repeat match goal with |- context [if ?c then _ else _] =>
          destruct c end; now rewrite ?app_nil_r.
      * unfold put_job. f_equal. unfold j. rewrite Nat2Z.id, Hjs.
        rewrite <- e.
        replace (length pre) with (length pre + 0)%nat at 1 by lia.
        now rewrite insert_app_r.
    + intros ->. unfold watch_print. now rewrite !Z.eqb_refl.
    + intros Hna ->. unfold watch_print.
      destruct (Z.eqb_spec FINISHED ALL); [contradiction|].
      now rewrite Z.eqb_refl.
    + intros Hna Hnf. unfold watch_print.
      destruct (Z.eqb_spec which ALL); [contradiction|].
      now destruct (Z.eqb_spec which FINISHED).
  - cbn [mbind outcome_bind negb andb].
    exists (watch_print ALL which j cmd (job.state b) 0 []).
    split; [|split; [|split]].
    + f_equal. f_equal.
      * unfold watch_print.
        repeat match goal with |- context [if ?c then _ else _] =>
          destruct c end; now rewrite ?app_nil_r.
      * now rewrite <- Hjs, set_jobs_same.
    + intros ->. unfold watch_print. rewrite Z.eqb_refl.
      destruct (Z.eqb_spec (job.state b) FINISHED); [contradiction|].
      now destruct (job.state b =? STOPPED).
    + intros Hna ->. unfold watch_print.
      destruct (Z.eqb_spec FINISHED ALL); [contradiction|].
      rewrite Z.eqb_refl.
      now destruct (Z.eqb_spec (job.state b) FINISHED).
    + intros Hna Hnf. unfold watch_print.
      destruct (Z.eqb_spec which ALL); [contradiction|].
      now destruct (Z.eqb_spec which FINISHED).
Qed.

Lemma watch_for_spec which (suf : list job.t) : forall pre out (w : world),
  jobs w = pre ++ suf ->
  Forall watchable suf ->
  exists lines,
    watch_for ALL (length suf) which (Z.of_nat (length pre)) out w
    = Done (out ++ lines, set_jobs (pre ++ map sweep suf) w)
    /\ (which = ALL -> length lines = length (filter occupied suf))
    /\ (which <> ALL -> which = FINISHED ->
          lines = finished_reports (Z.of_nat (length pre)) suf)
    /\ (which <> ALL -> which <> FINISHED -> lines = []).
Proof.
  induction suf as [|b suf IH]; intros pre out w Hjs Hv.
  - exists []. simpl. rewrite app_nil_r, app_nil_r in *.
    rewrite <- Hjs, set_jobs_same. auto.
  - inversion Hv as [|? ? Hb Hsuf]; subst.
    destruct (watch_body_spec which pre suf b out w Hjs Hb)
      as (line & Hbody & Hall & Hfin & Hnone).
    cbn [watch_for length]. rewrite Hbody. cbn [mbind outcome_bind].
    destruct (IH (pre ++ [sweep b]) (out ++ line)
                (set_jobs (pre ++ sweep b :: suf) w)) as
      (lines & Hfor & Hall' & Hfin' & Hnone').
    { simpl. now rewrite <- app_assoc. }
    { exact Hsuf. }
    rewrite length_app in Hfor, Hfin'. simpl in Hfor, Hfin'.
    replace (Z.of_nat (length pre + 1)) with (Z.of_nat (length pre) + 1)
      in Hfor, Hfin' by lia.
    rewrite Hfor. exists (line ++ lines).
    split; [|split; [|split]].
    + rewrite set_jobs_twice, <- !app_assoc. reflexivity.
    + intros Hw. rewrite length_app, (Hall Hw), (Hall' Hw).
      rewrite filter_cons.
      destruct (decide (occupied b)) as [Ho|Ho]; destruct (occupied b);
        simpl in Ho; try contradiction; try reflexivity.
    + intros Hna Hw. rewrite (Hfin Hna Hw), (Hfin' Hna Hw).
      simpl. now rewrite app_nil_r.
    + intros Hna Hw. now rewrite (Hnone Hna Hw), (Hnone' Hna Hw).
Qed.

Lemma watchjobs_spec which (w : world) :
  Forall watchable (drop 1 (jobs w)) ->
  exists lines,
    watchjobs ALL which w
    = Done (lines, set_jobs (take 1 (jobs w) ++ map sweep (drop 1 (jobs w))) w)
    /\ (which = ALL ->
          length lines = length (filter occupied (drop 1 (jobs w))))
    /\ (which <> ALL -> which = FINISHED ->
          lines = finished_reports 1 (drop 1 (jobs w)))
    /\ (which <> ALL -> which <> FINISHED -> lines = []).
Proof.
  intros Hv. unfold watchjobs, njobmax, BG.
  destruct (jobs w) as [|b0 js] eqn:Hjs.
  - exists []. simpl. rewrite <- Hjs, set_jobs_same. auto.
  - simpl drop in *. simpl take.
    replace (Z.to_nat (Z.of_nat (length (b0 :: js)) - 1)) with (length js)
      by (simpl; lia).
    exact (watch_for_spec which js [b0] [] w Hjs Hv).
Qed.

(** X10. [watchjobs] returns when every job in a background slot has a
    command text and, if finished, an entry; whatever the scope asked
    for, also one that prints nothing, it frees the slots of the
    finished jobs and leaves the rest of the registry, slot 0 included,
    as it is; with scope ALL it prints one line for every job that is
    there. *)
Theorem watchjobs_frees_finished which (w : world) :
  Forall watchable (drop 1 (jobs w)) ->
  exists lines,
    watchjobs ALL which w
    = Done (lines, set_jobs (take 1 (jobs w) ++ map sweep (drop 1 (jobs w))) w)
    /\ (which = ALL ->
          length lines = length (filter occupied (drop 1 (jobs w))))
    /\ (which <> ALL -> which <> FINISHED -> lines = []).
Proof.
  intros Hv. destruct (watchjobs_spec which w Hv) as (l & ? & ? & ? & ?).
  exists l. auto.
Qed.

(** X11. With scope FINISHED, [watchjobs] prints the line of every
    finished background job, in the order of the slots, and a finished
    job is reported once: a second call right after prints nothing and
    changes nothing. *)
Theorem watchjobs_reports_once (w : world) :
  FINISHED <> ALL ->
  Forall watchable (drop 1 (jobs w)) ->
  exists w',
    watchjobs ALL FINISHED w
    = Done (finished_reports 1 (drop 1 (jobs w)), w')
    /\ watchjobs ALL FINISHED w' = Done ([], w').
Proof.
  intros Hna Hv.
  pose proof (watchjobs_spec FINISHED w Hv) as (l & Hw & _ & Hl & _).
  rewrite (Hl Hna eq_refl) in Hw.
  eexists. split; [exact Hw|].
  set (w' := set_jobs (take 1 (jobs w) ++ map sweep (drop 1 (jobs w))) w).
  assert (Hd : drop 1 (jobs w') = map sweep (drop 1 (jobs w))).
  { unfold w'. simpl. now destruct (jobs w). }
  assert (Ht : take 1 (jobs w') = take 1 (jobs w)).
  { unfold w'. simpl. now destruct (jobs w). }
  assert (Hv' : Forall watchable (drop 1 (jobs w'))).
  { rewrite Hd. apply Forall_fmap. apply (Forall_impl _ _ _ Hv).
    intros b. apply sweep_watchable. }
  destruct (watchjobs_spec FINISHED w' Hv') as (l' & Hw' & _ & Hl' & _).
  rewrite (Hl' Hna eq_refl) in Hw'. rewrite Hw'. f_equal. f_equal.
  - rewrite Hd. generalize 1. generalize (drop 1 (jobs w)).
    induction l0 as [|b l0 IH]; intros j; simpl; [reflexivity|].
    now rewrite sweep_not_finished, IH.
  - rewrite Hd, Ht. unfold w'. rewrite set_jobs_twice.
    f_equal. f_equal. generalize (drop 1 (jobs w)).
    induction l0 as [|b l0 IH]; simpl; [reflexivity|].
    now rewrite sweep_sweep, IH.
Qed.

End Watching.

Section Shutdown.
Context `{H : shell_h}.
Variable ALL : Z.

Lemma mask_odd ps : forall m,
  Z.odd m = true \/ Exists (fun p => proc.state p = FINISHED) ps ->
  Z.odd (fold_left (fun mask p =>
    if proc.state p =? FINISHED then Z.lor mask 1
    else if proc.state p =? STOPPED then Z.lor mask 2
    else if proc.state p =? RUNNING then Z.lor mask 4
    else mask) ps m) = true.
Proof.
  assert (Hlor : forall m c, Z.odd m = true -> Z.odd (Z.lor m c) = true).
  { intros m c Hm. rewrite <- Z.bit0_odd, Z.lor_spec, Z.bit0_odd, Hm.
    reflexivity. }
  induction ps as [|p ps IH]; intros m Hm; simpl.
  - destruct Hm as [Hm|Hex]; [exact Hm|inversion Hex].
  - apply IH. destruct Hm as [Hm|Hex].
    + left. repeat match goal with |- context [if ?c then _ else _] =>
        destruct c end; auto.
    + inversion Hex as [? ? Hp|? ? Hps]; subst; [left|now right].
      rewrite Hp, Z.eqb_refl.
      rewrite <- Z.bit0_odd, Z.lor_spec. simpl. apply orb_true_r.
Qed.

Lemma scan_procs_false pid status ps : forall ps',
  scan_procs pid status false ps = (false, ps') -> ps' = ps.
Proof.
  induction ps as [|p ps IH]; intros ps'; simpl.
  - now intros [= <-].
  - destruct (proc.pid p =? pid).
    + rewrite scan_procs_done. discriminate.
    + destruct (scan_procs pid status false ps) as [d r].
      intros [= -> <-]. now rewrite (IH r eq_refl).
Qed.

Lemma scan_procs_ended pid status ps : ended status -> forall ps',
  scan_procs pid status false ps = (true, ps') ->
  Exists (fun p => proc.state p = FINISHED) ps'.
Proof.
  intros (Hst & Hend).
  induction ps as [|p ps IH]; intros ps'; simpl; [discriminate|].
  destruct (proc.pid p =? pid).
  - rewrite scan_procs_done. intros [= <-]. constructor 1.
    unfold reap. rewrite Hst.
    destruct (WIFEXITED status); [reflexivity|].
    destruct Hend as [Hend|Hend]; [discriminate|]. now rewrite Hend.
  - destruct (scan_procs pid status false ps) as [d r].
    intros [= -> <-]. constructor 2. now apply IH.
Qed.

(** The scan of the slots changes nothing, or it has found the child in
    one slot and changed the entries of that slot. *)
Lemma scan_jobs_shape pid status (js : list job.t) : forall i0 n0 n js1,
  scan_jobs pid status i0 false n0 js = (n, js1) ->
  (n = n0 /\ js1 = js)
  \/ exists (k : nat) b ps',
       js !! k = Some b /\ n = i0 + Z.of_nat k
       /\ js1 = <[k := set_proc ps' b]> js
       /\ scan_procs pid status false (job.proc b) = (true, ps').
Proof.
  induction js as [|a js IH]; intros i0 n0 n js1; simpl.
  - intros [= <- <-]. now left.
  - destruct (scan_procs pid status false (job.proc a)) as [d ps] eqn:Es.
    destruct d.
    + rewrite scan_jobs_done. intros [= <- <-]. right.
      exists O, a, ps. simpl. repeat split; auto. lia.
    + apply scan_procs_false in Es. subst ps. rewrite set_proc_same.
      destruct (scan_jobs pid status (i0 + 1) false n0 js) as [n' r] eqn:Ej.
      intros [= <- <-].
      apply IH in Ej as [[-> ->]|(k & b & ps' & Hk & -> & -> & Hs)];
        [now left|right].
      exists (S k), b, ps'. simpl. repeat split; auto. lia.
Qed.

(** A background job that has finished stays so when the children
    reported have ended. *)
Lemma step_keeps_finished pid status (js : list job.t) (i : nat) b :
  ended status -> (1 <= i)%nat ->
  js !! i = Some b -> job.state b = FINISHED ->
  exists b', sigchld_step pid status js !! i = Some b'
    /\ job.state b' = FINISHED.
Proof.
  intros Hend Hi Hb Hfin. unfold sigchld_step.
  destruct (scan_jobs pid status 0 false 0 js) as [n js1] eqn:Ej.
  apply scan_jobs_shape in Ej
    as [[-> ->]|(k & bk & ps' & Hk & -> & -> & Hs)].
  - exists b. rewrite list_lookup_alter_ne by (simpl; lia). auto.
  - replace (Z.to_nat (0 + Z.of_nat k)) with k by lia.
    destruct (decide (i = k)) as [->|ne].
    + rewrite list_lookup_alter_eq, list_lookup_insert_eq
        by (now apply lookup_lt_Some in Hk).
      simpl. eexists. split; [reflexivity|].
      assert (bk = b) by congruence. subst bk.
      pose proof (mask_odd ps' 0
        (or_intror (scan_procs_ended pid status _ Hend _ Hs))) as Hodd.
      unfold recompute. simpl. fold (mask_of ps') in Hodd.
      destruct (mask_of ps' =? 1); [reflexivity|].
      destruct (Z.eqb_spec (mask_of ps') 2) as [e|_];
        [rewrite e in Hodd; discriminate|].
      destruct (Z.eqb_spec (mask_of ps') 4) as [e|_];
        [rewrite e in Hodd; discriminate|].
      exact Hfin.
    + rewrite list_lookup_alter_ne, list_lookup_insert_ne by auto.
      now exists b.
Qed.

Lemma handler_keeps_finished reaped : forall (js : list job.t) (i : nat) b,
  Forall (fun r => ended (snd r)) reaped -> (1 <= i)%nat ->
  js !! i = Some b -> job.state b = FINISHED ->
  exists b',
    fold_left (fun js r => sigchld_step (fst r) (snd r) js) reaped js !! i
    = Some b'
    /\ job.state b' = FINISHED.
Proof.
  induction reaped as [|r reaped IH]; intros js i b Hend Hi Hb Hfin; simpl.
  - now exists b.
  - inversion Hend as [|? ? Hr Hrs]; subst.
    destruct (step_keeps_finished (fst r) (snd r) js i b Hr Hi Hb Hfin)
      as (b1 & Hb1 & Hfin1).
    exact (IH _ i b1 Hrs Hi Hb1 Hfin1).
Qed.

Lemma handler_empty_same reaped (js : list job.t) :
  Forall2 (fun b b' => job.proc b = [] -> b' = b) js
    (fold_left (fun js r => sigchld_step (fst r) (snd r) js) reaped js).
Proof.
  apply (handler_across (fun b b' => job.proc b = [] -> b' = b)).
  - auto.
  - intros a b c Hab Hbc Ha. specialize (Hab Ha). subst b. now apply Hbc.
  - intros pid status d b Hb. rewrite Hb. simpl. rewrite <- Hb.
    now destruct b.
  - intros b Hb. unfold recompute. rewrite Hb. reflexivity.
Qed.

Lemma handler_watchable reaped (js : list job.t) :
  Forall watchable (drop 1 js) ->
  Forall watchable
    (drop 1 (fold_left (fun js r => sigchld_step (fst r) (snd r) js)
               reaped js)).
Proof.
  pose proof (handler_jobs_frame reaped js) as Hfr.
  pose proof (handler_empty_same reaped js) as Hem.
  apply (Forall2_drop _ _ _ 1) in Hfr, Hem.
  revert Hfr Hem.
  generalize (drop 1 (fold_left
    (fun js r => sigchld_step (fst r) (snd r) js) reaped js)).
  generalize (drop 1 js). clear js.
  induction l as [|b l IH]; intros l' Hfr Hem Hv;
    inversion Hfr as [|? b' ? l1 (Hpg & _ & Hcmd & Hpids) Hfr']; subst;
    [constructor|].
  inversion Hem as [|? ? ? ? Hsame Hem']; subst.
  inversion Hv as [|? ? Hb Hl]; subst.
  constructor; [|now apply IH].
  intros Hp. rewrite Hpg in Hp. destruct (Hb Hp) as [Hc Hne].
  split; [now rewrite Hcmd|]. intros Hfin Hnil.
  assert (Hbnil : job.proc b = []).
  { unfold pids_of in Hpids. rewrite Hnil in Hpids. simpl in Hpids.
    symmetry in Hpids. now apply map_eq_nil in Hpids. }
  rewrite (Hsame Hbnil) in Hfin. now apply Hne.
Qed.

Lemma sigsuspend_jobs e (w : world) :
  jobs (sigsuspend e w)
  = fold_left (fun js r => sigchld_step (fst r) (snd r) js) (reaped e)
      (jobs w).
Proof. unfold sigsuspend. now destruct (tty_set e). Qed.

Lemma wait_finished_spec evs : forall (i : Z) (w : world),
  1 <= i -> (Z.to_nat i < length (jobs w))%nat ->
  Forall ends_only evs ->
  Forall watchable (drop 1 (jobs w)) ->
  wait_finished evs i w = Starved
  \/ exists w' evs' used,
       wait_finished evs i w = Done (w', evs')
       /\ evs = used ++ evs'
       /\ length (jobs w') = length (jobs w)
       /\ Forall watchable (drop 1 (jobs w'))
       /\ (forall (k : nat) b, (1 <= k)%nat -> jobs w !! k = Some b ->
             job.state b = FINISHED ->
             exists b', jobs w' !! k = Some b' /\ job.state b' = FINISHED)
       /\ exists b, jobs w' !! Z.to_nat i = Some b
                    /\ job.state b = FINISHED.
Proof.
  induction evs as [|e evs IH]; intros i w Hi Hlt Hends Hv;
    destruct (lookup_lt_is_Some_2 (jobs w) (Z.to_nat i)) as [b Hb];
    try lia; simpl; rewrite (job_at_lookup i w b) by (auto; lia);
    destruct (Z.eqb_spec (job.state b) FINISHED) as [e0|ne]; auto.
  - right. exists w, [], []. repeat split; eauto.
  - right. exists w, (e :: evs), []. repeat split; eauto.
  - inversion Hends as [|? ? He Hevs]; subst.
    assert (Hlen : length (jobs (sigsuspend e w)) = length (jobs w)).
    { rewrite sigsuspend_jobs. symmetry.
      exact (Forall2_length _ _ _ (handler_jobs_frame _ _)). }
    destruct (IH i (sigsuspend e w) Hi) as
      [Hs|(w' & evs' & used & Hw & -> & Hl & Hv' & Hk & Hi')]; auto.
    + lia.
    + rewrite sigsuspend_jobs. now apply handler_watchable.
    + right. exists w', evs', (e :: used). split; [exact Hw|].
      split; [reflexivity|]. split; [lia|]. split; [exact Hv'|].
      split; [|exact Hi'].
      intros k bk Hk1 Hbk Hfin.
      destruct (handler_keeps_finished (reaped e) (jobs w) k bk He Hk1 Hbk
                  Hfin) as (b1 & Hb1 & Hfin1).
      rewrite <- sigsuspend_jobs in Hb1. exact (Hk k b1 Hk1 Hb1 Hfin1).
Qed.

Lemma killjob_jobs (i : Z) (w : world) b :
  0 <= i -> jobs w !! Z.to_nat i = Some b ->
  exists r w', killjob i w = Done (r, w') /\ jobs w' = jobs w
    /\ (r = false -> w' = w /\ job.state b = FINISHED).
Proof.
  intros Hi Hb. unfold killjob.
  pose proof (lookup_in_range _ _ _ Hi Hb) as Hr.
  apply Z.ltb_lt in Hr. destruct (Z.leb_spec (njobmax w) i); [lia|].
  rewrite (job_at_lookup _ _ _ Hi Hb). simpl.
  destruct (Z.eqb_spec (job.state b) FINISHED).
  - exists false, w. auto.
  - eexists true, _. split; [reflexivity|]. split; [|discriminate].
    now destruct (job.state b =? STOPPED).
Qed.

Lemma shutdown_for_spec (k : nat) : forall (i : Z) evs (w : world),
  1 <= i -> (Z.to_nat i + k = length (jobs w))%nat ->
  Forall ends_only evs ->
  Forall watchable (drop 1 (jobs w)) ->
  (forall (k' : nat) b, (1 <= k')%nat -> Z.of_nat k' < i ->
     jobs w !! k' = Some b -> job.state b = FINISHED) ->
  shutdown_for k i evs w = Starved
  \/ exists w' evs' used,
       shutdown_for k i evs w = Done (w', evs')
       /\ evs = used ++ evs'
       /\ length (jobs w') = length (jobs w)
       /\ Forall watchable (drop 1 (jobs w'))
       /\ (forall (k' : nat) b, (1 <= k')%nat ->
             jobs w' !! k' = Some b -> job.state b = FINISHED).
Proof.
  induction k as [|k IH]; intros i evs w Hi Hlen Hends Hv Hdone; simpl.
  - right. exists w, evs, []. repeat split; auto.
    intros k' b Hk' Hb. apply (Hdone k' b Hk'); [|exact Hb].
    apply lookup_lt_Some in Hb. lia.
  - destruct (lookup_lt_is_Some_2 (jobs w) (Z.to_nat i)) as [b Hb]; [lia|].
    pose proof (killjob_jobs i w b ltac:(lia) Hb)
      as (r & w1 & Hk & Hj1 & Hr).
    rewrite Hk. cbn [mbind outcome_bind].
    assert (Hstep : forall w2 evs2 used,
      evs = used ++ evs2 ->
      length (jobs w2) = length (jobs w) ->
      Forall watchable (drop 1 (jobs w2)) ->
      (forall (k' : nat) b, (1 <= k')%nat -> jobs w !! k' = Some b ->
         job.state b = FINISHED ->
         exists b', jobs w2 !! k' = Some b' /\ job.state b' = FINISHED) ->
      (exists b, jobs w2 !! Z.to_nat i = Some b /\ job.state b = FINISHED) ->
      shutdown_for k (i + 1) evs2 w2 = Starved
      \/ exists w' evs' used',
           shutdown_for k (i + 1) evs2 w2 = Done (w', evs')
           /\ evs = used' ++ evs'
           /\ length (jobs w') = length (jobs w)
           /\ Forall watchable (drop 1 (jobs w'))
           /\ (forall (k' : nat) b, (1 <= k')%nat ->
                 jobs w' !! k' = Some b -> job.state b = FINISHED)).
    { intros w2 evs2 used -> Hl2 Hv2 Hkeep (bi & Hbi & Hfi).
      apply Forall_app in Hends as [_ Hends2].
      destruct (IH (i + 1) evs2 w2) as
        [Hs|(w' & evs' & used' & Hw & -> & Hl & Hv' & Hall)]; auto;
        try lia.
      - intros k' bk Hk1 Hk2 Hbk.
        destruct (decide (k' = Z.to_nat i)) as [->|ne].
        + congruence.
        + destruct (lookup_lt_is_Some_2 (jobs w) k') as [b0 Hb0].
          { apply lookup_lt_Some in Hbk. lia. }
          destruct (Hkeep k' b0 Hk1 Hb0) as (b' & Hb' & Hf').
          { apply (Hdone k' b0 Hk1); [lia|exact Hb0]. }
          congruence.
      - right. exists w', evs', (used ++ used').
        rewrite <- app_assoc. repeat split; auto. lia. }
    destruct r.
    + destruct (wait_finished_spec evs i w1 Hi) as
        [Hs|(w2 & evs2 & used & Hw & He & Hl2 & Hv2 & Hkeep & Hi2)]; auto.
      * rewrite Hj1. lia.
      * now rewrite Hj1.
      * rewrite Hs. now left.
      * rewrite Hw. cbn [mbind outcome_bind].
        rewrite Hj1 in Hl2, Hkeep. now apply (Hstep w2 evs2 used).
    + destruct (Hr eq_refl) as [-> Hfin]. cbn [mbind outcome_bind].
      apply (Hstep w evs []); eauto.
Qed.

(** X12. [shutdownjobs], when every job in a background slot has a
    command text and, if finished, an entry, and the children that are
    reported meanwhile have exited or were killed: it does not fail; it
    waits for ever, or it returns with every background slot free, the
    registry as long as before. *)
Theorem shutdownjobs_frees_background evs (w : world) :
  Forall ends_only evs ->
  Forall watchable (drop 1 (jobs w)) ->
  shutdownjobs ALL evs w = Starved
  \/ exists out w' evs' used,
       shutdownjobs ALL evs w = Done (out, w', evs')
       /\ evs = used ++ evs'
       /\ length (jobs w') = length (jobs w)
       /\ forall (i : nat) b, (1 <= i)%nat -> jobs w' !! i = Some b ->
            job.pgid b = 0.
Proof.
  intros Hends Hv. unfold shutdownjobs.
  assert (Hloop :
    shutdown_for (Z.to_nat (njobmax w - 1)) 1 evs w = Starved
    \/ exists w' evs' used,
         shutdown_for (Z.to_nat (njobmax w - 1)) 1 evs w = Done (w', evs')
         /\ evs = used ++ evs'
         /\ length (jobs w') = length (jobs w)
         /\ Forall watchable (drop 1 (jobs w'))
         /\ (forall (k' : nat) b, (1 <= k')%nat ->
               jobs w' !! k' = Some b -> job.state b = FINISHED)).
  { destruct (jobs w) as [|b0 js] eqn:Hjs.
    - right. unfold njobmax. rewrite Hjs. simpl. exists w, evs, [].
      rewrite Hjs. repeat split; auto. intros k' b _ Hb. discriminate.
    - rewrite <- Hjs in *. apply shutdown_for_spec; auto; try lia.
      unfold njobmax. rewrite Hjs. simpl. lia. }
  destruct Hloop as [Hs|(w1 & evs1 & used & Hw & -> & Hl & Hv1 & Hall)].
  { rewrite Hs. now left. }
  rewrite Hw. cbn [mbind outcome_bind]. right.
  destruct (watchjobs_spec ALL FINISHED w1 Hv1) as (lines & Hwj & _).
  rewrite Hwj. cbn [mbind outcome_bind].
  eexists _, _, evs1, used. split; [reflexivity|]. split; [reflexivity|].
  split.
  - simpl. rewrite <- Hl, length_app, length_map.
    rewrite <- (take_drop 1 (jobs w1)) at 3. now rewrite length_app.
  - intros i b Hi Hb. simpl in Hb.
    destruct (jobs w1) as [|b0 js] eqn:Hjs; [destruct i; discriminate|].
    destruct i as [|i]; [lia|]. simpl in Hb.
    rewrite list_lookup_fmap, drop_0 in Hb.
    destruct (js !! i) as [b1|] eqn:Hb1; simpl in Hb; [|discriminate].
    injection Hb as <-.
    pose proof (Hall (S i) b1 Hi Hb1) as Hfin.
    unfold sweep, finished_job. rewrite Hfin, Z.eqb_refl.
    destruct (Z.eqb_spec (job.pgid b1) 0); simpl; auto.
Qed.

End Shutdown.

Section Foreground.
Context `{H : shell_h}.

Lemma handler_job_state_valid reaped (js : list job.t) :
  Forall2 (fun b b' => valid_state (job.state b) -> valid_state (job.state b'))
    js (fold_left (fun js r => sigchld_step (fst r) (snd r) js) reaped js).
Proof.
  apply (handler_across
    (fun b b' => valid_state (job.state b) -> valid_state (job.state b'))).
  - auto.
  - auto.
  - intros pid status d b Hb. exact Hb.
  - intros b Hb. unfold recompute, valid_state.
    repeat match goal with |- context [if ?c then _ else _] =>
      destruct c end; simpl; auto.
Qed.

Lemma sigsuspend_slot_valid e (w : world) (i : nat) b :
  jobs w !! i = Some b -> valid_state (job.state b) ->
  exists b', jobs (sigsuspend e w) !! i = Some b'
    /\ valid_state (job.state b').
Proof.
  intros Hb Hv. rewrite sigsuspend_jobs.
  pose proof (handler_job_state_valid (reaped e) (jobs w)) as Hf.
  destruct (Forall2_lookup_l _ _ _ _ _ Hf Hb) as (b' & Hb' & Hvb).
  exists b'. auto.
Qed.

Lemma jobstate_slot code (w : world) fg st c w2 :
  jobs w !! O = Some fg ->
  jobstate 0 code w = Done (st, c, w2) ->
  st = job.state fg
  /\ ((st = FINISHED /\ exists b, jobs w2 !! O = Some b /\ job.pgid b = 0
                                   /\ job.state b = FINISHED)
      \/ (st <> FINISHED /\ w2 = w)).
Proof.
  intros Hfg. unfold jobstate.
  rewrite (lookup_in_range 0 w fg), (job_at_lookup 0 w fg) by (auto; lia).
  simpl. destruct (Z.eqb_spec (job.state fg) FINISHED) as [e|ne].
  - destruct (exitcode fg); simpl; try discriminate.
    unfold deljob. rewrite e, Z.eqb_refl. simpl.
    intros [= <- <- <-]. split; [auto|]. left. split; [reflexivity|].
    exists (job.mk _ 0 [] (job.tmodes fg) FINISHED None).
    split; [|split; reflexivity]. simpl.
    apply list_lookup_insert_eq. now apply lookup_lt_Some in Hfg.
  - intros [= <- <- <-]. auto.
Qed.

(** The wait of [monitorjob] ends with slot 0 finished and cleared, or
    stopped. *)
Lemma monitor_wait_slot evs : forall code (w : world) fg state code' w1 evs1,
  jobs w !! O = Some fg -> valid_state (job.state fg) ->
  monitor_wait evs code w = Done (state, code', w1, evs1) ->
  (state = FINISHED /\ exists b, jobs w1 !! O = Some b /\ job.pgid b = 0)
  \/ (state = STOPPED /\ exists b, jobs w1 !! O = Some b).
Proof.
  induction evs as [|e evs IH]; intros code w fg state code' w1 evs1 Hfg Hv;
    simpl; destruct (jobstate 0 code w) as [[[st c] w2]| |] eqn:Hj;
    try discriminate;
    destruct (jobstate_slot _ _ _ _ _ _ Hfg Hj) as (-> & Hcases);
    destruct (Z.eqb_spec (job.state fg) RUNNING) as [e0|ne];
    try discriminate.
  - intros [= <- <- <- <-].
    destruct Hcases as [(Hf & b & Hb & Hp & _)|(Hnf & ->)].
    + left. eauto.
    + right. destruct Hv as [Hv|[Hv|Hv]]; try contradiction. eauto.
  - assert (Hslot : exists b2, jobs w2 !! O = Some b2
                               /\ valid_state (job.state b2)).
    { destruct Hcases as [(Hf & b & Hb & _ & Hs)|(Hnf & ->)].
      - exists b. split; [exact Hb|]. now left.
      - now exists fg. }
    destruct Hslot as (b2 & Hb2 & Hv2).
    destruct (sigsuspend_slot_valid e w2 O b2 Hb2 Hv2) as (fg' & Hfg' & Hv').
    exact (IH c _ fg' state code' w1 evs1 Hfg' Hv').
  - intros [= <- <- <- <-].
    destruct Hcases as [(Hf & b & Hb & Hp & _)|(Hnf & ->)].
    + left. eauto.
    + right. destruct Hv as [Hv|[Hv|Hv]]; try contradiction. eauto.
Qed.

Lemma monitorjob_slot evs (w : world) fg code w' evs' :
  jobs w !! O = Some fg ->
  valid_state (job.state fg) ->
  monitorjob evs w = Done (code, w', evs') ->
  exists b, jobs w' !! O = Some b /\ job.pgid b = 0.
Proof.
  intros Hfg Hv. unfold monitorjob.
  rewrite (job_at_lookup 0 w fg) by (auto; lia). simpl.
  destruct (monitor_wait evs 0 (set_tty_pgrp (job.pgid fg) w))
    as [[[[state c] w1] evs1]| |] eqn:Hw; [simpl|discriminate..].
  pose proof (monitor_wait_inv _ _ _ _ _ _ _ Hw) as (Hnr & _).
  destruct (monitor_wait_slot evs 0 (set_tty_pgrp (job.pgid fg) w) fg
              _ _ _ _ Hfg Hv Hw)
    as [(-> & b & Hb & Hp)|(-> & b & Hb)].
  - destruct (Z.eqb_spec FINISHED STOPPED) as [e|ne].
    + destruct (suspend_fg_spec w1 b Hb)
        as (to & w2 & Hs & _ & _ & _ & H0 & _).
      rewrite Hs. simpl. intros [= _ <- _].
      exists job.zero. split; [|reflexivity].
      now destruct (negb (FINISHED =? RUNNING)).
    + simpl. intros [= _ <- _]. exists b. split; [|exact Hp].
      now destruct (negb (FINISHED =? RUNNING)).
  - rewrite Z.eqb_refl.
    destruct (suspend_fg_spec w1 b Hb)
      as (to & w2 & Hs & _ & _ & _ & H0 & _).
    rewrite Hs. simpl. intros [= _ <- _].
    exists job.zero. split; [|reflexivity].
    now destruct (negb (STOPPED =? RUNNING)).
Qed.


(** X13. When [monitorjob] returns, slot 0 is free: the foreground job
    has finished and its slot was cleared, or it was stopped and has
    moved to a background slot.  The state of the job in slot 0 is one
    of the three at the call. *)
Theorem monitorjob_frees_foreground_slot evs (w : world) fg code w' evs' :
  jobs w !! O = Some fg ->
  valid_state (job.state fg) ->
  monitorjob evs w = Done (code, w', evs') ->
  exists b, jobs w' !! O = Some b /\ job.pgid b = 0.
Proof. exact (monitorjob_slot evs w fg code w' evs'). Qed.

Lemma monitorjob_terminal evs (w : world) code w' evs' :
  monitorjob evs w = Done (code, w', evs') ->
  tty_pgrp w' = pgrp w /\ tty_tmodes w' = shell_tmodes w.
Proof.
  unfold monitorjob.
  destruct (job_at 0 w) as [fg| |]; [simpl|discriminate..].
  destruct (monitor_wait evs 0 (set_tty_pgrp (job.pgid fg) w))
    as [[[[state c] w1] evs1]| |] eqn:Hw; [simpl|discriminate..].
  destruct (monitor_wait_inv _ _ _ _ _ _ _ Hw) as (Hnr & [Hpg Hsm] & _ & Hfg).
  simpl in Hpg, Hsm.
  destruct (Z.eqb_spec state RUNNING); [contradiction|]. simpl.
  destruct (Z.eqb_spec state STOPPED) as [e|ne].
  - destruct (suspend_fg w1) as [w2| |] eqn:Hs; [simpl|discriminate..].
    apply suspend_fg_same in Hs as [Hpg' Hsm'].
    intros [= <- <- <-]. simpl. split; congruence.
  - simpl. intros [= <- <- <-]. simpl. split; congruence.
Qed.

Lemma wait_stopped_slot evs : forall (w : world) fg w' evs',
  jobs w !! O = Some fg -> valid_state (job.state fg) ->
  wait_stopped evs w = Done (w', evs') ->
  same_shell w w' /\ trace w' = trace w
  /\ exists fg', jobs w' !! O = Some fg' /\ valid_state (job.state fg').
Proof.
  induction evs as [|e evs IH]; intros w fg w' evs' Hfg Hv; simpl;
    rewrite (job_at_lookup 0 w fg) by (auto; lia);
    destruct (job.state fg =? STOPPED); try discriminate.
  - intros [= <- <-]. split; [now split|]. eauto.
  - intros Hw.
    destruct (sigsuspend_slot_valid e w O fg Hfg Hv) as (fg1 & Hfg1 & Hv1).
    destruct (IH _ fg1 w' evs' Hfg1 Hv1 Hw) as ([Hp Hs] & Ht & Hslot).
    destruct (sigsuspend_same e w) as [Hp' Hs'].
    split; [split; congruence|]. split; [|exact Hslot].
    now rewrite Ht, sigsuspend_trace.
  - intros [= <- <-]. split; [now split|]. eauto.
Qed.

(** X14. [resumejob] for the foreground, on a job in a background slot
    whose state is one of the three: when it returns, the terminal is
    back with the shell, its foreground group the group of the shell and
    its modes the saved modes of the shell, and slot 0 is free again. *)
Theorem resumejob_foreground_hands_back (j : Z) evs (w : world) b r w' evs' :
  1 <= resume_target j w ->
  jobs w !! Z.to_nat (resume_target j w) = Some b ->
  valid_state (job.state b) ->
  tty_pgrp w = pgrp w ->
  (exists fg, jobs w !! O = Some fg /\ job.pgid fg = 0) ->
  job.state b <> FINISHED ->
  resumejob j false evs w = Done (r, w', evs') ->
  r = true
  /\ tty_pgrp w' = pgrp w /\ tty_tmodes w' = shell_tmodes w
  /\ exists b0, jobs w' !! O = Some b0 /\ job.pgid b0 = 0.
Proof.
  intros Ht Hb Hv Htty (fg & Hfg & Hfree) Hnf. unfold resumejob.
  set (t := resume_target j w) in *.
  pose proof (lookup_in_range t w b ltac:(lia) Hb) as Hr.
  apply Z.ltb_lt in Hr. destruct (Z.leb_spec (njobmax w) t); [lia|].
  rewrite (job_at_lookup t w b) by (auto; lia). simpl.
  destruct (Z.eqb_spec (job.state b) FINISHED); [contradiction|].
  rewrite (job_at_lookup 0 w fg) by (auto; lia). simpl.
  rewrite Htty, Hfree, !Z.eqb_refl. simpl.
  unfold movejob.
  rewrite (job_at_lookup 0 w fg), (job_at_lookup t w b) by (auto; lia).
  simpl. rewrite Hfree, Z.eqb_refl. simpl.
  set (w1 := put_job t job.zero (put_job 0 b w)).
  assert (Hs0 : jobs w1 !! O = Some b).
  { unfold w1. simpl. rewrite list_lookup_insert_ne by lia.
    apply list_lookup_insert_eq. now apply lookup_lt_Some in Hfg. }
  rewrite (job_at_lookup 0 w1 b) by (auto; lia). simpl.
  set (w2 := set_tty_tmodes (job.tmodes b) (set_tty_pgrp (job.pgid b) w1)).
  assert (Hstep : forall w3 evs3 b3,
    pgrp w3 = pgrp w -> shell_tmodes w3 = shell_tmodes w ->
    jobs w3 !! O = Some b3 -> valid_state (job.state b3) ->
    (cmd ← jobcmd 0 w3;
     '(_, w4, evs4) ← monitorjob evs3 (emit (EMsg (Continue t cmd)) w3);
     Done (true, w4, evs4)) = Done (r, w', evs') ->
    r = true
    /\ tty_pgrp w' = pgrp w /\ tty_tmodes w' = shell_tmodes w
    /\ exists b0, jobs w' !! O = Some b0 /\ job.pgid b0 = 0).
  { intros w3 evs3 b3 Hp3 Hs3 Hb3 Hv3 Hrun.
    apply bind_Done in Hrun as (cmd & _ & Hrun).
    apply bind_Done in Hrun as ([[c w4] evs4] & Hm & Hrun).
    injection Hrun as <- <- <-. split; [reflexivity|].
    destruct (monitorjob_terminal _ _ _ _ _ Hm) as [Hp4 Hs4].
    simpl in Hp4, Hs4. split; [congruence|]. split; [congruence|].
    exact (monitorjob_slot _ (emit (EMsg (Continue t cmd)) w3) b3 _ _ _
             Hb3 Hv3 Hm). }
  destruct (job.state b =? STOPPED).
  - destruct (wait_stopped evs (emit (EKill (- job.pgid b) SIGCONT) w2))
      as [[w3 evs3]| |] eqn:Hw; [|discriminate..].
    cbn [mbind outcome_bind].
    destruct (wait_stopped_slot evs
                (emit (EKill (- job.pgid b) SIGCONT) w2) b _ _ Hs0 Hv Hw)
      as ([Hp Hs] & _ & b3 & Hb3 & Hv3).
    apply (Hstep w3 evs3 b3); auto.
  - cbn [mbind outcome_bind]. apply (Hstep w2 evs b); auto.
Qed.

End Foreground.

Section Resuming.
Context `{H : shell_h}.

(** X15. [resumejob] for the background does not wait and leaves the
    registry and the terminal as they are; it sends nothing, or the
    message that there is no task control, or SIGCONT to the group of
    the job, which is STOPPED, and then the message that it continues. *)
Theorem resumejob_background_only_signals (j : Z) evs (w : world) r w' evs' :
  resumejob j true evs w = Done (r, w', evs') ->
  evs' = evs /\ jobs w' = jobs w
  /\ tty_pgrp w' = tty_pgrp w /\ tty_tmodes w' = tty_tmodes w
  /\ exists l, trace w' = trace w ++ l
       /\ ((l = [] /\ w' = w)
           \/ (l = [EMsg No_task_control] /\ r = false)
           \/ exists b, jobs w !! Z.to_nat (resume_target j w) = Some b
                /\ job.state b = STOPPED /\ r = true
                /\ l = [EKill (- job.pgid b) SIGCONT;
                        EMsg (Continue (resume_target j w) (job.command b))]).
Proof.
  unfold resumejob. set (t := resume_target j w).
  destruct (njobmax w <=? t).
  { intros [= <- <- <-]. repeat split; auto. exists [].
    rewrite app_nil_r. auto. }
  destruct (job_at t w) as [b| |] eqn:Hb; [simpl|discriminate..].
  unfold job_at in Hb. destruct (0 <=? t); [|discriminate].
  destruct (jobs w !! Z.to_nat t) as [b0|] eqn:Hl; [|discriminate].
  injection Hb as ->.
  destruct (job.state b =? FINISHED).
  { intros [= <- <- <-]. repeat split; auto. exists [].
    rewrite app_nil_r. auto. }
  destruct (job_at 0 w) as [fg| |]; [simpl|discriminate..].
  destruct (negb (tty_pgrp w =? pgrp w) || negb (job.pgid fg =? 0)).
  { intros [= <- <- <-]. repeat split; auto. exists [EMsg No_task_control].
    auto. }
  simpl. destruct (Z.eqb_spec (job.state b) STOPPED) as [e|ne].
  - destruct (jobcmd t (emit (EKill (- job.pgid b) SIGCONT) w))
      as [cmd| |] eqn:Hc; [simpl|discriminate..].
    assert (cmd = job.command b).
    { unfold jobcmd in Hc.
      destruct (t <? njobmax _); [simpl in Hc|discriminate].
      unfold job_at in Hc. simpl in Hc.
      destruct (0 <=? t); [|discriminate]. rewrite Hl in Hc.
      now injection Hc as <-. }
    subst cmd. intros [= <- <- <-]. repeat split; auto.
    eexists. split; [simpl; now rewrite <- app_assoc|].
    right. right. exists b. auto.
  - intros [= <- <- <-]. repeat split; auto. exists [].
    rewrite app_nil_r. auto.
Qed.

End Resuming.

Section Launching.
Context `{H : shell_h}.
Variable builtin_command : list token -> world -> outcome (Z * world).

Lemma fd_lookup_remove_eq fd t : fd_lookup fd (fd_remove fd t) = None.
Proof.
  induction t as [|[k d] t IH]; simpl; [reflexivity|].
  destruct (Z.eqb_spec k fd) as [e|ne]; [exact IH|].
  simpl. destruct (Z.eqb_spec k fd); [contradiction|exact IH].
Qed.

Lemma fd_closed_of_lookup fd t : fd_is_open fd t = false -> fd_lookup fd t = None.
Proof. unfold fd_is_open. now destruct (fd_lookup fd t). Qed.

Lemma table_plus_refl t : table_plus t t (-1) (-1).
Proof. unfold table_plus. repeat split; auto; left; lia. Qed.

Lemma table_plus_swap t0 t input output :
  table_plus t0 t input output -> table_plus t0 t output input.
Proof.
  intros (He & Hi & Ho & Hd). unfold table_plus.
  split; [intros y Hy1 Hy2; now apply He|].
  split; [exact Ho|]. split; [exact Hi|].
  destruct Hd as [Hd|[Hd|Hd]]; auto.
Qed.

(** [MaybeClose (&input)] and then [*inputp = Open (..)]. *)
Lemma reopen_plus t0 input output path flags mode (w : world) x wa fd w1 :
  table_plus t0 (fdt w) input output ->
  MaybeClose input w = Done (x, wa) ->
  Open path flags mode wa = Done (fd, w1) ->
  table_plus t0 (fdt w1) fd output.
Proof.
  intros (He & Hi & Ho & Hd) Hc Hop.
  assert (Hwa : (forall y, (output < 0 \/ y <> output) ->
                   fd_lookup y (fdt wa) = fd_lookup y t0)
                /\ (output < 0 \/ fd_is_open output (fdt wa) = true)).
  { apply MaybeClose_inv in Hc as [[Hneg ->]|(Hpos & Hopen & ->)].
    - split; [intros y Hy; apply He; auto|]. destruct Ho as [|[]]; auto.
    - destruct Hi as [Hi|[_ Hi0]]; [lia|]. simpl. split.
      + intros y Hy. destruct (Z.eq_dec y input) as [->|ne].
        * now rewrite fd_lookup_remove_eq.
        * rewrite fd_lookup_remove_ne by congruence. apply He; auto.
      + destruct Ho as [Ho|[Ho _]]; [now left|].
        destruct Hd as [Hd|[Hd|Hd]]; [lia|now left|right].
        unfold fd_is_open in *.
        now rewrite fd_lookup_remove_ne by congruence. }
  destruct Hwa as [Hea Hoa].
  apply Open_inv in Hop as (p & fs & -> & Hs & -> & ->). simpl.
  pose proof (fresh_fd_free (fdt wa)) as Hfree.
  pose proof (fresh_fd_nonneg (fdt wa)) as Hnn.
  set (fd := fresh_fd (fdt wa)) in *.
  assert (Hne : output < 0 \/ fd <> output).
  { destruct Hoa as [|Hoa]; [now left|right]. intros ->. congruence. }
  unfold table_plus. split; [|split; [|split]].
  - intros y [Hy|Hy] Hy'; [lia|]. simpl.
    destruct (Z.eqb_spec fd y); [congruence|]. now apply Hea.
  - right. unfold fd_is_open. simpl. rewrite Z.eqb_refl. split; [reflexivity|].
    rewrite <- Hea by exact Hne. now apply fd_closed_of_lookup.
  - destruct Ho as [Ho|[_ Ho0]]; [now left|].
    destruct Hoa as [|Hoa]; [now left|right]. split; [|exact Ho0].
    unfold fd_is_open in *. simpl. now destruct (fd =? output).
  - destruct Hne; auto.
Qed.

Lemma redir_body_plus t0 base i r (w : world) r1 w1 :
  redir_body base i r w = Done (r1, w1) ->
  table_plus t0 (fdt w) (r_input r) (r_output r) ->
  table_plus t0 (fdt w1) (r_input r1) (r_output r1).
Proof.
  intros Hb Hp. apply redir_body_inv in Hb as (_ & t & _ & Hcase).
  destruct Hcase as [(_ & x & wa & path & fd & Hc & _ & Ho & ->)
    |[(_ & x & wa & path & fd & Hc & _ & Ho & ->)
    |[(_ & _ & -> & ->)|(_ & _ & -> & _ & ->)]]]; simpl; auto.
  - exact (reopen_plus _ _ _ _ _ _ _ _ _ _ _ Hp Hc Ho).
  - apply table_plus_swap. apply table_plus_swap in Hp.
    exact (reopen_plus _ _ _ _ _ _ _ _ _ _ _ Hp Hc Ho).
Qed.

Lemma redir_for_plus t0 (k : nat) : forall base i r (w : world) r' w',
  redir_for k base i r w = Done (r', w') ->
  table_plus t0 (fdt w) (r_input r) (r_output r) ->
  table_plus t0 (fdt w') (r_input r') (r_output r').
Proof.
  induction k as [|k IH]; intros base i r w r' w' Hrun Hp; simpl in Hrun.
  - now injection Hrun as <- <-.
  - apply bind_Done in Hrun as ([r1 w1] & Hb & Hrun).
    exact (IH _ _ _ _ _ _ Hrun (redir_body_plus _ _ _ _ _ _ _ Hb Hp)).
Qed.

Lemma redir_for_trace (k : nat) : forall base i r (w : world) r' w',
  redir_for k base i r w = Done (r', w') -> exists l, trace w' = trace w ++ l.
Proof.
  induction k as [|k IH]; intros base i r w r' w' Hf; simpl in Hf.
  - injection Hf as <- <-. exists []. now rewrite app_nil_r.
  - apply bind_Done in Hf as ([r1 w1] & Hb & Hf).
    apply IH in Hf as (l & ->).
    apply redir_body_inv in Hb as (_ & t & _ & Hcase).
    destruct Hcase as [(_ & x & wa & path & fd & Hc & _ & Ho & _)
      |[(_ & x & wa & path & fd & Hc & _ & Ho & _)
      |[(_ & _ & -> & _)|(_ & _ & -> & _)]]]; eauto;
      apply MaybeClose_frame in Hc as (_ & (l1 & Hl1) & _);
      apply Open_inv in Ho as (p & fs & _ & _ & _ & ->); simpl;
      rewrite Hl1; eexists; rewrite <- !app_assoc; reflexivity.
Qed.

(** Closing the two gives the table back. *)
Lemma close_both_plus t0 input output (w : world) x wa y wb :
  table_plus t0 (fdt w) input output ->
  MaybeClose input w = Done (x, wa) ->
  MaybeClose output wa = Done (y, wb) ->
  forall z, fd_lookup z (fdt wb) = fd_lookup z t0.
Proof.
  intros (He & Hi & Ho & Hd) Ha Hb z.
  apply MaybeClose_inv in Ha as [[Hin ->]|(Hin & _ & ->)];
    apply MaybeClose_inv in Hb as [[Hout ->]|(Hout & _ & ->)]; simpl.
  - apply He; auto.
  - destruct Ho as [|[_ Ho0]]; [lia|].
    destruct (Z.eq_dec z output) as [->|ne].
    + now rewrite fd_lookup_remove_eq.
    + rewrite fd_lookup_remove_ne by congruence. apply He; auto.
  - destruct Hi as [|[_ Hi0]]; [lia|].
    destruct (Z.eq_dec z input) as [->|ne].
    + now rewrite fd_lookup_remove_eq.
    + rewrite fd_lookup_remove_ne by congruence. apply He; auto.
  - destruct Hi as [|[_ Hi0]]; [lia|]. destruct Ho as [|[_ Ho0]]; [lia|].
    destruct (Z.eq_dec z output) as [->|ne].
    + now rewrite fd_lookup_remove_eq.
    + rewrite fd_lookup_remove_ne by congruence.
      destruct (Z.eq_dec z input) as [->|ne'].
      * now rewrite fd_lookup_remove_eq.
      * rewrite fd_lookup_remove_ne by congruence. apply He; auto.
Qed.

Lemma addjob_frame pgid bg (w : world) :
  fdt (snd (addjob pgid bg w)) = fdt w
  /\ trace (snd (addjob pgid bg w)) = trace w.
Proof.
  unfold addjob, allocjob. destruct bg; [|now split].
  now destruct (find_free BG (drop (Z.to_nat BG) (jobs w))).
Qed.

Lemma addproc_frame (j pid : Z) argv (w : world) w' :
  addproc j pid argv w = Done w' -> fdt w' = fdt w /\ trace w' = trace w.
Proof.
  unfold addproc. intros Hp.
  apply bind_Done in Hp as ([] & _ & Hp).
  apply bind_Done in Hp as (b & _ & Hp).
  apply bind_Done in Hp as (cmd & _ & Hp). injection Hp as <-. now split.
Qed.

(** X16. A command that [do_job] starts in the background: the call
    does not wait and returns 0; the child is the next pid of [fork] and
    gets a group of its own; its job is in a background slot, with that
    group, one entry in state RUNNING and a command text, the other
    slots as before; the last thing printed is the line that the job
    runs; and the files opened for redirections are closed again in the
    shell, whose descriptors are as before. *)
Theorem do_job_background toks ntokens pids evs (w : world) code w' evs' :
  jobs w <> [] ->
  do_job builtin_command toks ntokens true pids evs w
    = Done (code, w', evs') ->
  code = 0 /\ evs' = evs
  /\ exists pid (job : nat) b l,
       head pids = Some pid
       /\ (1 <= job)%nat
       /\ jobs w' !! job = Some b
       /\ job.pgid b = pid /\ job.proc b = [fresh_proc pid]
       /\ job.state b = RUNNING /\ job.command b <> None
       /\ (forall i : nat, (i < length (jobs w))%nat -> i <> job ->
             jobs w' !! i = jobs w !! i)
       /\ trace w' = trace w ++ l
                      ++ [EMsg (Running_bg (Z.of_nat job) (job.command b))]
       /\ In (ESetpgid pid pid) l
       /\ forall y, fd_lookup y (fdt w') = fd_lookup y (fdt w).
Proof.
  intros Hne Hrun. unfold do_job in Hrun.
  apply bind_Done in Hrun as ([[[[n toks1] input] output] w1] & Hd & Hrun).
  cbn [negb andb mbind outcome_bind] in Hrun.
  destruct pids as [|pid pids]; [discriminate|].
  apply bind_Done in Hrun as ([x wa] & Hca & Hrun).
  apply bind_Done in Hrun as ([y wb] & Hcb & Hrun).
  destruct (addjob pid true wb) as [job wc] eqn:Ha.
  apply bind_Done in Hrun as (wd & Hp & Hrun).
  apply bind_Done in Hrun as (cmd & Hcmd & Hrun).
  injection Hrun as <- <- <-. split; [reflexivity|]. split; [reflexivity|].
  (* the redirections *)
  unfold do_redir in Hd.
  apply bind_Done in Hd as ([r w0] & Hf & Hd).
  apply bind_Done in Hd as (toks2 & _ & Hd). injection Hd as <- <- <- <- <-.
  pose proof (redir_for_jobs _ _ _ _ _ _ _ Hf) as Hj0.
  pose proof (redir_for_plus (fdt w) _ _ _ _ _ _ _ Hf (table_plus_refl _))
    as Hplus.
  pose proof (redir_for_trace _ _ _ _ _ _ _ Hf) as Htr0.
  destruct Htr0 as (l0 & Hl0).
  (* the two descriptors are closed *)
  set (we := emit (ESetpgid pid pid)
               (emit (EFork pid pid (r_input r) (r_output r) (argv_of toks2))
                  w0)) in *.
  pose proof (close_both_plus (fdt w) _ _ we _ _ _ _ Hplus Hca Hcb) as Hfd.
  pose proof (MaybeClose_jobs _ _ _ _ Hca) as Hja.
  pose proof (MaybeClose_jobs _ _ _ _ Hcb) as Hjb.
  apply MaybeClose_frame in Hca as (_ & (la & Hla) & _).
  apply MaybeClose_frame in Hcb as (_ & (lb & Hlb) & _).
  (* the job *)
  assert (Hjw : jobs wb = jobs w) by (rewrite Hjb, Hja; exact Hj0).
  pose proof (addjob_frame pid true wb) as [Hfc Htc]. rewrite Ha in Hfc, Htc.
  simpl in Hfc, Htc.
  unfold addjob in Ha. destruct (allocjob wb) as [to wx] eqn:Hal.
  injection Ha as <- <-.
  apply allocjob_spec in Hal as (Hto & _ & _ & _ & (b0 & Hb0 & _) & Hold & _);
    [|now rewrite Hjw].
  unfold BG in Hto.
  assert (Hlt : (Z.to_nat to < length (jobs wx))%nat)
    by now apply lookup_lt_Some in Hb0.
  pose proof (addproc_frame _ _ _ _ _ Hp) as [Hfp Htp].
  simpl in Hfc, Htc, Hfp, Htp.
  apply addproc_inv in Hp as (_ & b & cmd1 & Hb & Hjd).
  simpl in Hb. rewrite list_lookup_insert_eq in Hb by exact Hlt.
  injection Hb as <-. simpl in Hjd. rewrite list_insert_insert_eq in Hjd.
  assert (Hcmd' : cmd = Some cmd1).
  { unfold jobcmd in Hcmd. apply bind_Done in Hcmd as ([] & _ & Hcmd).
    apply bind_Done in Hcmd as (b & Hb & Hcmd). injection Hcmd as <-.
    unfold job_at in Hb. destruct (0 <=? to); [|discriminate].
    rewrite Hjd, list_lookup_insert_eq in Hb by exact Hlt.
    now injection Hb as <-. }
  subst cmd.
  eexists pid, (Z.to_nat to), _,
    (l0 ++ [EFork pid pid (r_input r) (r_output r) (argv_of toks2);
            ESetpgid pid pid] ++ la ++ lb).
  split; [reflexivity|]. split; [lia|].
  split; [simpl; rewrite Hjd; now apply list_lookup_insert_eq|].
  split; [reflexivity|]. split; [reflexivity|]. split; [reflexivity|].
  split; [discriminate|]. split; [|split; [|split]].
  - intros i Hi Hne'. simpl. rewrite Hjd.
    rewrite list_lookup_insert_ne by auto. rewrite <- Hjw. apply Hold.
    now rewrite Hjw.
  - simpl. rewrite Z2Nat.id by lia.
    rewrite Htp, Htc, Hlb, Hla. unfold we. simpl.
    rewrite Hl0, <- !app_assoc. simpl. rewrite <- !app_assoc. reflexivity.
  - apply in_or_app. right. apply in_or_app. left. right. now left.
  - intros z. simpl. rewrite Hfp. simpl. rewrite Hfc. apply Hfd.
Qed.

Lemma append_assoc (a b c : string) : ((a ++ b) ++ c = a ++ b ++ c)%string.
Proof. induction a as [|x a IH]; simpl; [reflexivity|now rewrite IH]. Qed.

Lemma mkcommand_rest_words rest ws : forall acc w0,
  mkcommand_rest (map Word ws ++ NULL :: rest) (acc ++ w0)%string
  = Done (acc ++ join_words (w0 :: ws))%string.
Proof.
  induction ws as [|x ws IH]; intros acc w0; [reflexivity|].
  cbn [map app mkcommand_rest].
  replace ((acc ++ w0) ++ " " ++ x)%string
    with ((acc ++ w0 ++ " ") ++ x)%string
    by now rewrite !append_assoc.
  rewrite IH. cbn [join_words]. now rewrite !append_assoc.
Qed.

Lemma render_snoc s stages ws :
  render ((s :: stages) ++ [ws])
  = (render (s :: stages) ++ " | " ++ join_words ws)%string.
Proof.
  revert s. induction stages as [|s' stages IH]; intros s; [reflexivity|].
  change (render ((s :: s' :: stages) ++ [ws]))
    with (join_words s ++ " | " ++ render ((s' :: stages) ++ [ws]))%string.
  rewrite IH.
  change (render (s :: s' :: stages))
    with (join_words s ++ " | " ++ render (s' :: stages))%string.
  now rewrite !append_assoc.
Qed.

Lemma mkcommand_words stages ws rest :
  ws <> [] ->
  mkcommand (match stages with [] => None | _ => Some (render stages) end)
    (map Word ws ++ NULL :: rest)
  = Done (render (stages ++ [ws])).
Proof.
  intros Hne. destruct ws as [|w0 ws]; [done|]. unfold mkcommand.
  cbn [map app]. destruct stages as [|s stages].
  - rewrite (mkcommand_rest_words rest ws EmptyString w0). reflexivity.
  - rewrite (mkcommand_rest_words rest ws _ w0), render_snoc.
    now rewrite append_assoc.
Qed.

(** X17. The command text that [mkcommand] builds: after the stages
    [stages], whose text the job has, a stage of the words [ws] before
    the NULL gives the text of all of them, words joined by a blank and
    stages by [" | "]; arguments that start with another token than a
    word cannot be appended. *)
Theorem mkcommand_renders stages ws rest :
  ws <> [] ->
  mkcommand (match stages with [] => None | _ => Some (render stages) end)
    (map Word ws ++ NULL :: rest)
  = Done (render (stages ++ [ws]))
  /\ (forall cmd t argv, (forall x, t <> Word x) ->
        mkcommand cmd (t :: argv) = Fault).
Proof.
  intros Hne. split; [now apply mkcommand_words|].
  intros cmd t argv Ht. unfold mkcommand.
  destruct t; try reflexivity. now destruct (Ht s).
Qed.

End Launching.

Section Lines.
Context `{H : shell_h}.
Variable builtin_command : list token -> world -> outcome (Z * world).

Lemma is_pipeline_for_spec (k : nat) : forall toks i,
  0 <= i -> (Z.to_nat i + k <= length toks)%nat ->
  is_pipeline_for k toks i
  = Done (existsb (fun t => token_eqb t T_PIPE)
            (take k (drop (Z.to_nat i) toks))).
Proof.
  induction k as [|k IH]; intros toks i Hi Hlen; simpl; [reflexivity|].
  destruct (lookup_lt_is_Some_2 toks (Z.to_nat i)) as [t Ht]; [lia|].
  rewrite (tok_read_lookup _ _ _ Hi Ht). simpl.
  rewrite (drop_S _ _ _ Ht). simpl.
  destruct (token_eqb t T_PIPE); [reflexivity|]. simpl.
  rewrite IH by lia. now replace (Z.to_nat (i + 1)) with (S (Z.to_nat i)) by lia.
Qed.

(** X18. [is_pipeline] on [ntokens] tokens that the array has: it returns
    true when one of them is [T_PIPE] and false when none is. *)
Theorem is_pipeline_finds_pipe toks (ntokens : Z) :
  (Z.to_nat ntokens <= length toks)%nat ->
  exists r, is_pipeline toks ntokens = Done r
    /\ (r = true <-> T_PIPE ∈ take (Z.to_nat ntokens) toks).
Proof.
  intros Hlen. unfold is_pipeline.
  rewrite is_pipeline_for_spec by (simpl; lia). simpl. rewrite drop_0.
  eexists. split; [reflexivity|]. rewrite existsb_exists. split.
  - intros (t & Hin & Ht). apply token_eqb_eq in Ht. subst t.
    now apply list_elem_of_In.
  - intros Hin. exists T_PIPE. split; [now apply list_elem_of_In|reflexivity].
Qed.

(** X19. [eval] on a line that ends in [&]: the operator is replaced by
    NULL and the tokens before it are run in the background, by
    [do_pipeline] when one of them is [T_PIPE] and by [do_job] otherwise;
    when no token is before it, nothing is run and nothing changes. *)
Theorem eval_trailing_ampersand ts rest pids evs (w : world) :
  eval builtin_command (ts ++ T_BGJOB :: rest) (Z.of_nat (length ts) + 1)
    pids evs w
  = match ts with
    | [] => Done (w, evs)
    | _ =>
        '(_, w, evs) ←
          (if existsb (fun t => token_eqb t T_PIPE) ts
           then do_pipeline (ts ++ NULL :: rest) (Z.of_nat (length ts)) true
                  pids evs w
           else do_job builtin_command (ts ++ NULL :: rest)
                  (Z.of_nat (length ts)) true pids evs w);
        Done (w, evs)
    end.
Proof.
  unfold eval.
  destruct (Z.ltb_spec 0 (Z.of_nat (length ts) + 1)); [|lia].
  replace (Z.of_nat (length ts) + 1 - 1) with (Z.of_nat (length ts)) by lia.
  rewrite (tok_read_lookup _ _ T_BGJOB) by
    (try lia; rewrite Nat2Z.id; now apply list_lookup_middle).
  cbn [mbind outcome_bind token_eqb].
  unfold tok_write.
  destruct (Z.leb_spec 0 (Z.of_nat (length ts))); [|lia].
  destruct (Z.ltb_spec (Z.of_nat (length ts))
              (Z.of_nat (length (ts ++ T_BGJOB :: rest))));
    [|rewrite length_app in *; simpl in *; lia].
  cbn [andb mbind outcome_bind]. rewrite Nat2Z.id.
  replace (<[length ts := NULL]> (ts ++ T_BGJOB :: rest))
    with (ts ++ NULL :: rest).
  2:{ replace (length ts) with (length ts + 0)%nat at 1 by lia.
      now rewrite insert_app_r. }
  destruct ts as [|t ts]; [reflexivity|].
  destruct (Z.ltb_spec 0 (Z.of_nat (length (t :: ts)))); [|simpl in *; lia].
  unfold is_pipeline.
  rewrite is_pipeline_for_spec
    by (try lia; rewrite Nat2Z.id, length_app; simpl; lia).
  rewrite Nat2Z.id. simpl (Z.to_nat 0). rewrite drop_0.
  rewrite take_app_length. reflexivity.
Qed.

End Lines.

Section Groups.
Context `{H : shell_h}.

(** What [do_stage] tells the kernel about the child. *)
Lemma do_stage_events pgid input output toks base ntokens pids (w : world)
  pid toks1 pids1 w1 :
  do_stage pgid input output toks base ntokens pids w
    = Done (pid, toks1, pids1, w1) ->
  pids = pid :: pids1
  /\ exists l i o a,
       trace w1 = trace w ++ l
                  ++ [EFork pid (if pgid =? 0 then pid else pgid) i o a;
                      ESetpgid pid pid].
Proof.
  unfold do_stage. intros Hs.
  apply bind_Done in Hs as ([[[[n toks2] i] o] w2] & Hd & Hs).
  apply bind_Done in Hs as ([] & _ & Hs).
  destruct pids as [|pid0 pids]; [discriminate|].
  injection Hs as <- <- <- <-. split; [reflexivity|].
  unfold do_redir in Hd.
  apply bind_Done in Hd as ([r w0] & Hf & Hd).
  apply bind_Done in Hd as (toks3 & _ & Hd). injection Hd as <- <- <- <- <-.
  apply redir_for_trace in Hf as (l & Hl).
  exists l, (r_input r), (r_output r), (argv_of (drop (Z.to_nat base) toks3)).
  simpl. rewrite Hl, <- !app_assoc. reflexivity.
Qed.

Lemma pipeline_body_events pgid job p (w : world) p1 w1 :
  pipeline_body pgid job p w = Done (p1, w1) ->
  exists pid l i o a,
    p_pids p = pid :: p_pids p1
    /\ trace w1 = trace w ++ l
    /\ In (EFork pid (if pgid =? 0 then pid else pgid) i o a) l
    /\ In (ESetpgid pid pid) l.
Proof.
  unfold pipeline_body. intros Hb.
  apply bind_Done in Hb as ([len found] & _ & Hb).
  apply bind_Done in Hb as ([[next_input output] wm] & Hm & Hb).
  assert (Htm : exists lm, trace wm = trace w ++ lm).
  { destruct found.
    - unfold mkpipe in Hm. injection Hm as _ _ <-. simpl. eauto.
    - injection Hm as _ _ <-. exists []. now rewrite app_nil_r. }
  destruct Htm as (lm & Hlm).
  apply bind_Done in Hb as ([[[pid toks1] pids1] ws] & Hs & Hb).
  apply do_stage_events in Hs as (Hpids & l & i & o & a & Hl).
  apply bind_Done in Hb as ([x1 wc1] & Hc1 & Hb).
  apply bind_Done in Hb as ([output' wc2] & Hc2 & Hb).
  apply bind_Done in Hb as (wp & Hp & Hb).
  apply MaybeClose_frame in Hc1 as (_ & (l1 & Hl1) & _).
  apply MaybeClose_frame in Hc2 as (_ & (l2 & Hl2) & _).
  apply addproc_frame in Hp as [_ Htp].
  injection Hb as <- <-. cbn [p_pids].
  exists pid,
    (lm ++ l ++ [EFork pid (if pgid =? 0 then pid else pgid) i o a;
                 ESetpgid pid pid] ++ l1 ++ l2), i, o, a.
  split; [exact Hpids|]. split.
  - rewrite Htp, Hl2, Hl1, Hl, Hlm, <- !app_assoc. reflexivity.
  - split; apply in_or_app; right; apply in_or_app; right; simpl; auto.
Qed.

Lemma pipeline_loop_events (fuel : nat) : forall pgid job p (w : world) p' w',
  pipeline_loop fuel pgid job p w = Done (p', w') ->
  exists used l,
    p_pids p = used ++ p_pids p'
    /\ used <> []
    /\ trace w' = trace w ++ l
    /\ forall pid, In pid used ->
         (exists i o a,
            In (EFork pid (if pgid =? 0 then pid else pgid) i o a) l)
         /\ In (ESetpgid pid pid) l.
Proof.
  induction fuel as [|fuel IH]; intros pgid job p w p' w' Hrun;
    [discriminate|]. simpl in Hrun.
  apply bind_Done in Hrun as ([p1 w1] & Hb & Hrun).
  apply pipeline_body_events in Hb
    as (pid & l & i & o & a & Hpids & Hl & Hfork & Hset).
  destruct (0 <? p_ntokens p1).
  - apply IH in Hrun as (used & l' & Hused & _ & Hl' & Hall).
    cbn [p_pids] in Hused. exists (pid :: used), (l ++ l').
    split; [rewrite Hpids, Hused; reflexivity|]. split; [discriminate|].
    split; [rewrite Hl', Hl, <- app_assoc; reflexivity|].
    intros q [<-|Hq].
    + split; [exists i, o, a|]; apply in_or_app; auto.
    + destruct (Hall q Hq) as ((i' & o' & a' & Hf) & Hs).
      split; [exists i', o', a'|]; apply in_or_app; auto.
  - injection Hrun as <- <-. exists [pid], l.
    split; [rewrite Hpids; reflexivity|]. split; [discriminate|].
    split; [exact Hl|].
    intros q [<-|[]]. split; [exists i, o, a|]; assumption.
Qed.

(** X20. The process groups of a pipeline that [do_pipeline] launches:
    the child of the first stage is told to make a group of its own, the
    child of every later stage to join the group of the first; and for
    every stage the shell itself calls [Setpgid (pid, pid)] in the
    parent, which asks for a group of its own for that child. *)
Theorem pipeline_stage_groups toks ntokens bg pids (w : world) job p w' :
  pipeline_launch toks ntokens bg pids w = Done (job, p, w') ->
  exists first later l,
    pids = first :: later ++ p_pids p
    /\ later <> []
    /\ trace w' = trace w ++ l
    /\ (exists i o a, In (EFork first first i o a) l)
    /\ (forall pid, In pid later ->
          exists i o a,
            In (EFork pid (if first =? 0 then pid else first) i o a) l)
    /\ (forall pid, In pid (first :: later) -> In (ESetpgid pid pid) l).
Proof.
  unfold pipeline_launch. intros Hrun.
  apply bind_Done in Hrun as ([[next_input output] wm] & Hm & Hrun).
  unfold mkpipe in Hm. injection Hm as <- <- <-.
  apply bind_Done in Hrun as (len & _ & Hrun).
  apply bind_Done in Hrun as ([[[pid toks1] pids1] ws] & Hs & Hrun).
  apply do_stage_events in Hs as (Hpids & l0 & i & o & a & Hl0).
  rewrite Z.eqb_refl in Hl0. simpl in Hl0.
  apply bind_Done in Hrun as ([output' wc] & Hc & Hrun).
  apply MaybeClose_frame in Hc as (_ & (lc & Hlc) & _).
  pose proof (addjob_frame pid bg wc) as [_ Hta].
  destruct (addjob pid bg wc) as [j wa]. simpl in Hta.
  apply bind_Done in Hrun as (wp & Hp & Hrun).
  apply addproc_frame in Hp as [_ Htp].
  apply bind_Done in Hrun as ([p' wl] & Hloop & Hrun).
  injection Hrun as <- <- <-.
  apply pipeline_loop_events in Hloop
    as (used & l & Hused & Hne & Hl & Hall).
  cbn [p_pids] in Hused.
  set (l1 := [EPipe (fresh_fd (fdt w))
                (fresh_fd ((fresh_fd (fdt w), FD_pipe_rd) :: fdt w))]
             ++ l0 ++ [EFork pid pid i o a; ESetpgid pid pid] ++ lc).
  assert (Htr : trace wp = trace w ++ l1).
  { rewrite Htp, Hta, Hlc, Hl0. unfold l1. simpl.
    rewrite <- !app_assoc. reflexivity. }
  exists pid, used, (l1 ++ l).
  split; [rewrite Hpids, Hused; reflexivity|]. split; [exact Hne|].
  split; [rewrite Hl, Htr, <- app_assoc; reflexivity|].
  assert (Hin1 : In (EFork pid pid i o a) l1 /\ In (ESetpgid pid pid) l1).
  { unfold l1.
    split; apply in_or_app; right; apply in_or_app; right; simpl; auto. }
  split; [exists i, o, a; apply in_or_app; left; apply Hin1|]. split.
  - intros q Hq. destruct (Hall q Hq) as ((i' & o' & a' & Hf) & _).
    exists i', o', a'. apply in_or_app. now right.
  - intros q [<-|Hq]; apply in_or_app; [left; apply Hin1|right].
    now destruct (Hall q Hq).
Qed.

End Groups.

Section PlainPipelines.
Context `{H : shell_h}.

Lemma words_no_pipe ws : T_PIPE ∉ map Word ws.
Proof.
  intros Hin. apply list_elem_of_In, in_map_iff in Hin as (x & Hx & _).
  discriminate.
Qed.

Lemma words_stage_ok ws : ws <> [] -> stage_ok (map Word ws).
Proof.
  intros Hne. split; [now destruct ws|apply words_no_pipe].
Qed.

(** The [for] of [do_redir] over words counts them and changes nothing. *)
Lemma redir_for_plain ws : forall base i r (w : world) rest,
  0 <= base -> 0 <= i ->
  is_null (r_mode r) = true ->
  drop (Z.to_nat (base + i)) (r_toks r) = map Word ws ++ rest ->
  redir_for (length ws) base i r w
  = Done (Redir (r_toks r) (r_mode r) (r_n r + Z.of_nat (length ws))
            (r_input r) (r_output r), w).
Proof.
  induction ws as [|x ws IH]; intros base i r w rest Hb Hi Hm Hd.
  - simpl. rewrite Z.add_0_r. now destruct r.
  - cbn [length redir_for]. unfold redir_body.
    rewrite (tok_read_lookup (r_toks r) (base + i) (Word x)); [|lia|].
    2:{ rewrite <- (Nat.add_0_r (Z.to_nat (base + i))).
        now apply (lookup_of_drop _ _ [] (Word x) (map Word ws ++ rest)). }
    cbn [mbind outcome_bind token_eqb]. rewrite Hm.
    cbn [mbind outcome_bind].
    rewrite (IH base (i + 1) _ w rest); cbn [r_toks r_mode r_n r_input r_output];
      auto; try lia.
    + do 3 f_equal. lia.
    + replace (Z.to_nat (base + (i + 1)))
        with (Z.to_nat (base + i) + length [Word x])%nat by (simpl; lia).
      apply drop_tail. exact Hd.
Qed.

Lemma do_redir_plain toks base input output (w : world) ws rest :
  0 <= base ->
  drop (Z.to_nat base) toks = map Word ws ++ rest ->
  do_redir toks base (Z.of_nat (length ws)) input output w
  = match rest with
    | [] => Fault
    | _ => Done (Z.of_nat (length ws),
                 <[(Z.to_nat base + length ws)%nat := NULL]> toks,
                 input, output, w)
    end.
Proof.
  intros Hb Hd. unfold do_redir. rewrite Nat2Z.id.
  rewrite (redir_for_plain ws base 0 _ w rest); auto; try lia.
  2:{ now rewrite Z.add_0_r. }
  cbn [mbind outcome_bind r_toks r_n r_input r_output]. unfold tok_write.
  assert (Hlen : length (drop (Z.to_nat base) toks)
                 = (length ws + length rest)%nat)
    by now rewrite Hd, length_app, length_map.
  rewrite length_drop in Hlen.
  destruct (Z.leb_spec 0 (base + (0 + Z.of_nat (length ws)))); [|lia].
  destruct rest as [|t rest].
  - destruct (Z.ltb_spec (base + (0 + Z.of_nat (length ws)))
                (Z.of_nat (length toks))); [simpl in Hlen; lia|reflexivity].
  - destruct (Z.ltb_spec (base + (0 + Z.of_nat (length ws)))
                (Z.of_nat (length toks))); [|simpl in Hlen; lia].
    cbn [andb mbind outcome_bind].
    replace (Z.to_nat (base + (0 + Z.of_nat (length ws))))
      with (Z.to_nat base + length ws)%nat by lia.
    now rewrite Z.add_0_l.
Qed.

Lemma drop_null toks (base : nat) ws t rest :
  drop base toks = map Word ws ++ t :: rest ->
  drop base (<[(base + length ws)%nat := NULL]> toks)
  = map Word ws ++ NULL :: rest.
Proof.
  intros Hd. rewrite drop_insert_ge by lia. rewrite Hd.
  replace (base + length ws - base)%nat with (length (map Word ws) + 0)%nat
    by (rewrite length_map; lia).
  now rewrite insert_app_r.
Qed.

Lemma argv_of_words ws rest : argv_of (map Word ws ++ NULL :: rest) = map Word ws.
Proof. induction ws as [|x ws IH]; simpl; [reflexivity|now rewrite IH]. Qed.

Lemma do_stage_plain pgid input output toks base pids (w : world) ws rest :
  ws <> [] -> 0 <= base ->
  drop (Z.to_nat base) toks = map Word ws ++ rest ->
  do_stage pgid input output toks base (Z.of_nat (length ws)) pids w
  = match rest, pids with
    | _ :: _, pid :: pids' =>
        Done (pid, <[(Z.to_nat base + length ws)%nat := NULL]> toks, pids',
              emit (ESetpgid pid pid)
                (emit (EFork pid (if pgid =? 0 then pid else pgid)
                         input output (map Word ws)) w))
    | _, _ => Fault
    end.
Proof.
  intros Hne Hb Hd. unfold do_stage.
  rewrite (do_redir_plain _ _ _ _ _ ws rest Hb Hd).
  destruct rest as [|t rest]; [reflexivity|].
  cbn [mbind outcome_bind].
  destruct (Z.eqb_spec (Z.of_nat (length ws)) 0) as [e|_];
    [destruct ws; [done|simpl in e; lia]|].
  cbn [negb assert mbind outcome_bind].
  destruct pids as [|pid pids]; [reflexivity|].
  now rewrite (drop_null _ _ _ _ _ Hd), argv_of_words.
Qed.

Lemma addproc_words prev (job pid : Z) (w : world) ws rest b :
  0 <= job -> ws <> [] ->
  jobs w !! Z.to_nat job = Some b ->
  job.command b = match prev with [] => None | _ => Some (render prev) end ->
  addproc job pid (map Word ws ++ NULL :: rest) w
  = Done (put_job job
            (job.mk _ (job.pgid b) (job.proc b ++ [fresh_proc pid])
               (job.tmodes b) (job.state b) (Some (render (prev ++ [ws]))))
            w).
Proof.
  intros Hj Hne Hb Hc. unfold addproc.
  rewrite (lookup_in_range _ _ _ Hj Hb), (job_at_lookup _ _ _ Hj Hb).
  cbn [assert mbind outcome_bind]. rewrite Hc, (mkcommand_words prev ws rest Hne).
  reflexivity.
Qed.

Lemma table_plus_neg t0 t input output :
  table_plus t0 t input (-1) -> output < 0 -> table_plus t0 t input output.
Proof.
  intros (He & Hi & _ & _) Ho. unfold table_plus.
  split; [intros y Hy _; apply He; auto; left; lia|]. auto.
Qed.

(** A pipe is made, [input] and the write end are closed: the read end
    is what stays open. *)
Lemma pipe_stage_plus t0 input (w : world) rd wr wm (we : world) x wa y wb :
  table_plus t0 (fdt w) input (-1) ->
  mkpipe w = Done (rd, wr, wm) ->
  fdt we = fdt wm ->
  MaybeClose input we = Done (x, wa) ->
  MaybeClose wr wa = Done (y, wb) ->
  table_plus t0 (fdt wb) rd (-1) /\ y < 0.
Proof.
  intros (He & Hi & _ & _) Hm Hfe Ha Hb.
  unfold mkpipe in Hm. injection Hm as <- <- <-. simpl in Hfe.
  set (rd := fresh_fd (fdt w)) in *.
  set (wr := fresh_fd ((rd, FD_pipe_rd) :: fdt w)) in *.
  pose proof (fresh_fd_free (fdt w)) as Hrd. fold rd in Hrd.
  pose proof (fresh_fd_free ((rd, FD_pipe_rd) :: fdt w)) as Hwr. fold wr in Hwr.
  pose proof (fresh_fd_nonneg ((rd, FD_pipe_rd) :: fdt w)) as Hwr0.
  fold wr in Hwr0.
  assert (Hwr_rd : wr <> rd).
  { intros e. unfold fd_is_open in Hwr. simpl in Hwr.
    rewrite e, Z.eqb_refl in Hwr. discriminate. }
  assert (Hwr_w : fd_lookup wr (fdt w) = None).
  { apply fd_closed_of_lookup. unfold fd_is_open in *. simpl in Hwr.
    destruct (Z.eqb_spec rd wr); [congruence|exact Hwr]. }
  assert (Hrd_w : fd_lookup rd (fdt w) = None)
    by now apply fd_closed_of_lookup.
  assert (Hin_rd : input < 0 \/ input <> rd).
  { destruct Hi as [|[Hi _]]; [now left|right]. intros ->. congruence. }
  assert (Hin_wr : input < 0 \/ input <> wr).
  { destruct Hi as [|[Hi _]]; [now left|right]. intros ->.
    unfold fd_is_open in Hi. now rewrite Hwr_w in Hi. }
  assert (Hplus : table_plus ((rd, FD_pipe_rd) :: t0) (fdt we) input wr).
  { rewrite Hfe. unfold table_plus. split; [|split; [|split]].
    - intros z Hz1 [Hz2|Hz2]; [lia|]. simpl.
      destruct (Z.eqb_spec wr z); [congruence|].
      destruct (Z.eqb_spec rd z); [reflexivity|].
      apply He; auto. left; lia.
    - destruct Hi as [|[Hi Hi0]]; [now left|right]. split.
      + unfold fd_is_open in *. simpl.
        destruct (wr =? input); [reflexivity|].
        now destruct (rd =? input).
      + simpl. destruct (Z.eqb_spec rd input) as [e|_]; [|exact Hi0].
        rewrite e in Hrd. congruence.
    - right. split.
      + unfold fd_is_open. simpl. now rewrite Z.eqb_refl.
      + simpl. destruct (Z.eqb_spec rd wr); [congruence|].
        rewrite <- Hwr_w. symmetry. apply He; [|left; lia].
        destruct Hin_wr; auto.
    - destruct Hin_wr; auto. }
  pose proof (close_both_plus _ _ _ _ _ _ _ _ Hplus Ha Hb) as Hfd.
  pose proof (fresh_fd_nonneg (fdt w)) as Hrd0. fold rd in Hrd0.
  split.
  - unfold table_plus. split; [|split; [|split]]; try (left; lia).
    + intros z [Hz|Hz] _; [lia|]. rewrite Hfd. simpl.
      now destruct (Z.eqb_spec rd z); [congruence|].
    + right. split.
      * unfold fd_is_open. rewrite Hfd. simpl. now rewrite Z.eqb_refl.
      * rewrite <- Hrd_w. symmetry. apply He; [|left; lia].
        destruct Hin_rd; auto.
    + right. left. lia.
  - unfold MaybeClose in Hb. destruct (Z.ltb_spec wr 0); [lia|].
    apply bind_Done in Hb as (w' & _ & Hb). injection Hb as <- _. lia.
Qed.

Lemma MaybeClose_unset fd (w : world) x wa :
  fd < 0 -> MaybeClose fd w = Done (x, wa) -> x < 0.
Proof.
  intros Hfd. unfold MaybeClose. destruct (Z.ltb_spec fd 0); [|lia].
  intros [= <- _]. exact Hfd.
Qed.

(** One round of the [while] of [do_pipeline] on a stage of words. *)
Lemma pipeline_body_plain t0 prev pgid job p (w : world) p1 w1 ws more rest b :
  ws <> [] -> prev <> [] ->
  0 <= p_base p -> 0 <= job ->
  drop (Z.to_nat (p_base p)) (p_toks p)
    = join_stages (map Word ws :: more) ++ rest ->
  p_ntokens p = Z.of_nat (length (join_stages (map Word ws :: more))) ->
  jobs w !! Z.to_nat job = Some b ->
  job.command b = Some (render prev) ->
  table_plus t0 (fdt w) (p_input p) (-1) -> p_output p < 0 ->
  pipeline_body pgid job p w = Done (p1, w1) ->
  exists pid b1,
    p_pids p = pid :: p_pids p1
    /\ jobs w1 !! Z.to_nat job = Some b1
    /\ job.command b1 = Some (render (prev ++ [ws]))
    /\ p_base p1 = p_base p
    /\ p_length p1 = Z.of_nat (length ws)
    /\ p_ntokens p1 = p_ntokens p - (Z.of_nat (length ws) + 1)
    /\ (forall x : nat, (Z.to_nat (p_base p) + length ws < x)%nat ->
          p_toks p1 !! x = p_toks p !! x)
    /\ p_output p1 < 0
    /\ match more with
       | [] => forall y, fd_lookup y (fdt w1) = fd_lookup y t0
       | _ => table_plus t0 (fdt w1) (p_input p1) (-1)
       end.
Proof.
  intros Hne Hprev Hbase Hjob Hd Hn Hb Hcmd Hplus Hout Hbody.
  unfold pipeline_body in Hbody.
  pose proof (words_no_pipe ws) as Hnp.
  assert (Hls : length (map Word ws) = length ws) by apply length_map.
  assert (Hcmd' : job.command b
                  = match prev with [] => None | _ => Some (render prev) end)
    by (destruct prev; [done|exact Hcmd]).
  assert (Hlt : (Z.to_nat job < length (jobs w))%nat)
    by now apply lookup_lt_Some in Hb.
  assert (Hnext : next_pipe (Z.to_nat (p_ntokens p)) (p_toks p) (p_base p) 0
                    (p_ntokens p) (p_length p)
                  = Done (Z.of_nat (length ws),
                          match more with [] => false | _ => true end)).
  { destruct more as [|s' more].
    - simpl in Hd, Hn. rewrite Hn, Nat2Z.id.
      rewrite (next_pipe_last (map Word ws) _ _ _ _ _ rest);
        [|lia|exact Hnp|].
      + destruct ws; [done|]. cbn [map]. now rewrite <- Hls.
      + now rewrite Z.add_0_r.
    - rewrite join_stages_cons in Hd, Hn. rewrite <- app_assoc in Hd.
      rewrite (next_pipe_found (map Word ws) _ _ _ _ _ _
                 (join_stages (s' :: more) ++ rest));
        [now rewrite Hls|lia|exact Hnp| |].
      + now rewrite Z.add_0_r.
      + rewrite Hn, Nat2Z.id, length_app. simpl. lia. }
  rewrite Hnext in Hbody. cbn [mbind outcome_bind] in Hbody.
  destruct more as [|s' more].
  - (* the last stage *)
    simpl in Hd. cbn [mbind outcome_bind] in Hbody.
    rewrite (do_stage_plain _ _ _ _ _ _ _ ws rest Hne Hbase Hd) in Hbody.
    destruct rest as [|t rest]; [discriminate|].
    destruct (p_pids p) as [|pid pids] eqn:Hp; [discriminate|].
    cbn [mbind outcome_bind] in Hbody.
    apply bind_Done in Hbody as ([x1 wc1] & Hc1 & Hbody).
    apply bind_Done in Hbody as ([out' wc2] & Hc2 & Hbody).
    pose proof (MaybeClose_jobs _ _ _ _ Hc1) as Hj1.
    pose proof (MaybeClose_jobs _ _ _ _ Hc2) as Hj2. simpl in Hj1.
    rewrite (drop_null _ _ _ _ _ Hd) in Hbody.
    rewrite (addproc_words prev job pid wc2 ws rest b) in Hbody;
      auto; [|congruence].
    injection Hbody as <- <-.
    cbn [p_pids p_base p_length p_ntokens p_toks p_output p_input].
    eexists pid, _. split; [reflexivity|]. split.
    { simpl. apply list_lookup_insert_eq. congruence. }
    split; [reflexivity|]. split; [reflexivity|]. split; [reflexivity|].
    split; [reflexivity|]. split.
    { intros x Hx. apply list_lookup_insert_ne. lia. }
    split; [exact (MaybeClose_unset _ _ _ _ Hout Hc2)|].
    simpl. eapply close_both_plus; [|exact Hc1|exact Hc2].
    exact (table_plus_neg _ _ _ _ Hplus Hout).
  - (* a stage before a pipe *)
    rewrite join_stages_cons in Hd. rewrite <- app_assoc in Hd.
    destruct (mkpipe w) as [[[rd wr] wm]| |] eqn:Hm; [|discriminate..].
    cbn [mbind outcome_bind] in Hbody.
    assert (Hjm : jobs wm = jobs w /\ p_toks p = p_toks p).
    { unfold mkpipe in Hm. now injection Hm as <- <- <-. }
    destruct Hjm as [Hjm _].
    rewrite (do_stage_plain _ _ _ _ _ _ _ ws _ Hne Hbase Hd) in Hbody.
    cbn [app] in Hbody.
    destruct (p_pids p) as [|pid pids] eqn:Hp; [discriminate|].
    cbn [mbind outcome_bind] in Hbody.
    apply bind_Done in Hbody as ([x1 wc1] & Hc1 & Hbody).
    apply bind_Done in Hbody as ([out' wc2] & Hc2 & Hbody).
    pose proof (MaybeClose_jobs _ _ _ _ Hc1) as Hj1.
    pose proof (MaybeClose_jobs _ _ _ _ Hc2) as Hj2. simpl in Hj1.
    rewrite (drop_null _ _ _ _ _ Hd) in Hbody.
    rewrite (addproc_words prev job pid wc2 ws _ b) in Hbody;
      auto; [|congruence].
    injection Hbody as <- <-.
    cbn [p_pids p_base p_length p_ntokens p_toks p_output p_input].
    assert (Hstage : table_plus t0 (fdt wc2) rd (-1) /\ out' < 0).
    { eapply (pipe_stage_plus t0 _ w rd wr wm);
        [exact Hplus|exact Hm| |exact Hc1|exact Hc2]. reflexivity. }
    destruct Hstage as [Hplus' Hneg].
    eexists pid, _. split; [reflexivity|]. split.
    { simpl. apply list_lookup_insert_eq. congruence. }
    split; [reflexivity|]. split; [reflexivity|]. split; [reflexivity|].
    split; [reflexivity|]. split.
    { intros x Hx. apply list_lookup_insert_ne. lia. }
    split; [exact Hneg|]. exact Hplus'.
Qed.

Lemma plain_stages_ok stages :
  Forall (fun ws : list string => ws <> []) stages ->
  Forall stage_ok (map (map Word) stages).
Proof.
  induction 1 as [|ws stages Hws _ IH]; simpl; constructor;
    [now apply words_stage_ok|exact IH].
Qed.

(** The [while] of [do_pipeline] over stages of words: the descriptors of
    the shell are those it had before the pipeline, and the text of the
    job is that of all the stages. *)
Lemma pipeline_loop_plain t0 stages :
  forall (fuel : nat) prev pgid job p (w : world) p' w' rest b,
  stages <> [] -> prev <> [] ->
  Forall (fun ws : list string => ws <> []) stages ->
  0 <= p_base p -> 0 <= job ->
  drop (Z.to_nat (p_base p)) (p_toks p)
    = join_stages (map (map Word) stages) ++ rest ->
  p_ntokens p = Z.of_nat (length (join_stages (map (map Word) stages))) ->
  jobs w !! Z.to_nat job = Some b ->
  job.command b = Some (render prev) ->
  table_plus t0 (fdt w) (p_input p) (-1) -> p_output p < 0 ->
  pipeline_loop fuel pgid job p w = Done (p', w') ->
  (forall y, fd_lookup y (fdt w') = fd_lookup y t0)
  /\ exists b', jobs w' !! Z.to_nat job = Some b'
       /\ job.command b' = Some (render (prev ++ stages)).
Proof.
  induction stages as [|ws more IH];
    intros fuel prev pgid job p w p' w' rest b Hne Hprev Hok Hbase Hjob Hd Hn
      Hb Hcmd Hplus Hout Hrun; [done|].
  destruct fuel as [|fuel]; [discriminate|]. simpl in Hrun.
  apply bind_Done in Hrun as ([p1 w1] & Hbody & Hrun).
  inversion Hok as [|? ? Hws Hmore]; subst.
  cbn [map] in Hd, Hn.
  destruct (pipeline_body_plain t0 prev _ _ _ _ _ _ ws
              (map (map Word) more) rest b Hws Hprev Hbase Hjob Hd Hn Hb
              Hcmd Hplus Hout Hbody)
    as (pid & b1 & Hpids & Hb1 & Hc1 & Hbase1 & Hl1 & Hn1 & Hsuf & Hout1
        & Hfd).
  destruct more as [|ws' more].
  - simpl in Hn. rewrite length_map in Hn. rewrite Hn1, Hn in Hrun.
    destruct (Z.ltb_spec 0 (Z.of_nat (length ws) - (Z.of_nat (length ws) + 1)));
      [lia|].
    injection Hrun as <- <-. split; [exact Hfd|]. now exists b1.
  - cbn [map] in Hd, Hn, Hfd, Hsuf. rewrite join_stages_cons in Hd, Hn.
    pose proof (plain_stages_ok _ Hmore) as Hmok. cbn [map] in Hmok.
    assert (Hpos : (0 < length (join_stages
                      (map Word ws' :: map (map Word) more)))%nat).
    { pose proof (join_stages_nonempty
                    (map Word ws' :: map (map Word) more) ltac:(done) Hmok).
      destruct (join_stages (map Word ws' :: map (map Word) more));
        [done|simpl; lia]. }
    rewrite length_app, length_map in Hn. cbn [length] in Hn.
    destruct (Z.ltb_spec 0 (p_ntokens p1)); [|lia].
    apply (IH _ (prev ++ [ws]) _ _ _ _ _ _ rest b1) in Hrun;
      cbn [p_base p_toks p_ntokens p_pids p_input p_output];
      try done; try lia.
    + destruct Hrun as (Hfd' & b' & Hb' & Hc').
      split; [exact Hfd'|]. exists b'. split; [exact Hb'|].
      now rewrite Hc', <- app_assoc.
    + now destruct prev.
    + rewrite Hbase1, Hl1.
      replace (Z.to_nat (p_base p + (Z.of_nat (length ws) + 1)))
        with (Z.to_nat (p_base p) + length (map Word ws ++ [T_PIPE]))%nat
        by (rewrite length_app, length_map; simpl; lia).
      rewrite (drop_agree _ (p_toks p)).
      * apply drop_tail. rewrite Hd, <- !app_assoc. reflexivity.
      * intros x Hx. apply Hsuf.
        rewrite length_app, length_map in Hx. simpl in Hx. lia.
    + cbn [map]. lia.
Qed.

(** X21. A pipeline of two or more stages that are only words, launched
    by [do_pipeline]: the pipes it makes are closed again in the shell,
    whose descriptors are as before; and the command text of the job is
    the words of each stage joined by a blank, the stages joined by
    [" | "]. *)
Theorem pipeline_of_words stages rest toks ntokens bg pids (w : world)
  job p w' :
  (2 <= length stages)%nat ->
  Forall (fun ws : list string => ws <> []) stages ->
  toks = join_stages (map (map Word) stages) ++ rest ->
  ntokens = Z.of_nat (length (join_stages (map (map Word) stages))) ->
  pipeline_launch toks ntokens bg pids w = Done (job, p, w') ->
  (forall y, fd_lookup y (fdt w') = fd_lookup y (fdt w))
  /\ exists b, jobs w' !! Z.to_nat job = Some b
       /\ job.command b = Some (render stages).
Proof.
  intros HN Hok -> -> Hrun.
  destruct stages as [|ws [|ws' more]]; [simpl in HN; lia..|].
  inversion Hok as [|? ? Hws Hmore]; subst.
  pose proof (plain_stages_ok _ Hmore) as Hmok.
  cbn [map] in *. rewrite join_stages_cons in *.
  set (tail := join_stages (map Word ws' :: map (map Word) more)) in *.
  assert (Htail : tail <> []).
  { apply join_stages_nonempty; [done|exact Hmok]. }
  unfold pipeline_launch in Hrun.
  destruct (mkpipe w) as [[[rd wr] wm]| |] eqn:Hm; [|discriminate..].
  cbn [mbind outcome_bind] in Hrun.
  rewrite (first_pipe_found (map Word ws) _ _ 0 0 (tail ++ rest)) in Hrun;
    [|lia|apply words_no_pipe| |].
  2:{ simpl. now rewrite <- app_assoc. }
  2:{ rewrite Nat2Z.id, length_app. simpl. lia. }
  cbn [mbind outcome_bind] in Hrun. rewrite length_map, Z.add_0_l in Hrun.
  rewrite (do_stage_plain _ _ _ _ _ _ _ ws (T_PIPE :: tail ++ rest)) in Hrun;
    [|exact Hws|lia|simpl; now rewrite <- app_assoc].
  destruct pids as [|pid pids]; [discriminate|].
  cbn [mbind outcome_bind Z.eqb] in Hrun.
  apply bind_Done in Hrun as ([out' wc] & Hc & Hrun).
  assert (Hstage : table_plus (fdt w) (fdt wc) rd (-1) /\ out' < 0).
  { eapply (pipe_stage_plus (fdt w) (-1) w rd wr wm _ (-1) _ out' wc);
      [apply table_plus_refl|exact Hm| | |exact Hc];
      [|reflexivity]; reflexivity. }
  destruct Hstage as [Hplus Hneg].
  pose proof (MaybeClose_jobs _ _ _ _ Hc) as Hjc. simpl in Hjc.
  destruct (addjob pid bg wc) as [j wa] eqn:Ha.
  pose proof (addjob_frame pid bg wc) as [Hfa _]. rewrite Ha in Hfa.
  simpl in Hfa.
  apply bind_Done in Hrun as (wp & Hp & Hrun).
  apply bind_Done in Hrun as ([p' wl] & Hloop & Hrun).
  injection Hrun as <- <- <-.
  (* the job that [addjob] made *)
  pose proof Hp as Hp'.
  apply addproc_inv in Hp' as (Hj0 & b0 & cmd & Hb0 & _).
  assert (Hnew : job.command b0 = None).
  { apply addjob_jobs in Ha as (js0 & _ & Hja). rewrite Hja in Hb0.
    rewrite list_lookup_insert_eq in Hb0.
    - now injection Hb0 as <-.
    - apply lookup_lt_Some in Hb0. now rewrite length_insert in Hb0. }
  simpl (Z.to_nat 0) in Hp. rewrite Nat.add_0_l in Hp.
  assert (Hd0 : drop 0 (<[length ws := NULL]>
                  ((map Word ws ++ T_PIPE :: tail) ++ rest))
                = map Word ws ++ NULL :: tail ++ rest).
  { rewrite <- (Nat.add_0_l (length ws)).
    apply (drop_null _ O ws T_PIPE (tail ++ rest)).
    simpl. now rewrite <- app_assoc. }
  rewrite drop_0 in Hd0. rewrite Hd0 in Hp.
  rewrite (addproc_words [] j pid wa ws (tail ++ rest) b0) in Hp; auto.
  injection Hp as <-.
  apply (pipeline_loop_plain (fdt w) (ws' :: more) _ [ws] _ _ _ _ _ _ rest)
    with (b := job.mk _ (job.pgid b0) (job.proc b0 ++ [fresh_proc pid])
                 (job.tmodes b0) (job.state b0) (Some (render ([] ++ [ws]))))
    in Hloop; cbn [p_base p_toks p_ntokens p_input p_output]; try done; try lia.
  - simpl (Z.to_nat 0). rewrite Nat.add_0_l, Hd0.
    replace (Z.to_nat (Z.of_nat (length ws) + 1))
      with (0 + length (map Word ws ++ [NULL]))%nat
      by (rewrite length_app, length_map; simpl; lia).
    apply drop_tail. simpl. now rewrite <- app_assoc.
  - rewrite length_app, length_map. cbn [length map]. fold tail. lia.
  - simpl. apply list_lookup_insert_eq. now apply lookup_lt_Some in Hb0.
  - simpl. now rewrite Hfa.
Qed.

End PlainPipelines.

Section Builtins.
Context `{H : shell_h}.
Variable builtin_command : list token -> world -> outcome (Z * world).

(** A redirection operator among the tokens leaves its descriptor set. *)
Lemma redir_for_sets (k : nat) : forall base i r (w : world) r' w',
  0 <= base -> 0 <= i ->
  redir_for k base i r w = Done (r', w') ->
  ((0 <= r_input r
    \/ exists x : nat, (x < k)%nat
         /\ r_toks r !! (Z.to_nat (base + i) + x)%nat = Some T_INPUT) ->
   0 <= r_input r')
  /\ ((0 <= r_output r
       \/ exists x : nat, (x < k)%nat
            /\ r_toks r !! (Z.to_nat (base + i) + x)%nat = Some T_OUTPUT) ->
      0 <= r_output r').
Proof.
  induction k as [|k IH]; intros base i r w r' w' Hb Hi Hrun; simpl in Hrun.
  - injection Hrun as <- <-.
    split; (intros [Hr|(x & Hx & _)]; [exact Hr|lia]).
  - apply bind_Done in Hrun as ([r1 w1] & Hbody & Hrun).
    pose proof (redir_body_toks _ _ _ _ _ _ Hbody) as Htoks.
    destruct (IH base (i + 1) r1 w1 r' w' Hb ltac:(lia) Hrun)
      as [IHin IHout].
    apply redir_body_inv in Hbody as (_ & t & Ht & Hcase).
    assert (Hnext : forall op (x : nat),
      r_toks r !! (Z.to_nat (base + i) + S x)%nat = Some op ->
      r_toks r1 !! (Z.to_nat (base + (i + 1)) + x)%nat = Some op).
    { intros op x Hx. rewrite Htoks by lia.
      now replace (Z.to_nat (base + (i + 1)) + x)%nat
        with (Z.to_nat (base + i) + S x)%nat by lia. }
    destruct Hcase as [(-> & x & wa & path & fd & _ & _ & Ho & Hr1)
      |[(-> & x & wa & path & fd & _ & _ & Ho & Hr1)
      |[(Hnr & _ & _ & Hr1)|(Hnr & _ & _ & _ & Hr1)]]].
    + apply Open_inv in Ho as (_ & _ & _ & _ & -> & _).
      pose proof (fresh_fd_nonneg (fdt wa)) as Hfd.
      split; [intros _; apply IHin; left; now rewrite Hr1|].
      intros [Hr|([|x'] & Hx & Hop)]; apply IHout.
      * left. now rewrite Hr1.
      * rewrite Nat.add_0_r in Hop. congruence.
      * right. exists x'. split; [lia|]. now apply Hnext.
    + apply Open_inv in Ho as (_ & _ & _ & _ & -> & _).
      pose proof (fresh_fd_nonneg (fdt wa)) as Hfd.
      split; [|intros _; apply IHout; left; now rewrite Hr1].
      intros [Hr|([|x'] & Hx & Hop)]; apply IHin.
      * left. now rewrite Hr1.
      * rewrite Nat.add_0_r in Hop. congruence.
      * right. exists x'. split; [lia|]. now apply Hnext.
    + split; intros [Hr|([|x'] & Hx & Hop)];
        try (rewrite Nat.add_0_r in Hop;
             assert (t = T_INPUT \/ t = T_OUTPUT) as [->| ->]
               by (rewrite Ht in Hop; injection Hop; auto);
             discriminate);
        [apply IHin|apply IHin|apply IHout|apply IHout];
        try (left; now rewrite Hr1);
        right; exists x'; (split; [lia|now apply Hnext]).
    + split; intros [Hr|([|x'] & Hx & Hop)];
        try (rewrite Nat.add_0_r in Hop;
             assert (t = T_INPUT \/ t = T_OUTPUT) as [->| ->]
               by (rewrite Ht in Hop; injection Hop; auto);
             discriminate);
        [apply IHin|apply IHin|apply IHout|apply IHout];
        try (left; now rewrite Hr1);
        right; exists x'; (split; [lia|now apply Hnext]).
Qed.

(** X22. A command that the shell runs itself in the foreground:
    [do_job] returns what [builtin_command] returns, forks no child and
    does not wait; it returns before the two calls of [MaybeClose], so
    a file opened for a redirection on that line, which was not open
    before, stays open in the shell. *)
Theorem do_job_builtin_leaves_files_open toks ntokens pids evs (w : world)
  n toks1 input output w1 code w2 :
  do_redir toks 0 ntokens (-1) (-1) w = Done (n, toks1, input, output, w1) ->
  builtin_command toks1 w1 = Done (code, w2) ->
  0 <= code ->
  fdt w2 = fdt w1 ->
  do_job builtin_command toks ntokens false pids evs w = Done (code, w2, evs)
  /\ ((exists x : nat, (x < Z.to_nat ntokens)%nat
          /\ toks !! x = Some T_INPUT) ->
      0 <= input /\ fd_is_open input (fdt w2) = true
      /\ fd_lookup input (fdt w) = None)
  /\ ((exists x : nat, (x < Z.to_nat ntokens)%nat
          /\ toks !! x = Some T_OUTPUT) ->
      0 <= output /\ fd_is_open output (fdt w2) = true
      /\ fd_lookup output (fdt w) = None).
Proof.
  intros Hd Hbc Hcode Hfd. split.
  - unfold do_job. rewrite Hd. cbn [mbind outcome_bind negb].
    rewrite Hbc. cbn [mbind outcome_bind andb].
    destruct (Z.leb_spec 0 code); [reflexivity|lia].
  - unfold do_redir in Hd.
    apply bind_Done in Hd as ([r w0] & Hf & Hd).
    apply bind_Done in Hd as (toks2 & _ & Hd). injection Hd as <- <- <- <- <-.
    pose proof (redir_for_plus (fdt w) _ _ _ _ _ _ _ Hf (table_plus_refl _))
      as (_ & Hin & Hout & _).
    destruct (redir_for_sets _ 0 0 _ _ _ _ ltac:(lia) ltac:(lia) Hf)
      as [Sin Sout].
    cbn [r_input r_output r_toks] in Sin, Sout. rewrite Hfd.
    split; intros Hex.
    + assert (Hpos : 0 <= r_input r) by (apply Sin; now right).
      destruct Hin as [|[Ho Hc]]; [lia|]. auto.
    + assert (Hpos : 0 <= r_output r) by (apply Sout; now right).
      destruct Hout as [|[Ho Hc]]; [lia|]. auto.
Qed.

End Builtins.

Section MoreRuns.
#[local] Existing Instance header.

(** [done_bg] has no free background slot: [allocjob] appends one. *)
Lemma allocjob_lowest_free_witness :
  exists to w', allocjob done_bg = (to, w') /\ 1 <= to /\ to = njobmax done_bg.
Proof.
  destruct (allocjob_lowest_free done_bg 2
              (set_jobs (jobs done_bg ++ [job.zero]) done_bg)) as (H1 & _);
    [discriminate|reflexivity|].
  exists 2, (set_jobs (jobs done_bg ++ [job.zero]) done_bg).
  split; [reflexivity|]. split; [exact H1|reflexivity].
Defined.

(** The slot of the finished job of [done_bg] goes to the next job. *)
Lemma cleared_slot_is_reused_witness :
  exists code w1 to w2 b2,
    jobstate 1 0 done_bg = Done (FINISHED, code, w1)
    /\ addjob 30 true w1 = (to, w2)
    /\ 1 <= to <= 1
    /\ length (jobs w2) = length (jobs done_bg)
    /\ jobs w2 !! Z.to_nat to = Some b2
    /\ job.pgid b2 = 30 /\ job.proc b2 = [] /\ job.state b2 = RUNNING.
Proof.
  apply (cleared_slot_is_reused 1 0 30 done_bg done_job);
    [lia|reflexivity|reflexivity|discriminate].
Defined.

(** The stopped job of [stopped_bg] moves to slot 0 and back. *)
Lemma movejob_there_and_back_witness :
  exists w1 w2,
    movejob 1 0 stopped_bg = Done w1
    /\ jobs w1 !! O = Some vi_job
    /\ movejob 0 1 w1 = Done w2
    /\ jobs w2 !! 1%nat = Some vi_job.
Proof.
  destruct (movejob_there_and_back 1 0 stopped_bg vi_job job.zero)
    as [_ Hmove]; [lia|lia|lia|reflexivity|reflexivity|].
  destruct (Hmove eq_refl) as (w1 & w2 & H1 & H2 & _ & _ & H3 & H4 & _).
  exists w1, w2. auto.
Defined.

(** No job of [done_bg] has an entry for the child 999. *)
Lemma sigchld_unknown_pid_witness :
  sigchld_step 999 0 (jobs done_bg) = alter recompute O (jobs done_bg).
Proof.
  apply (sigchld_unknown_pid 999 0 (jobs done_bg)).
  constructor; [intros Ho; inversion Ho|].
  constructor; [|constructor].
  intros Ho. inversion Ho as [? ? E|? ? Ho1]; [discriminate E|].
  inversion Ho1 as [? ? E|? ? Ho2]; [discriminate E|inversion Ho2].
Defined.

(** The history [three_jobs] from [boot]. *)
Lemma run_never_shrinks_witness :
  exists w' log', run three_jobs boot [] = Done (w', log')
    /\ (length (jobs boot) <= length (jobs w'))%nat.
Proof.
  assert (Hl : exists r, run three_jobs boot [] = Done r)
    by (eexists; vm_compute; reflexivity).
  destruct Hl as [[w' log'] Hl]. exists w', log'. split; [exact Hl|].
  exact (run_never_shrinks three_jobs boot [] w' log' Hl).
Defined.

Lemma run_keeps_entries_valid_witness :
  exists w' log', run three_jobs boot [] = Done (w', log')
    /\ entries_valid (jobs w').
Proof.
  assert (Hl : exists r, run three_jobs boot [] = Done r)
    by (eexists; vm_compute; reflexivity).
  destruct Hl as [[w' log'] Hl]. exists w', log'. split; [exact Hl|].
  apply (run_keeps_entries_valid three_jobs boot [] w' log'); [|exact Hl].
  constructor; [constructor|constructor].
Defined.

Lemma done_bg_free_ok : Forall free_ok (jobs done_bg).
Proof.
  constructor; [intros _; split; reflexivity|].
  constructor; [intros Hp; discriminate Hp|constructor].
Qed.

Lemma stopped_bg_free_ok : Forall free_ok (jobs stopped_bg).
Proof.
  constructor; [intros _; split; reflexivity|].
  constructor; [intros Hp; discriminate Hp|constructor].
Qed.

(** [initjobs] at the start of the shell, and [done_bg], whose one free
    slot reads as finished. *)
Lemma free_slots_read_finished_witness :
  initjobs power_on = Done boot
  /\ Forall free_ok (jobs boot)
  /\ Forall free_ok (jobs (snd (addjob 30 true done_bg)))
  /\ Forall free_ok (jobs (sigchld_handler [(100, 0)] done_bg)).
Proof.
  destruct (free_slots_read_finished done_bg eq_refl done_bg_free_ok)
    as (Hi & Ha & _ & Hh & _).
  split; [reflexivity|].
  split; [exact (proj2 (Hi power_on boot eq_refl))|].
  split; [apply Ha; lia|apply Hh].
Defined.

(** [killjob] on the stopped job of [stopped_bg]. *)
Lemma killjob_never_signals_group_0_witness :
  exists r w' l,
    killjob 1 stopped_bg = Done (r, w')
    /\ trace w' = trace stopped_bg ++ l
    /\ forall target sig, In (EKill target sig) l -> target <> 0.
Proof.
  assert (Hl : exists x, killjob 1 stopped_bg = Done x)
    by (eexists; vm_compute; reflexivity).
  destruct Hl as [[r w'] Hl].
  destruct (killjob_never_signals_group_0 1 stopped_bg r w'
              stopped_bg_free_ok Hl) as (l & Ht & Hk).
  exists r, w', l. auto.
Defined.

Lemma done_bg_watchable : Forall watchable (drop 1 (jobs done_bg)).
Proof.
  constructor; [|constructor].
  intros _. split; [discriminate|]. intros _. discriminate.
Qed.

(** [watchjobs (ALL)] on [done_bg] prints one line and frees slot 1. *)
Lemma watchjobs_frees_finished_witness :
  exists lines w',
    watchjobs scope_all scope_all done_bg = Done (lines, w')
    /\ length lines = 1%nat
    /\ jobs w' = [job.zero; sweep done_job].
Proof.
  destruct (watchjobs_frees_finished scope_all scope_all done_bg
              done_bg_watchable) as (lines & Hw & Hall & _).
  exists lines,
    (set_jobs (take 1 (jobs done_bg) ++ map sweep (drop 1 (jobs done_bg)))
       done_bg).
  split; [exact Hw|]. split; [exact (Hall eq_refl)|reflexivity].
Defined.

(** [watchjobs (FINISHED)] on [done_bg], twice. *)
Lemma watchjobs_reports_once_witness :
  exists w',
    watchjobs scope_all FINISHED done_bg
    = Done ([Exited 1 "a | b" 7], w')
    /\ watchjobs scope_all FINISHED w' = Done ([], w').
Proof.
  destruct (watchjobs_reports_once scope_all done_bg) as (w' & H1 & H2);
    [discriminate|exact done_bg_watchable|].
  exists w'. split; [exact H1|exact H2].
Defined.

(** The job of [running_bg] is killed and its slot freed. *)
Lemma shutdownjobs_frees_background_witness :
  exists out w' evs',
    shutdownjobs scope_all [terminated] running_bg = Done (out, w', evs')
    /\ out = [Killed 1 "cat" 15]
    /\ length (jobs w') = length (jobs running_bg)
    /\ forall (i : nat) b, (1 <= i)%nat -> jobs w' !! i = Some b ->
         job.pgid b = 0.
Proof.
  destruct (shutdownjobs_frees_background scope_all [terminated] running_bg)
    as [Hs|(out & w' & evs' & used & Hd & _ & Hlen & Hfree)].
  - constructor; [|constructor]. constructor; [|constructor].
    split; [reflexivity|]. right. reflexivity.
  - constructor; [|constructor].
    intros _. split; [discriminate|]. intros E. discriminate E.
  - vm_compute in Hs. discriminate Hs.
  - exists out, w', evs'. split; [exact Hd|]. split; [|auto].
    vm_compute in Hd. now injection Hd as <- _ _.
Defined.

(** The foreground job of [fg_running] exits. *)
Lemma monitorjob_frees_foreground_slot_witness :
  exists code w' evs' b,
    monitorjob [exits_7] fg_running = Done (code, w', evs')
    /\ jobs w' !! O = Some b /\ job.pgid b = 0.
Proof.
  assert (Hl : exists x, monitorjob [exits_7] fg_running = Done x)
    by (eexists; vm_compute; reflexivity).
  destruct Hl as [[[code w'] evs'] Hl].
  destruct (monitorjob_frees_foreground_slot [exits_7] fg_running cat_job
              code w' evs') as (b & Hb & Hp);
    [reflexivity|right; right; reflexivity|exact Hl|].
  exists code, w', evs', b. auto.
Defined.

(** The stopped job of [stopped_bg] is resumed in the foreground,
    continues and exits. *)
Lemma resumejob_foreground_hands_back_witness :
  exists r w' evs',
    resumejob 1 false [continues; exits_7] stopped_bg = Done (r, w', evs')
    /\ r = true
    /\ tty_pgrp w' = pgrp stopped_bg
    /\ tty_tmodes w' = shell_tmodes stopped_bg.
Proof.
  assert (Hl : exists x,
            resumejob 1 false [continues; exits_7] stopped_bg = Done x)
    by (eexists; vm_compute; reflexivity).
  destruct Hl as [[[r w'] evs'] Hl].
  destruct (resumejob_foreground_hands_back 1 [continues; exits_7] stopped_bg
              vi_job r w' evs') as (Hr & Hp & Hm & _).
  - vm_compute. discriminate.
  - reflexivity.
  - right. left. reflexivity.
  - reflexivity.
  - exists job.zero. split; reflexivity.
  - discriminate.
  - exact Hl.
  - exists r, w', evs'. auto.
Defined.

(** The same job resumed in the background. *)
Lemma resumejob_background_only_signals_witness :
  exists r w' evs',
    resumejob 1 true [continues] stopped_bg = Done (r, w', evs')
    /\ evs' = [continues] /\ jobs w' = jobs stopped_bg.
Proof.
  assert (Hl : exists x, resumejob 1 true [continues] stopped_bg = Done x)
    by (eexists; vm_compute; reflexivity).
  destruct Hl as [[[r w'] evs'] Hl].
  destruct (resumejob_background_only_signals 1 [continues] stopped_bg
              r w' evs' Hl) as (He & Hj & _).
  exists r, w', evs'. auto.
Defined.

(** [echo hi > out there &] from [boot]. *)
Lemma do_job_background_witness :
  exists code w' evs',
    do_job no_builtin echo_out 5 true [10] [] boot = Done (code, w', evs')
    /\ code = 0
    /\ forall y, fd_lookup y (fdt w') = fd_lookup y (fdt boot).
Proof.
  assert (Hl : exists x,
            do_job no_builtin echo_out 5 true [10] [] boot = Done x)
    by (eexists; vm_compute; reflexivity).
  destruct Hl as [[[code w'] evs'] Hl].
  destruct (do_job_background no_builtin echo_out 5 [10] [] boot code w' evs')
    as (Hc & _ & pid & job & b & l & _ & _ & _ & _ & _ & _ & _ & _ & _ & _
        & Hfd); [discriminate|exact Hl|].
  exists code, w', evs'. auto.
Defined.

(** The text of [a | b c]. *)
Lemma mkcommand_renders_witness :
  mkcommand (Some "a"%string) [Word "b"; Word "c"; NULL] = Done "a | b c"%string.
Proof.
  destruct (mkcommand_renders [["a"%string]] ["b"%string; "c"%string] [])
    as [Hm _]; [discriminate|exact Hm].
Defined.

(** [a | b | c] is a pipeline. *)
Lemma is_pipeline_finds_pipe_witness :
  exists r, is_pipeline abc_toks 5 = Done r
    /\ (r = true <-> T_PIPE ∈ take (Z.to_nat 5) abc_toks).
Proof.
  apply (is_pipeline_finds_pipe abc_toks 5). vm_compute. lia.
Defined.

(** The groups of [a | b | c &]. *)
Lemma pipeline_stage_groups_witness :
  exists job p w' first later l,
    pipeline_launch abc_toks 5 true [10; 11; 12] boot = Done (job, p, w')
    /\ [10; 11; 12] = first :: later ++ p_pids p
    /\ trace w' = trace boot ++ l
    /\ forall pid, In pid (first :: later) -> In (ESetpgid pid pid) l.
Proof.
  assert (Hl : exists r,
            pipeline_launch abc_toks 5 true [10; 11; 12] boot = Done r)
    by (eexists; vm_compute; reflexivity).
  destruct Hl as [[[job p] w'] Hl].
  destruct (pipeline_stage_groups abc_toks 5 true [10; 11; 12] boot job p w' Hl)
    as (first & later & l & Hp & _ & Ht & _ & _ & Hs).
  exists job, p, w', first, later, l. auto.
Defined.

(** The descriptors and the text of [a | b | c &]. *)
Lemma pipeline_of_words_witness :
  exists job p w' b,
    pipeline_launch abc_toks 5 true [10; 11; 12] boot = Done (job, p, w')
    /\ (forall y, fd_lookup y (fdt w') = fd_lookup y (fdt boot))
    /\ jobs w' !! Z.to_nat job = Some b
    /\ job.command b = Some "a | b | c"%string.
Proof.
  assert (Hl : exists r,
            pipeline_launch abc_toks 5 true [10; 11; 12] boot = Done r)
    by (eexists; vm_compute; reflexivity).
  destruct Hl as [[[job p] w'] Hl].
  destruct (pipeline_of_words abc_words [NULL] abc_toks 5 true [10; 11; 12]
              boot job p w') as (Hfd & b & Hb & Hc).
  - simpl. lia.
  - constructor; [discriminate|].
    constructor; [discriminate|].
    constructor; [discriminate|constructor].
  - reflexivity.
  - reflexivity.
  - exact Hl.
  - exists job, p, w', b. auto.
Defined.

(** [echo hi > out there] run by the shell itself leaves [out] open. *)
Lemma do_job_builtin_leaves_files_open_witness :
  exists n toks1 input output w1,
    do_redir echo_out 0 5 (-1) (-1) boot = Done (n, toks1, input, output, w1)
    /\ do_job all_builtin echo_out 5 false [] [] boot = Done (0, w1, [])
    /\ fd_is_open output (fdt w1) = true
    /\ fd_lookup output (fdt boot) = None.
Proof.
  assert (Hl : exists x, do_redir echo_out 0 5 (-1) (-1) boot = Done x)
    by (eexists; vm_compute; reflexivity).
  destruct Hl as [[[[[n toks1] input] output] w1] Hl].
  destruct (do_job_builtin_leaves_files_open all_builtin echo_out 5 [] []
              boot n toks1 input output w1 0 w1 Hl)
    as (Hj & _ & Hout); [reflexivity|lia|reflexivity|].
  destruct Hout as (_ & Ho & Hc).
  { exists 2%nat. split; [vm_compute; lia|reflexivity]. }
  exists n, toks1, input, output, w1. auto.
Defined.

End MoreRuns.
